(** * Bug-detection: the rule-based analyzer of [bug_detector_app.py]

    A shallow embedding of the class [CodeAnalyzer]: the per-language
    pattern table, the line scanner and the structural checker of
    [detect_bugs], and the two rectification operations [rectify_bug] and
    [apply_fixes]; and of the class [BugDetectionApp], the window that
    runs the analyzer on a file and writes the fixes (module [App]).

    Conventions.
    - A Python [str] is a [string]; a character is a code point below 256.
    - A Python [int] is a [Z].
    - A bug dictionary is the record [bug]; the optional key ['original']
      is an [option].
    - The two library functions the analyzer calls, [re.search] and
      [ast.parse], are not part of the repository.  [re.search] is
      modelled by a backtracking matcher over the pattern syntax the
      table uses; [ast.parse] is a parameter of the development. *)

From Stdlib Require Import ZArith Ascii String List Sorting.Sorted Permutation.
From stdpp Require Import base numbers list sorting strings gmap.
From stdpp Require Import pretty.

Set Warnings "-register-all".

Local Open Scope string_scope.
Local Open Scope Z_scope.

(** ** Text and lines *)

Definition newline : ascii := "010"%char.

(** [code.split('\n')]: never empty, the empty text is one empty line. *)
Fixpoint split_lines (code : string) : list string :=
  match code with
  | EmptyString => [EmptyString]
  | String c rest =>
      if Ascii.eqb c newline then EmptyString :: split_lines rest
      else match split_lines rest with
           | l :: ls => String c l :: ls
           | [] => [String c EmptyString]
           end
  end.

(** ['\n'.join(lines)] *)
Fixpoint join_lines (lines : list string) : string :=
  match lines with
  | [] => EmptyString
  | [l] => l
  | l :: ls => l ++ String newline (join_lines ls)
  end.

Fixpoint newline_free (s : string) : bool :=
  match s with
  | EmptyString => true
  | String c rest => negb (Ascii.eqb c newline) && newline_free rest
  end.

(** ** Bugs (findings) *)

Inductive bug_type : Set :=
  | SyntaxError | LogicError | LogicWarning | StyleWarning | DeprecationWarning.

#[global] Instance bug_type_eq_dec : EqDecision bug_type.
Proof. solve_decision. Defined.

Record bug : Set := mk_bug {
  b_type : bug_type;            (* bug['type'] *)
  b_line : Z;                   (* bug['line'] *)
  b_description : string;       (* bug['description'] *)
  b_original : option string;   (* bug['original'], scanner bugs only *)
  b_fix : string                (* bug['fix'] *)
}.

#[global] Instance bug_eq_dec : EqDecision bug.
Proof. solve_decision. Defined.

(** ** Rectification *)

Module Rectify.

(** [0 <= line_idx < len(lines)] *)
Definition in_range (line_idx : Z) (lines : list string) : bool :=
  (0 <=? line_idx) && (line_idx <? Z.of_nat (length lines)).

(** [rectify_bug(code, bug)]: the new text and the replaced line, or the
    text as it is and [None]. *)
Definition rectify_bug (code : string) (bug : bug) : string * option string :=
  let lines := split_lines code in
  let line_idx := b_line bug - 1 in
  if in_range line_idx lines then
    let original_line := default EmptyString (lines !! Z.to_nat line_idx) in
    let lines := <[Z.to_nat line_idx := b_fix bug]> lines in
    (join_lines lines, Some original_line)
  else (code, None).

(** [sorted(bugs, key=lambda x: x['line'], reverse=True)].  The builtin is
    a stable sort, and [reverse=True] keeps the original order of records
    with equal keys: an element is placed after every element with a
    larger line and before the elements with the same line that followed
    it in the input. *)
Fixpoint insert_desc (b : bug) (l : list bug) : list bug :=
  match l with
  | [] => [b]
  | x :: l' =>
      if b_line b <? b_line x then x :: insert_desc b l' else b :: x :: l'
  end.

Definition sorted_desc (bugs : list bug) : list bug :=
  foldr insert_desc [] bugs.

(** One turn of the loop of [apply_fixes]. *)
Definition apply_fix (lines : list string) (bug : bug) : list string :=
  let line_idx := b_line bug - 1 in
  if in_range line_idx lines then <[Z.to_nat line_idx := b_fix bug]> lines
  else lines.

(** [lines] when the loop of [apply_fixes] has ended. *)
Definition fixed_lines (code : string) (bugs : list bug) : list string :=
  let lines := split_lines code in
  let bugs_sorted := sorted_desc bugs in
  foldl apply_fix lines bugs_sorted.

(** [apply_fixes(code, bugs)] *)
Definition apply_fixes (code : string) (bugs : list bug) : string :=
  join_lines (fixed_lines code bugs).

End Rectify.

(** ** Exceptions *)

Inductive exn : Set :=
  | ValueError | IndexError | KeyError | RecursionError | MemoryError.

Inductive result (A : Type) : Type :=
  | Ok (a : A)
  | Raise (e : exn).
Arguments Ok {A} a.
Arguments Raise {A} e.

Definition bind {A B : Type} (x : result A) (f : A → result B) : result B :=
  match x with
  | Ok a => f a
  | Raise e => Raise e
  end.

Notation "x ← y ;;; z" := (bind y (λ x, z))
  (at level 20, y at level 100, z at level 200, only parsing).

(** A [for] loop whose body may raise: the first exception ends it. *)
Fixpoint for_each {A S : Type} (body : S → A → result S) (xs : list A) (s : S)
  : result S :=
  match xs with
  | [] => Ok s
  | x :: xs' => s' ← body s x;;; for_each body xs' s'
  end.

(** ** Regular expressions: the fragment of [re] the table uses *)

Module Re.

Inductive charset : Set :=
  | CsDot                       (* .   anything but a newline *)
  | CsSpace                     (* \s *)
  | CsWord                      (* \w *)
  | CsDigit                     (* \d *)
  | CsNoneOf (cs : list ascii). (* [^...] *)

Inductive regex : Set :=
  | Eps
  | Lit (c : ascii)
  | Set_ (cs : charset)
  | Cat (r1 r2 : regex)
  | Alt (r1 r2 : regex)                (* r1 or r2 *)
  | Star (greedy : bool) (r : regex)    (* r repeated, greedy or lazy *)
  | Group (i : nat) (r : regex)         (* the i-th parenthesis *)
  | NegLookahead (r : regex)            (* not followed by r *)
  | EndAnchor                           (* $ *)
  | Backref (i : nat).                  (* \i *)

(** One or more turns of r. *)
Definition Plus (greedy : bool) (r : regex) : regex := Cat r (Star greedy r).

(** The characters of a text, each as a literal. *)
Fixpoint lits (s : string) : list regex :=
  match s with
  | EmptyString => []
  | String c rest => Lit c :: lits rest
  end.

(** A sequence of items, as [re] reads a pattern from left to right. *)
Fixpoint Seq (rs : list regex) : regex :=
  match rs with
  | [] => Eps
  | [r] => r
  | r :: rs' => Cat r (Seq rs')
  end.

Definition between (lo hi n : N) : bool := ((lo <=? n) && (n <=? hi))%N.

(** Unicode white space below 256 ([str.isspace]). *)
Definition is_space (c : ascii) : bool :=
  let n := N_of_ascii c in
  between 9 13 n || between 28 32 n || (n =? 133)%N || (n =? 160)%N.

(** Unicode decimal digits below 256. *)
Definition is_digit (c : ascii) : bool := between 48 57 (N_of_ascii c).

(** Unicode word characters below 256: alphanumerics and the underscore. *)
Definition is_word (c : ascii) : bool :=
  let n := N_of_ascii c in
  between 48 57 n || between 65 90 n || (n =? 95)%N || between 97 122 n
  || (n =? 170)%N || between 178 179 n || (n =? 181)%N || between 185 186 n
  || between 188 190 n || between 192 214 n || between 216 246 n
  || between 248 255 n.

Definition in_charset (cs : charset) (c : ascii) : bool :=
  match cs with
  | CsDot => negb (Ascii.eqb c newline)
  | CsSpace => is_space c
  | CsWord => is_word c
  | CsDigit => is_digit c
  | CsNoneOf l => negb (existsb (Ascii.eqb c) l)
  end.

(** The text of the groups that have matched so far, latest first. *)
Definition captures : Set := list (nat * list ascii).

Fixpoint capture (i : nat) (c : captures) : option (list ascii) :=
  match c with
  | [] => None
  | (j, t) :: c' => if Nat.eqb i j then Some t else capture i c'
  end.

Fixpoint starts_with (t s : list ascii) : option (list ascii) :=
  match t, s with
  | [], _ => Some s
  | a :: t', b :: s' => if Ascii.eqb a b then starts_with t' s' else None
  | _ :: _, [] => None
  end.

(** Backtracking matcher: [m r s c k] matches [r] at the head of [s] and
    hands the rest of the input to the continuation [k]; alternatives are
    tried in the order of [re] (left branch first, a greedy repetition
    takes one more turn first, a lazy one leaves first).  A turn of a
    repetition has to consume input. *)
Fixpoint m (r : regex) (s : list ascii) (c : captures)
    (k : list ascii → captures → option captures) {struct r} : option captures :=
  match r with
  | Eps => k s c
  | Lit a =>
      match s with
      | x :: s' => if Ascii.eqb x a then k s' c else None
      | [] => None
      end
  | Set_ cs =>
      match s with
      | x :: s' => if in_charset cs x then k s' c else None
      | [] => None
      end
  | Cat r1 r2 => m r1 s c (λ s1 c1, m r2 s1 c1 k)
  | Alt r1 r2 =>
      match m r1 s c k with
      | Some c' => Some c'
      | None => m r2 s c k
      end
  | Star greedy r1 =>
      (fix turns (n : nat) (s : list ascii) (c : captures) {struct n}
         : option captures :=
         let again (_ : unit) :=
           match n with
           | O => None
           | S n' =>
               m r1 s c (λ s1 c1,
                 if (length s1 <? length s)%nat then turns n' s1 c1 else None)
           end in
         if greedy then
           match again () with
           | Some c' => Some c'
           | None => k s c
           end
         else
           match k s c with
           | Some c' => Some c'
           | None => again ()
           end) (length s) s c
  | Group i r1 =>
      m r1 s c (λ s1 c1,
        k s1 ((i, take (length s - length s1)%nat s) :: c1))
  | NegLookahead r1 =>
      match m r1 s c (λ _ c1, Some c1) with
      | Some _ => None
      | None => k s c
      end
  | EndAnchor =>
      match s with
      | [] => k s c
      | [x] => if Ascii.eqb x newline then k s c else None
      | _ => None
      end
  | Backref i =>
      match capture i c with
      | Some t =>
          match starts_with t s with
          | Some s' => k s' c
          | None => None
          end
      | None => None
      end
  end.

(** The number of groups of a pattern. *)
Fixpoint ngroups (r : regex) : nat :=
  match r with
  | Cat r1 r2 | Alt r1 r2 => (ngroups r1 + ngroups r2)%nat
  | Star _ r1 | NegLookahead r1 => ngroups r1
  | Group _ r1 => S (ngroups r1)
  | _ => O
  end.

(** [match.groups()]: one entry per group, [None] for a group that took
    no part in the match. *)
Definition groups (r : regex) (c : captures) : list (option string) :=
  (λ i, string_of_list_ascii <$> capture i c) <$> seq 1 (ngroups r).

(** [re.search(pattern, line)]: the leftmost position where the pattern
    matches; the result is [match.groups()].  No pattern of the table
    looks behind its start, so a match at a position depends on the rest
    of the line only. *)
Fixpoint search_from (r : regex) (s : list ascii) : option (list (option string)) :=
  match m r s [] (λ _ c, Some c) with
  | Some c => Some (groups r c)
  | None =>
      match s with
      | [] => None
      | _ :: s' => search_from r s'
      end
  end.

Definition search (pattern : regex) (line : string) : option (list (option string)) :=
  search_from pattern (list_ascii_of_string line).

(** *** Reading a pattern

    [re.compile] on the syntax of the table: literals, the classes [\s]
    [\w] [\d] and the dot, negated sets, groups, the negative lookahead,
    alternation, the star and the plus with their lazy forms, the end
    anchor, escaped punctuation and numbered back references.  Groups
    are numbered by their opening parenthesis. *)

Definition is_char (c : ascii) (cs : string) : bool :=
  existsb (Ascii.eqb c) (list_ascii_of_string cs).

(** The members of a set, up to the closing bracket. *)
Fixpoint parse_set (s : list ascii) : option (list ascii * list ascii) :=
  match s with
  | [] => None
  | c :: s' =>
      if is_char c "]" then Some ([], s')
      else '(cs, rest) ← parse_set s'; Some (c :: cs, rest)
  end.

(** An escape: a class, the newline, a back reference, or the character
    itself. *)
Definition parse_escape (c : ascii) : option regex :=
  if is_char c "s" then Some (Set_ CsSpace)
  else if is_char c "w" then Some (Set_ CsWord)
  else if is_char c "d" then Some (Set_ CsDigit)
  else if is_char c "n" then Some (Lit newline)
  else if is_char c "123456789" then
    Some (Backref (N.to_nat (N_of_ascii c - 48)))
  else if is_word c then None
  else Some (Lit c).

(** The repetition that follows an item, if any. *)
Definition parse_repeat (r : regex) (s : list ascii) : regex * list ascii :=
  match s with
  | q :: s1 =>
      if is_char q "*+" then
        let rep greedy := if is_char q "*" then Star greedy r else Plus greedy r in
        match s1 with
        | l :: s2 => if is_char l "?" then (rep false, s2) else (rep true, s1)
        | [] => (rep true, s1)
        end
      else (r, s)
  | [] => (r, s)
  end.

(** [g] is the number of the next group. *)
Fixpoint parse_alt (fuel : nat) (s : list ascii) (g : nat)
  : option (regex * list ascii * nat) :=
  match fuel with
  | O => None
  | S fuel' =>
      '(items, s1, g1) ← parse_items fuel' s g;
      match s1 with
      | c :: s2 =>
          if is_char c "|" then
            '(r2, s3, g2) ← parse_alt fuel' s2 g1;
            Some (Alt (Seq items) r2, s3, g2)
          else Some (Seq items, s1, g1)
      | [] => Some (Seq items, s1, g1)
      end
  end
with parse_items (fuel : nat) (s : list ascii) (g : nat)
  : option (list regex * list ascii * nat) :=
  match fuel with
  | O => None
  | S fuel' =>
      match s with
      | [] => Some ([], s, g)
      | c :: _ =>
          if is_char c "|)" then Some ([], s, g)
          else
            '(r, s1, g1) ← parse_atom fuel' s g;
            let '(r', s2) := parse_repeat r s1 in
            '(rs, s3, g2) ← parse_items fuel' s2 g1;
            Some (r' :: rs, s3, g2)
      end
  end
with parse_atom (fuel : nat) (s : list ascii) (g : nat)
  : option (regex * list ascii * nat) :=
  match fuel with
  | O => None
  | S fuel' =>
      match s with
      | [] => None
      | c :: s1 =>
          if is_char c "(" then
            match s1 with
            | q :: s2 =>
                if is_char q "?" then
                  match s2 with
                  | e :: s3 =>
                      if is_char e "!" then
                        '(r, s4, g1) ← parse_alt fuel' s3 g;
                        match s4 with
                        | d :: s5 =>
                            if is_char d ")" then Some (NegLookahead r, s5, g1)
                            else None
                        | [] => None
                        end
                      else None
                  | [] => None
                  end
                else
                  '(r, s4, g1) ← parse_alt fuel' s1 (S g);
                  match s4 with
                  | d :: s5 =>
                      if is_char d ")" then Some (Group g r, s5, g1) else None
                  | [] => None
                  end
            | [] => None
            end
          else if is_char c "[" then
            match s1 with
            | n :: s2 =>
                if is_char n "^" then
                  '(cs, s3) ← parse_set s2; Some (Set_ (CsNoneOf cs), s3, g)
                else None
            | [] => None
            end
          else if Ascii.eqb c "\" then
            match s1 with
            | e :: s2 => r ← parse_escape e; Some (r, s2, g)
            | [] => None
            end
          else if is_char c "." then Some (Set_ CsDot, s1, g)
          else if is_char c "$" then Some (EndAnchor, s1, g)
          else if is_char c "*+?{}^]" then None
          else Some (Lit c, s1, g)
      end
  end.

Definition compile (pattern : string) : option regex :=
  let s := list_ascii_of_string pattern in
  match parse_alt (4 * length s + 4) s 1 with
  | Some (r, [], _) => Some r
  | _ => None
  end.

End Re.

(** ** [str.format] with positional arguments *)

Module Format.

Definition lbrace : ascii := "{"%char.
Definition rbrace : ascii := "}"%char.

(** [str(arg)] of a group: the text, or [None] spelled out. *)
Definition str_of (arg : option string) : string :=
  match arg with
  | Some s => s
  | None => "None"
  end.

Definition digit_value (c : ascii) : option nat :=
  let n := N_of_ascii c in
  if Re.between 48 57 n then Some (N.to_nat (n - 48)%N) else None.

(** The index a replacement field names; the table only has numbered
    fields, any other field name is looked up as a keyword and fails. *)
Fixpoint field_index (acc : nat) (name : list ascii) : option nat :=
  match name with
  | [] => Some acc
  | c :: name' =>
      match digit_value c with
      | Some d => field_index (10 * acc + d)%nat name'
      | None => None
      end
  end.

Definition get_field (name : list ascii) (args : list (option string))
  : result string :=
  match name with
  | [] => Raise KeyError
  | _ =>
      match field_index 0 name with
      | Some i =>
          match args !! i with
          | Some arg => Ok (str_of arg)
          | None => Raise IndexError
          end
      | None => Raise KeyError
      end
  end.

(** One pass over the template.  [field] is [Some name] inside a
    replacement field, with the characters read so far in reverse.
    [{{] and [}}] are the escaped braces; a brace left alone is a
    [ValueError]. *)
Fixpoint format_from (template : list ascii) (field : option (list ascii))
    (args : list (option string)) {struct template} : result string :=
  match template with
  | [] =>
      match field with
      | None => Ok EmptyString
      | Some _ => Raise ValueError
      end
  | c :: rest =>
      match field with
      | Some name =>
          if Ascii.eqb c rbrace then
            arg ← get_field (rev name) args;;;
            out ← format_from rest None args;;;
            Ok (arg ++ out)
          else format_from rest (Some (c :: name)) args
      | None =>
          if Ascii.eqb c lbrace then
            match rest with
            | c' :: rest' =>
                if Ascii.eqb c' lbrace then
                  out ← format_from rest' None args;;; Ok (String lbrace out)
                else format_from rest (Some []) args
            | [] => Raise ValueError
            end
          else if Ascii.eqb c rbrace then
            match rest with
            | c' :: rest' =>
                if Ascii.eqb c' rbrace then
                  out ← format_from rest' None args;;; Ok (String rbrace out)
                else Raise ValueError
            | [] => Raise ValueError
            end
          else
            out ← format_from rest None args;;; Ok (String c out)
      end
  end.

(** [template.format] of the groups *)
Definition format (template : string) (args : list (option string)) : result string :=
  format_from (list_ascii_of_string template) None args.

End Format.

(** ** The pattern table of [CodeAnalyzer.__init__] *)

Record rule : Set := mk_rule {
  r_pattern : Re.regex;
  r_bug_type : bug_type;
  r_description : string;
  r_fix_template : string
}.

Module Catalog.
Import Re.

Definition dq : ascii := "034"%char.

Definition sp0 : regex := Star true (Set_ CsSpace).      (* zero or more \s *)
Definition sp1 : regex := Plus true (Set_ CsSpace).      (* one or more \s *)
Definition w1 : regex := Plus true (Set_ CsWord).        (* one or more \w *)
(* no colon ahead, after any white space *)
Definition no_colon : regex := NegLookahead (Seq [sp0; Lit ":"]).

(* the pattern of line 17 *)
Definition py_for : regex :=
  Seq (lits "for" ++ [sp1; Group 1 w1; sp1] ++ lits "in"
       ++ [sp1; Group 2 w1; no_colon]).
(* the pattern of line 18 *)
Definition py_if : regex :=
  Seq (lits "if" ++ [sp1; Group 1 (Plus false (Set_ CsDot)); no_colon; EndAnchor]).
(* the pattern of line 19 *)
Definition py_else : regex := Seq (lits "else" ++ [no_colon]).
(* the pattern of line 20 *)
Definition py_div_len : regex :=
  Seq ([Group 1 w1; sp0; Lit "="; sp0; Group 2 w1; sp0; Lit "/"; sp0]
       ++ lits "len(" ++ [Group 3 w1; Lit ")"]).
(* the pattern of line 21 *)
Definition py_div : regex :=
  Seq [Group 1 w1; sp0; Lit "="; sp0; Group 2 (Plus true (Set_ CsDigit)); sp0;
       Lit "/"; sp0; Group 3 w1].
(* the pattern of line 22 *)
Definition py_str_eq : regex :=
  Seq ([Group 1 w1; sp0] ++ lits "==" ++
       [sp0; Lit dq; Group 2 (Star true (Set_ (CsNoneOf [dq]))); Lit dq]).
(* the pattern of line 23 *)
Definition py_print : regex :=
  Seq (lits "print" ++
       [sp0; Lit "("; sp0;
        Group 1 (Star true (Set_ (CsNoneOf [","; ")"]%char))); sp0; Lit ")"]).
(* the pattern of line 24 *)
Definition py_while : regex :=
  Seq (lits "while" ++
       [sp1; Group 1 (Plus false (Set_ CsDot)); no_colon; EndAnchor]).
(* the pattern of line 25 *)
Definition py_def : regex :=
  Seq (lits "def" ++
       [sp1; Group 1 w1; sp0; Lit "(";
        Group 2 (Star true (Set_ (CsNoneOf [")"%char]))); Lit ")"; no_colon]).
(* the pattern of line 26 *)
Definition py_except : regex :=
  Seq (lits "except" ++ [NegLookahead (Alt (Seq [sp1; w1; Lit ":"]) (Lit ":"))]).
(* the pattern of line 27 *)
Definition py_aug_return : regex :=
  Seq ([Group 1 w1; sp0] ++ lits "+=" ++ [sp0; Group 2 w1; sp0; Lit newline; sp0]
       ++ lits "return" ++ [sp1; Backref 1]).
(* the pattern of lines 31 and 40 *)
Definition brace_if : regex :=
  Seq (lits "if" ++
       [sp0; Lit "("; Plus true (Set_ CsDot); Lit ")"; sp0;
        Group 1 (Set_ (CsNoneOf ["{"%char]))]).
(* the pattern of lines 32 and 36 *)
Definition brace_for : regex :=
  Seq (lits "for" ++
       [sp0; Lit "("; Plus true (Set_ CsDot); Lit ")"; sp0;
        Group 1 (Set_ (CsNoneOf ["{"%char]))]).
(* the pattern of line 41 *)
Definition js_var : regex := Seq (lits "var" ++ [sp1; Group 1 w1]).

Definition python_rules : list rule := [
  mk_rule py_for SyntaxError "Missing colon after for loop" "for {0} in {1}:";
  mk_rule py_if SyntaxError "Missing colon after if condition" "if {0}:";
  mk_rule py_else SyntaxError "Missing colon after else" "else:";
  mk_rule py_div_len LogicError "Potential division by zero"
    "{0} = {1} / len({2}) if len({2}) > 0 else 0";
  mk_rule py_div LogicError "Potential division by zero"
    "{0} = {1} / {2} if {2} != 0 else 0";
  mk_rule py_str_eq StyleWarning "String comparison could use single quotes"
    "{0} == '{1}'";
  mk_rule py_print DeprecationWarning "Consider using f-strings for cleaner output"
    ("print(f" ++ String dq "{{{0}}}" ++ String dq ")");
  mk_rule py_while SyntaxError "Missing colon after while condition" "while {0}:";
  mk_rule py_def SyntaxError "Missing colon after function definition"
    "def {0}({1}):";
  mk_rule py_except SyntaxError "Invalid except clause" "except Exception:";
  mk_rule py_aug_return LogicWarning "Assignment before return without effect"
    "return {0} + {1}"
].

Definition java_rules : list rule := [
  mk_rule brace_if SyntaxError "Missing braces in if statement" "if (...) {";
  mk_rule brace_for SyntaxError "Missing braces in for loop" "for (...) {"
].

Definition cpp_rules : list rule := [
  mk_rule brace_for SyntaxError "Missing braces in for loop" "for (...) {"
].

Definition javascript_rules : list rule := [
  mk_rule brace_if SyntaxError "Missing braces in if statement" "if (...) {";
  mk_rule js_var StyleWarning "Using var instead of let/const" "const {0}"
].

(** [self.bug_patterns] *)
Definition bug_patterns : gmap string (list rule) :=
  <["Python" := python_rules]>
    (<["Java" := java_rules]>
      (<["C++" := cpp_rules]>
        (<["JavaScript" := javascript_rules]> ∅))).

End Catalog.

(** ** The syntax trees of [ast] *)

Module Ast.

Inductive expr_context : Set := Load | Store | Del.

(** The node classes the checker tells apart; every other class is an
    [OtherNode] with its child nodes in field order. *)
Inductive node : Set :=
  | Assign (lineno : Z) (targets : list node) (value : node)
  | Name (id : string) (ctx : expr_context)
  | ExceptHandler (lineno : Z) (type : option node) (body : list node)
  | OtherNode (cls : string) (children : list node).

(** What [ast.parse(code)] does: it returns a tree, or raises a
    [SyntaxError] [e] (or one of its subclasses) with [e.lineno] and
    [str(e)], or raises another exception: [ValueError] for a text with a
    null character, [RecursionError] or [MemoryError] for a text that is
    nested too deep. *)
Inductive parse_outcome : Set :=
  | Parsed (tree : node)
  | RaisesSyntaxError (lineno : option Z) (str_e : string)
  | Raises (e : exn).

(** The node that [ast] has for a context: [Load()], [Store()], [Del()]. *)
Definition context_node (ctx : expr_context) : node :=
  OtherNode match ctx with
            | Load => "Load"
            | Store => "Store"
            | Del => "Del"
            end [].

(** [ast.iter_child_nodes]: the child nodes in field order. *)
Definition iter_child_nodes (n : node) : list node :=
  match n with
  | Assign _ targets value => targets ++ [value]
  | Name _ ctx => [context_node ctx]
  | ExceptHandler _ type body => option_list type ++ body
  | OtherNode _ children => children
  end.

(** All the nodes of a tree, the root first. *)
Fixpoint subtrees (n : node) : list node :=
  n :: match n with
       | Assign _ targets value => flat_map subtrees targets ++ subtrees value
       | Name _ ctx => [context_node ctx]
       | ExceptHandler _ type body =>
           match type with
           | Some t => subtrees t
           | None => []
           end ++ flat_map subtrees body
       | OtherNode _ children => flat_map subtrees children
       end.

(** [ast.walk]: breadth first, with a queue; a tree with [k] nodes takes
    [k] turns. *)
Fixpoint walk_queue (turns : nat) (todo : list node) : list node :=
  match turns, todo with
  | S turns', n :: todo' => n :: walk_queue turns' (todo' ++ iter_child_nodes n)
  | _, _ => []
  end.

Definition walk (tree : node) : list node :=
  walk_queue (length (subtrees tree)) [tree].

(** [type(n).__name__] *)
Definition class_name (n : node) : string :=
  match n with
  | Assign _ _ _ => "Assign"
  | Name _ _ => "Name"
  | ExceptHandler _ _ _ => "ExceptHandler"
  | OtherNode cls _ => cls
  end.

End Ast.

(** ** The analyzer *)

Record analysis : Set := mk_analysis {
  bug_count : Z;        (* ['bug_count'] *)
  bugs : list bug       (* ['bugs'] *)
}.

(** [enumerate(lines, start)] *)
Fixpoint enumerate {A : Type} (start : Z) (xs : list A) : list (Z * A) :=
  match xs with
  | [] => []
  | x :: xs' => (start, x) :: enumerate (start + 1) xs'
  end.

(** [fix_template.format( *groups ) if groups else fix_template] *)
Definition render (fix_template : string) (groups : list (option string))
  : result string :=
  match groups with
  | [] => Ok fix_template
  | _ => Format.format fix_template groups
  end.

Section Analyzer.
Import Ast.

(** [ast.parse] *)
Variable ast_parse : string → parse_outcome.

(** [e.lineno or 0] *)
Definition lineno_or_0 (lineno : option Z) : Z :=
  match lineno with
  | Some n => if n =? 0 then 0 else n
  | None => 0
  end.

(** The first loop of [python_ast_check]: the assigned names and the
    names that are read. *)
Definition collect_vars (vars : gset string * gset string) (n : node)
  : gset string * gset string :=
  let '(defined_vars, used_vars) := vars in
  match n with
  | Assign _ targets _ =>
      (foldl (λ defined target,
                match target with
                | Name id _ => defined ∪ {[ id ]}
                | _ => defined
                end) defined_vars targets,
       used_vars)
  | Name id Load => (defined_vars, used_vars ∪ {[ id ]})
  | _ => vars
  end.

Definition unused_variable_bug (line_num : Z) (var : string) : bug :=
  {| b_type := StyleWarning;
     b_line := line_num;
     b_description := "Unused variable '" ++ var ++ "'";
     b_original := None;
     b_fix := "# Remove or use the variable '" ++ var ++ "'" |}.

(** The body of [for var in unused], for one node of the second walk. *)
Definition report_unused (var : string) (bugs : list bug) (n : node) : list bug :=
  match n with
  | Assign line_num targets _ =>
      foldl (λ bugs target,
               match target with
               | Name id _ =>
                   if decide (id = var)
                   then (bugs ++ [unused_variable_bug line_num var])%list
                   else bugs
               | _ => bugs
               end) bugs targets
  | _ => bugs
  end.

Definition bare_except_bug (lineno : Z) : bug :=
  {| b_type := LogicWarning;
     b_line := lineno;
     b_description := "Bare except clause";
     b_original := None;
     b_fix := "except Exception as e:" |}.

Definition report_bare_except (bugs : list bug) (n : node) : list bug :=
  match n with
  | ExceptHandler lineno None _ => (bugs ++ [bare_except_bug lineno])%list
  | _ => bugs
  end.

Definition syntax_error_bug (lineno : option Z) (str_e : string) : bug :=
  {| b_type := SyntaxError;
     b_line := lineno_or_0 lineno;
     b_description := str_e;
     b_original := None;
     b_fix := "# Fix the syntax error: " ++ str_e |}.

(** [python_ast_check(code)].  A Python set is a [gset]; the order in
    which [for var in unused] visits it is the order of [elements].  The
    [except] clause names [SyntaxError]: any other exception of the parser
    leaves the function. *)
Definition python_ast_check (code : string) : result (list bug) :=
  let bugs := [] in
  match ast_parse code with
  | Parsed tree =>
      let '(defined_vars, used_vars) := foldl collect_vars (∅, ∅) (walk tree) in
      let unused := defined_vars ∖ used_vars in
      let bugs :=
        foldl (λ bugs var, foldl (report_unused var) bugs (walk tree))
          bugs (elements unused) in
      let bugs := foldl report_bare_except bugs (walk tree) in
      Ok bugs
  | RaisesSyntaxError lineno str_e =>
      Ok (bugs ++ [syntax_error_bug lineno str_e])%list
  | Raises e => Raise e
  end.

(** [self.ast_checkers] *)
Definition ast_checkers : gmap string (string → result (list bug)) :=
  {[ "Python" := python_ast_check ]}.

(** The body of the inner loop of [detect_bugs]: one rule on one line. *)
Definition scan_rule (i : Z) (line : string) (results : list bug) (r : rule)
  : result (list bug) :=
  match Re.search (r_pattern r) line with
  | Some groups =>
      let original_line := line in
      fix_ ← render (r_fix_template r) groups;;;
      Ok (results ++ [{| b_type := r_bug_type r;
                         b_line := i;
                         b_description := r_description r;
                         b_original := Some original_line;
                         b_fix := fix_ |}])%list
  | None => Ok results
  end.

(** The two nested loops of [detect_bugs]. *)
Definition scan (lines : list string) (rules : list rule) : result (list bug) :=
  for_each (λ results '(i, line), for_each (scan_rule i line) rules results)
    (enumerate 1 lines) [].

(** [detect_bugs(code, language)] *)
Definition detect_bugs (code language : string) : result analysis :=
  let lines := split_lines code in
  results ← scan lines (default [] (Catalog.bug_patterns !! language));;;
  results ← match ast_checkers !! language with
            | Some checker =>
                ast_bugs ← checker code;;; Ok (results ++ ast_bugs)%list
            | None => Ok results
            end;;;
  Ok {| bug_count := Z.of_nat (length results); bugs := results |}.

End Analyzer.

(** ** Notions the statements use *)

(** The bugs of a list that name line [k], in the order of the list. *)
Definition on_line (k : Z) (bugs : list bug) : list bug :=
  filter (λ b, b_line b = k) bugs.

(** Descending order of the lines. *)
Definition line_ge (x y : bug) : Prop := b_line y ≤ b_line x.

(** A line, a rule that matches it, and the groups of the match. *)
Record hit : Set := mk_hit {
  h_line_no : Z;
  h_text : string;
  h_rule : rule;
  h_groups : list (option string)
}.

(** The hits of the scanner as the specification lists them: line after
    line, and on one line rule after rule in the order of the table,
    every rule that matches. *)
Definition hits_on (rules : list rule) (il : Z * string) : list hit :=
  omap (λ r, mk_hit il.1 il.2 r <$> Re.search (r_pattern r) il.2) rules.

Definition hits (lines : list string) (rules : list rule) : list hit :=
  flat_map (hits_on rules) (enumerate 1 lines).

(** The bug of a hit: the template with the groups put in, the line as
    it is. *)
Definition bug_of_hit (h : hit) : result bug :=
  fix_ ← render (r_fix_template (h_rule h)) (h_groups h);;;
  Ok {| b_type := r_bug_type (h_rule h);
        b_line := h_line_no h;
        b_description := r_description (h_rule h);
        b_original := Some (h_text h);
        b_fix := fix_ |}.

(** All the results, or the first exception. *)
Fixpoint collect {A : Type} (xs : list (result A)) : result (list A) :=
  match xs with
  | [] => Ok []
  | x :: xs' => a ← x;;; as_ ← collect xs';;; Ok (a :: as_)
  end.

(** The call returns. *)
Definition succeeds {A : Type} (x : result A) : Prop := ∃ a, x = Ok a.

(** Every template of the list can be filled with the groups of its
    pattern. *)
Definition well_formed (rules : list rule) : Prop :=
  ∀ r gs, r ∈ rules → length gs = Re.ngroups (r_pattern r) →
    succeeds (render (r_fix_template r) gs).

(** The bugs of the structural checker of a language, none for a
    language without one. *)
Definition checker_bugs (ast_parse : string → Ast.parse_outcome)
    (language code : string) : result (list bug) :=
  match ast_checkers ast_parse !! language with
  | Some checker => checker code
  | None => Ok []
  end.

(** The assignment sites of the amended claim C7: a site of [var] is a
    target of an assignment statement that is the name [var] itself.
    [assigned_at] gives the lines of the sites of [var] in one statement,
    one for each such target. *)
Definition assigned_at (var : string) (n : Ast.node) : list Z :=
  match n with
  | Ast.Assign lineno targets _ =>
      flat_map (λ target,
                  match target with
                  | Ast.Name id _ => if decide (id = var) then [lineno] else []
                  | _ => []
                  end) targets
  | _ => []
  end.






(** The bug is the unused-variable report for [var], at some line. *)
Definition reports_unused (var : string) (b : bug) : Prop :=
  b = unused_variable_bug (b_line b) var.

#[global] Instance reports_unused_dec var b : Decision (reports_unused var b).
Proof. unfold reports_unused. apply _. Defined.

(** The unused-variable reports for one name, over a list of nodes. *)
Definition unused_block (nodes : list Ast.node) (var : string) : list bug :=
  flat_map (λ n, (λ ln, unused_variable_bug ln var) <$> assigned_at var n) nodes.

Definition bare_excepts (nodes : list Ast.node) : list bug :=
  flat_map (λ n, match n with
                 | Ast.ExceptHandler lineno None _ => [bare_except_bug lineno]
                 | _ => []
                 end) nodes.

(** The names of the second loop: assigned and never loaded. *)
Definition unused_vars (tree : Ast.node) : gset string :=
  let vars := foldl collect_vars (∅, ∅) (Ast.walk tree) in vars.1 ∖ vars.2.

(** Rule [r] has fixed line [i] of the text: it matches the line, and
    the fix it renders no longer matches its own pattern. *)
Definition fixed_by (r : rule) (i : Z) (code : string) : Prop :=
  ∃ line groups fix_,
    1 ≤ i
    ∧ split_lines code !! Z.to_nat (i - 1) = Some line
    ∧ Re.search (r_pattern r) line = Some groups
    ∧ render (r_fix_template r) groups = Ok fix_
    ∧ Re.search (r_pattern r) fix_ = None.

(** Idempotence under full rectification, as the specification words
    it: after all the fixes, the analysis reports no bug with the line and
    the type of a rule that has fixed that line. *)
Definition no_rereport (ast_parse : string → Ast.parse_outcome)
    (code language : string) : Prop :=
  ∀ res res' r i,
    detect_bugs ast_parse code language = Ok res →
    detect_bugs ast_parse (Rectify.apply_fixes code (bugs res)) language = Ok res' →
    r ∈ default [] (Catalog.bug_patterns !! language) →
    fixed_by r i code →
    ¬ ∃ b, b ∈ bugs res' ∧ b_line b = i ∧ b_type b = r_bug_type r.

(** ** The documents of the scenarios, with the trees [ast.parse] makes of
    them *)

Module Scenario.
Import Ast.

Definition quoted (s : string) : string :=
  String Catalog.dq s ++ String Catalog.dq "".

(** A loop without its colon. *)
Definition for_loop : string := join_lines ["for i in range(5)"; "  print(i)"].

Definition for_loop_bug (fix_ : string) : bug :=
  mk_bug SyntaxError 1 "Missing colon after for loop"
    (Some "for i in range(5)") fix_.

Definition print_bug : bug :=
  mk_bug DeprecationWarning 2 "Consider using f-strings for cleaner output"
    (Some "  print(i)") ("print(f" ++ quoted "{i}" ++ ")").

(** A division by a name. *)
Definition division : string := "x = 10 / y".

Definition division_tree : node :=
  OtherNode "Module"
    [Assign 1 [Name "x" Store]
       (OtherNode "BinOp"
          [OtherNode "Constant" []; OtherNode "Div" []; Name "y" Load])].

Definition division_bug : bug :=
  mk_bug LogicError 1 "Potential division by zero"
    (Some "x = 10 / y") "x = 10 / y if y != 0 else 0".

(** A name that is assigned and never read. *)
Definition unused : string := "unused = 5".


(** Three fixes, two of them for line 2. *)
Definition five_lines : string := join_lines ["a"; "b"; "c"; "d"; "e"].

Definition three_fixes : list bug :=
  [mk_bug StyleWarning 2 "first" None "B1";
   mk_bug StyleWarning 5 "second" None "E1";
   mk_bug StyleWarning 2 "third" None "B2"].

(** A conditional expression: its [else] has no colon. *)
Definition conditional : string := join_lines ["x = 1 if c else 2"; "print(x)"].

Definition conditional_tree : node :=
  OtherNode "Module"
    [Assign 1 [Name "x" Store]
       (OtherNode "IfExp"
          [Name "c" Load; OtherNode "Constant" []; OtherNode "Constant" []]);
     OtherNode "Expr"
       [OtherNode "Call" [Name "print" Load; Name "x" Load]]].

Definition else_rule : rule :=
  mk_rule Catalog.py_else SyntaxError "Missing colon after else" "else:".

Definition else_bug : bug :=
  mk_bug SyntaxError 1 "Missing colon after else" (Some "x = 1 if c else 2") "else:".

Definition conditional_bugs : list bug :=
  [mk_bug SyntaxError 1 "Missing colon after if condition"
     (Some "x = 1 if c else 2") "if c else 2:";
   else_bug;
   mk_bug DeprecationWarning 2 "Consider using f-strings for cleaner output"
     (Some "print(x)") ("print(f" ++ quoted "{x}" ++ ")")].

(** The same text after [apply_fixes]; it no longer parses. *)
Definition conditional_fixed : string :=
  join_lines ["else:"; "print(f" ++ quoted "{x}" ++ ")"].

(** [ast.parse] on the two texts: the tree for the first and a
    [SyntaxError] at line 1 for the second (as for any text but the
    first). *)
Definition conditional_parse (code : string) : parse_outcome :=
  if String.eqb code conditional then Parsed conditional_tree
  else RaisesSyntaxError (Some 1) "invalid syntax (<unknown>, line 1)".

(** A statement of Java without braces. *)
Definition java_if : string := "if (x) y;".

Definition java_if_rule : rule :=
  mk_rule Catalog.brace_if SyntaxError "Missing braces in if statement" "if (...) {".



(** A text that is nested too deep for the parser, five thousand minus
    signs before a digit: [ast.parse] raises [RecursionError]. *)
Definition minus_chain : string :=
  string_of_list_ascii (replicate (Z.to_nat 5000) "-"%char) ++ "1".

End Scenario.

(** * The window

    The class [BugDetectionApp]: the attributes of the window, the widgets
    its methods configure, the files they read and write and the message
    boxes they show are the fields of one record, and a method is a
    function on this record that returns or raises.

    - A button is the [bool] that tells whether its state is [tk.NORMAL];
      a label or a text widget is the text it shows.  Three widgets that
      are written and never read are left out: the results pane, whose
      text has characters above 255, the progress bar with its label,
      and the file label.
    - The file system is a finite map from the name of a file to its
      text; [open(name, 'w')] always succeeds, and [shutil.copy2] fails
      only for a source that does not exist.
    - [messagebox.showerror] and [messagebox.showinfo] add a box to a
      list.
    - [threading.Thread(...).start()] is counted.  The thread is a
      function of its own, from the window it finds to the window it
      leaves and the calls it hands to the main loop; how it runs beside
      the clicks is not part of the model.
    - A text file is read and written as on a system whose line ending
      is the line feed.
    - [os.path.basename] and the text [str(e)] of an exception are
      parameters. *)

Module App.

(** The exceptions the methods can meet: those of the analyzer and of a
    list index, the one of [None + '.bak'], of [None.split], of a file
    that does not exist, and of a name that has been deleted. *)
Inductive error : Set :=
  | Builtin (e : exn)
  | TypeError
  | AttributeError
  | FileNotFoundError
  | NameError.

Inductive outcome (A : Type) : Type :=
  | Returns (a : A)
  | Throws (e : error).
Arguments Returns {A} a.
Arguments Throws {A} e.

Inductive box_kind : Set := showerror | showinfo.

Record box : Set := mk_box {
  kind : box_kind;
  title : string;
  message : string
}.

(** The widgets of the frame "Quick Bug Fix". *)
Record navigation : Set := mk_navigation {
  prev_bug_button : bool;
  next_bug_button : bool;
  rectify_button : bool;
  bug_counter_label : string;
  bug_line_label : string;
  bug_type_label : string;
  original_code_text : string;
  fixed_code_text : string
}.

#[global] Instance navigation_eq_dec : EqDecision navigation.
Proof. solve_decision. Defined.

Record window : Type := mk_window {
  filename : option string;            (* self.filename *)
  code_content : option string;        (* self.code_content *)
  detected_bugs : option (list bug);   (* self.detected_bugs *)
  current_bug_index : option Z;        (* self.current_bug_index *)
  is_processing : bool;                (* self.is_processing *)
  detect_button : bool;
  fix_all_button : bool;
  status_bar : string;
  quick_fix : navigation;
  files : gmap string string;
  boxes : list box;
  threads : nat
}.

Definition set_filename (v : option string) (w : window) : window :=
  mk_window v (code_content w) (detected_bugs w) (current_bug_index w)
    (is_processing w) (detect_button w) (fix_all_button w) (status_bar w)
    (quick_fix w) (files w) (boxes w) (threads w).

Definition set_code_content (v : option string) (w : window) : window :=
  mk_window (filename w) v (detected_bugs w) (current_bug_index w)
    (is_processing w) (detect_button w) (fix_all_button w) (status_bar w)
    (quick_fix w) (files w) (boxes w) (threads w).

Definition set_detected_bugs (v : option (list bug)) (w : window) : window :=
  mk_window (filename w) (code_content w) v (current_bug_index w)
    (is_processing w) (detect_button w) (fix_all_button w) (status_bar w)
    (quick_fix w) (files w) (boxes w) (threads w).

Definition set_current_bug_index (v : option Z) (w : window) : window :=
  mk_window (filename w) (code_content w) (detected_bugs w) v
    (is_processing w) (detect_button w) (fix_all_button w) (status_bar w)
    (quick_fix w) (files w) (boxes w) (threads w).

Definition set_is_processing (v : bool) (w : window) : window :=
  mk_window (filename w) (code_content w) (detected_bugs w)
    (current_bug_index w) v (detect_button w) (fix_all_button w)
    (status_bar w) (quick_fix w) (files w) (boxes w) (threads w).

Definition set_detect_button (v : bool) (w : window) : window :=
  mk_window (filename w) (code_content w) (detected_bugs w)
    (current_bug_index w) (is_processing w) v (fix_all_button w)
    (status_bar w) (quick_fix w) (files w) (boxes w) (threads w).

Definition set_fix_all_button (v : bool) (w : window) : window :=
  mk_window (filename w) (code_content w) (detected_bugs w)
    (current_bug_index w) (is_processing w) (detect_button w) v
    (status_bar w) (quick_fix w) (files w) (boxes w) (threads w).

Definition set_status_bar (v : string) (w : window) : window :=
  mk_window (filename w) (code_content w) (detected_bugs w)
    (current_bug_index w) (is_processing w) (detect_button w)
    (fix_all_button w) v (quick_fix w) (files w) (boxes w) (threads w).

Definition set_quick_fix (v : navigation) (w : window) : window :=
  mk_window (filename w) (code_content w) (detected_bugs w)
    (current_bug_index w) (is_processing w) (detect_button w)
    (fix_all_button w) (status_bar w) v (files w) (boxes w) (threads w).

Definition set_files (v : gmap string string) (w : window) : window :=
  mk_window (filename w) (code_content w) (detected_bugs w)
    (current_bug_index w) (is_processing w) (detect_button w)
    (fix_all_button w) (status_bar w) (quick_fix w) v (boxes w) (threads w).

(** [messagebox.showerror(title, message)], [messagebox.showinfo(...)] *)
Definition show (k : box_kind) (title message : string) (w : window) : window :=
  mk_window (filename w) (code_content w) (detected_bugs w)
    (current_bug_index w) (is_processing w) (detect_button w)
    (fix_all_button w) (status_bar w) (quick_fix w) (files w)
    (boxes w ++ [mk_box k title message])%list (threads w).

(** [thread.start()] *)
Definition start_thread (w : window) : window :=
  mk_window (filename w) (code_content w) (detected_bugs w)
    (current_bug_index w) (is_processing w) (detect_button w)
    (fix_all_button w) (status_bar w) (quick_fix w) (files w) (boxes w)
    (S (threads w)).

(** The window when [__init__] has returned. *)
Definition blank : navigation :=
  mk_navigation false false false "Bug 0 of 0" "N/A" "N/A" "" "".

Definition init (fs : gmap string string) : window :=
  mk_window None None None None false false false "Ready" blank fs [] 0.

(** A method: it changes the window, and returns or raises. *)
Definition method (A : Type) : Type := window → window * outcome A.

Definition ret {A : Type} (a : A) : method A := λ w, (w, Returns a).

Definition throw {A : Type} (e : error) : method A := λ w, (w, Throws e).

Definition bind {A B : Type} (m : method A) (k : A → method B) : method B :=
  λ w, match m w with
       | (w', Returns a) => k a w'
       | (w', Throws e) => (w', Throws e)
       end.

(** An assignment or a call that cannot raise. *)
Definition update (f : window → window) : method unit :=
  λ w, (f w, Returns tt).

(** [try: body except Exception as e: handler] *)
Definition try_except (body : method unit) (handler : error → method unit) :
    method unit :=
  λ w, match body w with
       | (w', Returns a) => (w', Returns a)
       | (w', Throws e) => handler e w'
       end.

Notation "'let*' x := m 'in' k" := (bind m (λ x, k))
  (at level 10, x name, m at level 100, k at level 200, only parsing).
Notation "m ;; k" := (bind m (λ _, k))
  (at level 100, k at level 200, right associativity, only parsing).

(** [not s] for a text or [None], [not l] for a list or [None]. *)
Definition truthy_str (s : option string) : bool :=
  match s with
  | Some (String _ _) => true
  | _ => false
  end.

Definition truthy_list {A : Type} (l : option (list A)) : bool :=
  match l with
  | Some (_ :: _) => true
  | _ => false
  end.

(** The position that the index [i] of Python names in [l]: a negative
    index counts from the end. *)
Definition position {A : Type} (l : list A) (i : Z) : option nat :=
  let n := Z.of_nat (length l) in
  if (0 <=? i) && (i <? n) then Some (Z.to_nat i)
  else if (- n <=? i) && (i <? 0) then Some (Z.to_nat (n + i))
  else None.

(** [l[i]] *)
Definition item {A : Type} (l : list A) (i : Z) : method A :=
  match position l i ≫= λ k, l !! k with
  | Some x => ret x
  | None => throw (Builtin IndexError)
  end.

(** [l.pop(i)], the list that is left *)
Definition pop {A : Type} (l : list A) (i : Z) : method (list A) :=
  match position l i with
  | Some k => ret (delete k l)
  | None => throw (Builtin IndexError)
  end.

(** [bug['type']] *)
Definition type_name (t : bug_type) : string :=
  match t with
  | SyntaxError => "SyntaxError"
  | LogicError => "LogicError"
  | LogicWarning => "LogicWarning"
  | StyleWarning => "StyleWarning"
  | DeprecationWarning => "DeprecationWarning"
  end.

(** What [file.read()] returns for a file opened in text mode: the three
    line endings are read as a line feed. *)
Definition carriage_return : ascii := "013"%char.

Fixpoint universal_newlines (text : string) : string :=
  match text with
  | EmptyString => EmptyString
  | String c rest =>
      if Ascii.eqb c carriage_return then
        match rest with
        | String c' rest' =>
            if Ascii.eqb c' newline
            then String newline (universal_newlines rest')
            else String newline (universal_newlines rest)
        | EmptyString => String newline EmptyString
        end
      else String c (universal_newlines rest)
  end.

(** The calls that the thread leaves to the main loop with [root.after]. *)
Inductive callback : Set :=
  | analyzing                        (* the label of the progress bar *)
  | display (results : analysis)     (* self.display_results(results) *)
  | analysis_error (e : error)       (* the box with [str(e)] *)
  | reset.                           (* self.reset_ui *)

(** The buttons with a command; a click on the first one comes with the
    name that [filedialog.askopenfilename] returns, the empty text when
    the dialog is cancelled. *)
Inductive button : Set :=
  | Select_Code_File (chosen : string)
  | Detect_Bugs | Fix_All_Bugs
  | Previous_Bug | Next_Bug | Rectify_Now.

Section Methods.

Variable basename : string → string.   (* os.path.basename *)
Variable str : error → string.         (* str(e) *)
Variable ast_parse : string → Ast.parse_outcome.

Definition reset_bug_navigation (w : window) : window :=
  set_quick_fix blank (set_current_bug_index None w).

Definition update_bug_navigation : method unit := λ w,
  match detected_bugs w, current_bug_index w with
  | Some (b0 :: bs), Some i =>
      let bugs := b0 :: bs in
      let total_bugs := Z.of_nat (length bugs) in
      let nav := quick_fix w in
      let nav :=
        mk_navigation (0 <? i) (i <? total_bugs - 1) (rectify_button nav)
          ("Bug " ++ pretty (i + 1) ++ " of " ++ pretty total_bugs)
          (bug_line_label nav) (bug_type_label nav)
          (original_code_text nav) (fixed_code_text nav) in
      (let* bug := item bugs i in
       update (set_quick_fix
         (mk_navigation (prev_bug_button nav) (next_bug_button nav) true
            (bug_counter_label nav)
            (pretty (b_line bug)) (type_name (b_type bug))
            (default "Original code not available" (b_original bug))
            (b_fix bug))))
      (set_quick_fix nav w)
  | _, _ => (w, Returns tt)
  end.

Definition previous_bug : method unit := λ w,
  match current_bug_index w with
  | Some i =>
      if 0 <? i then update_bug_navigation (set_current_bug_index (Some (i - 1)) w)
      else (w, Returns tt)
  | None => (w, Returns tt)
  end.

Definition next_bug : method unit := λ w,
  match current_bug_index w, detected_bugs w with
  | Some i, Some (b0 :: bs) =>
      if i <? Z.of_nat (length (b0 :: bs)) - 1
      then update_bug_navigation (set_current_bug_index (Some (i + 1)) w)
      else (w, Returns tt)
  | _, _ => (w, Returns tt)
  end.

Definition start_detection (w : window) : window :=
  if truthy_str (filename w) then
    let w := set_detect_button false w in
    let w := set_status_bar "Processing..." w in
    let w := reset_bug_navigation w in
    let w := set_is_processing true w in
    start_thread w
  else show showerror "Error" "Please select a file first" w.

Definition display_results (results : analysis) : method unit := λ w,
  if bug_count results =? 0 then (set_fix_all_button false w, Returns tt)
  else
    let w := set_fix_all_button true w in
    if truthy_list (detected_bugs w)
    then update_bug_navigation (set_current_bug_index (Some 0) w)
    else (w, Returns tt).

(** [self.filename + '.bak'] *)
Definition backup_name : method string := λ w,
  match filename w with
  | Some name => (w, Returns (name ++ ".bak"))
  | None => (w, Throws TypeError)
  end.

(** [if not os.path.exists(backup_file): shutil.copy2(self.filename, backup_file)] *)
Definition make_backup (backup_file : string) : method unit := λ w,
  match files w !! backup_file with
  | Some _ => (w, Returns tt)
  | None =>
      match filename w ≫= λ name, files w !! name with
      | Some text => (set_files (<[backup_file := text]> (files w)) w, Returns tt)
      | None => (w, Throws FileNotFoundError)
      end
  end.

(** [with open(self.filename, 'w', encoding='utf-8') as f: f.write(text)] *)
Definition write_file (text : string) : method unit := λ w,
  match filename w with
  | Some name => (set_files (<[name := text]> (files w)) w, Returns tt)
  | None => (w, Throws TypeError)
  end.

(** [code.split] of [self.code_content] *)
Definition the_code : method string := λ w,
  match code_content w with
  | Some code => (w, Returns code)
  | None => (w, Throws AttributeError)
  end.

Definition rectify_current_bug : method unit := λ w,
  match current_bug_index w, detected_bugs w with
  | Some i, Some (b0 :: bs) =>
      let bugs := b0 :: bs in
      if Z.of_nat (length bugs) <=? i then (w, Returns tt)
      else
        try_except
          (let* bug := item bugs i in
           let* backup_file := backup_name in
           make_backup backup_file;;
           let* code := the_code in
           let fixed_code := (Rectify.rectify_bug code bug).1 in
           write_file fixed_code;;
           update (set_code_content (Some fixed_code));;
           update (set_status_bar ("Fixed bug on line " ++ pretty (b_line bug)));;
           let* rest := pop bugs i in
           update (set_detected_bugs (Some rest));;
           match rest with
           | [] =>
               update reset_bug_navigation;;
               update (show showinfo "Success" "All bugs have been fixed!");;
               update (set_fix_all_button false);;
               update start_detection
           | _ :: _ =>
               update (λ w, if Z.of_nat (length rest) <=? i
                            then set_current_bug_index
                                   (Some (Z.of_nat (length rest) - 1)) w
                            else w);;
               update_bug_navigation;;
               display_results (mk_analysis (Z.of_nat (length rest)) rest)
           end)
          (λ e, update (show showerror "Error"
                          ("Failed to rectify bug: " ++ str e)))
          w
  | _, _ => (w, Returns tt)
  end.

Definition apply_all_fixes : method unit := λ w,
  match detected_bugs w with
  | Some (b0 :: bs) =>
      let bugs := b0 :: bs in
      if truthy_str (filename w) && truthy_str (code_content w) then
        try_except
          (let* backup_file := backup_name in
           make_backup backup_file;;
           let* code := the_code in
           let fixed_code := Rectify.apply_fixes code bugs in
           write_file fixed_code;;
           update (show showinfo "Success"
                     ("All fixes applied successfully!" ++ String newline
                        ("Original file backed up as " ++ basename backup_file)));;
           update (set_status_bar "All fixes applied successfully");;
           update (set_code_content (Some fixed_code));;
           update reset_bug_navigation;;
           update (set_fix_all_button false);;
           update start_detection)
          (λ e, update (show showerror "Error"
                          ("Failed to apply fixes: " ++ str e)))
          w
      else (w, Returns tt)
  | _ => (w, Returns tt)
  end.

(** [with open(self.filename, 'r', encoding='utf-8') as file: file.read()] *)
Definition read_file : method string := λ w,
  match filename w with
  | Some name =>
      match files w !! name with
      | Some text => (w, Returns (universal_newlines text))
      | None => (w, Throws FileNotFoundError)
      end
  | None => (w, Throws TypeError)
  end.

(** The thread of [start_detection], the method [detect_bugs] of the
    window, with the language that the box of languages holds: what it
    does to the window and the calls it leaves to the main loop, in
    their order. *)
Definition detect_bugs_thread (language : string) (w : window) :
    window * list callback :=
  match read_file w with
  | (w, Returns text) =>
      let w := set_code_content (Some text) w in
      match detect_bugs ast_parse text language with
      | Ok results =>
          let w := set_detected_bugs (Some (bugs results)) w in
          (set_is_processing false w, [analyzing; display results; reset])
      | Raise e =>
          (set_is_processing false w,
           [analyzing; analysis_error (Builtin e); reset])
      end
  | (w, Throws e) => (set_is_processing false w, [analysis_error e; reset])
  end.

Definition reset_ui (w : window) : window :=
  set_status_bar "Ready" (set_detect_button true w).

(** A call of the main loop.  The box of [analysis_error] reads the name
    [e] of the thread, which the thread deletes when it leaves its
    [except] clause: [in_time] tells whether the call comes before. *)
Definition run_callback (in_time : bool) (c : callback) : method unit :=
  match c with
  | analyzing => ret tt
  | display results => display_results results
  | analysis_error e =>
      if in_time
      then update (show showerror "Error" ("Error analyzing code: " ++ str e))
      else throw NameError
  | reset => update reset_ui
  end.

(** A detection from [start_detection] to the last call of the thread,
    when nothing else happens in between; without a file no thread is
    started. *)
Definition detection (in_time : bool) (language : string) (w : window) :
    window :=
  if truthy_str (filename w) then
    let '(w, calls) := detect_bugs_thread language (start_detection w) in
    foldl (λ w c, (run_callback in_time c w).1) w calls
  else start_detection w.

(** [select_file], with the name that the dialog returns. *)
Definition select_file (chosen : string) (w : window) : window :=
  match chosen with
  | String _ _ =>
      let w := set_filename (Some chosen) w in
      let w := set_status_bar ("Selected file: " ++ basename chosen) w in
      let w := set_detect_button true w in
      let w := set_fix_all_button false w in
      reset_bug_navigation w
  | EmptyString => w
  end.

(** The state of a button, and its command. *)
Definition enabled (b : button) (w : window) : bool :=
  match b with
  | Select_Code_File _ => true
  | Detect_Bugs => detect_button w
  | Fix_All_Bugs => fix_all_button w
  | Previous_Bug => prev_bug_button (quick_fix w)
  | Next_Bug => next_bug_button (quick_fix w)
  | Rectify_Now => rectify_button (quick_fix w)
  end.

(** A click: a button that is disabled does nothing. *)
Definition click (b : button) : method unit := λ w,
  if enabled b w then
    match b with
    | Select_Code_File chosen => (select_file chosen w, Returns tt)
    | Detect_Bugs => (start_detection w, Returns tt)
    | Fix_All_Bugs => apply_all_fixes w
    | Previous_Bug => previous_bug w
    | Next_Bug => next_bug w
    | Rectify_Now => rectify_current_bug w
    end
  else (w, Returns tt).

(** The window after a series of clicks; an exception that leaves a
    command is reported by the main loop, which goes on. *)
Definition clicks (bs : list button) (w : window) : window :=
  foldl (λ w b, (click b w).1) w bs.

End Methods.

(** What the quick-fix frame has to show for bug [b], the bug at
    position [i] of [bugs]. *)
Definition view (bugs : list bug) (i : Z) (b : bug) : navigation :=
  let total_bugs := Z.of_nat (length bugs) in
  mk_navigation (0 <? i) (i <? total_bugs - 1) true
    ("Bug " ++ pretty (i + 1) ++ " of " ++ pretty total_bugs)
    (pretty (b_line b)) (type_name (b_type b))
    (default "Original code not available" (b_original b)) (b_fix b).

(** The frame shows the current bug, or nothing when there is none. *)
Definition expected (w : window) : option navigation :=
  match current_bug_index w with
  | None => Some blank
  | Some i =>
      if 0 <=? i then
        bugs ← detected_bugs w;
        b ← bugs !! Z.to_nat i;
        Some (view bugs i b)
      else None
  end.

Definition consistent (w : window) : Prop := expected w = Some (quick_fix w).

(** The files when the backup of [name] has been made, if there was none
    and there is a file to copy. *)
Definition backed_up (name : string) (fs : gmap string string) :
    gmap string string :=
  match fs !! (name ++ ".bak"), fs !! name with
  | None, Some text => <[name ++ ".bak" := text]> fs
  | _, _ => fs
  end.

(** The file [name] can be fixed: it exists, or its backup does. *)
Definition on_disk (name : string) (fs : gmap string string) : Prop :=
  is_Some (fs !! name) ∨ is_Some (fs !! (name ++ ".bak")).

(** A click on a button other than "Select Code File". *)
Definition keeps_file (b : button) : Prop :=
  match b with
  | Select_Code_File _ => False
  | _ => True
  end.

(** A window for the file [a.py] of five lines, when an analysis has
    found three bugs and the frame shows the one at position [i]. *)
Definition sample (i : Z) : window :=
  let w :=
    mk_window (Some "a.py") (Some Scenario.five_lines)
      (Some Scenario.three_fixes) (Some i) false true true "Ready" blank
      {[ "a.py" := Scenario.five_lines ]} [] 0 in
  set_quick_fix (default blank (expected w)) w.

(** The same window when the file has been removed, and when the file
    has a backup. *)
Definition sample_gone (i : Z) : window := set_files ∅ (sample i).

Definition sample_saved (i : Z) : window :=
  set_files {[ "a.py" := Scenario.five_lines; "a.py.bak" := "saved" ]}
    (sample i).

(** A window for a file with one bug. *)
Definition sample_one : window :=
  let w :=
    mk_window (Some "a.py") (Some Scenario.division)
      (Some [Scenario.division_bug]) (Some 0) false true true "Ready" blank
      {[ "a.py" := Scenario.division ]} [] 0 in
  set_quick_fix (default blank (expected w)) w.

(** [os.path.basename] on names without a directory, and [str(e)] for
    the file [a.py]. *)
Definition sample_basename (name : string) : string := name.

Definition sample_str (e : error) : string :=
  match e with
  | FileNotFoundError => "[Errno 2] No such file or directory: 'a.py'"
  | TypeError => "unsupported operand type(s) for +: 'NoneType' and 'str'"
  | AttributeError => "'NoneType' object has no attribute 'split'"
  | NameError => "cannot access free variable 'e'"
  | Builtin _ => "list index out of range"
  end.

(** The window when the file [name], with the text [text], has been
    selected in a new window. *)
Definition sample_selected (name text : string) : window :=
  select_file sample_basename name (init {[ name := text ]}).

End App.

(** ** Notions of the further properties *)

(** A piece of text without a line break, as characters. *)
Definition no_newline (s : list ascii) : Prop := Forall (λ x, x ≠ newline) s.

(** No group holds a line break. *)
Definition captures_free (c : Re.captures) : Prop :=
  Forall (λ it, no_newline it.2) c.

(** The pattern cannot match without reading a line break. *)
Fixpoint needs_newline (r : Re.regex) : bool :=
  match r with
  | Re.Lit a => Ascii.eqb a newline
  | Re.Cat r1 r2 => needs_newline r1 || needs_newline r2
  | Re.Alt r1 r2 => needs_newline r1 && needs_newline r2
  | Re.Group _ r1 => needs_newline r1
  | _ => false
  end.

(** The lines of the [except] clauses without a type, anywhere in the
    tree. *)
Definition bare_handler_lines (tree : Ast.node) : list Z :=
  flat_map (λ n, match n with
                 | Ast.ExceptHandler lineno None _ => [lineno]
                 | _ => []
                 end) (Ast.subtrees tree).

(** A [try] with an [except] clause without a type, and its tree. *)
Definition bare_except_text : string :=
  join_lines ["try:"; "    f()"; "except:"; "    pass"].

Definition bare_except_tree : Ast.node :=
  Ast.OtherNode "Module"
    [Ast.OtherNode "Try"
       [Ast.OtherNode "Expr" [Ast.OtherNode "Call" [Ast.Name "f" Ast.Load]];
        Ast.ExceptHandler 3 None [Ast.OtherNode "Pass" []]]].

(** The bug is a [LogicWarning]. *)
Definition is_logic_warning (b : bug) : Prop := b_type b = LogicWarning.

Global Instance is_logic_warning_dec (b : bug) : Decision (is_logic_warning b).
Proof. unfold is_logic_warning. apply _. Defined.

(** * Facts *)

(** ** Text and lines *)

Lemma split_lines_cons (code : string) :
  ∃ l ls, split_lines code = l :: ls.
Proof.
  induction code as [|c rest [l [ls IH]]]; simpl; [by eauto|].
  destruct (Ascii.eqb c newline); [by eauto|]. rewrite IH. by eauto.
Qed.

Lemma split_lines_length (code : string) : (0 < length (split_lines code))%nat.
Proof. destruct (split_lines_cons code) as (l & ls & ->). simpl. lia. Qed.

Lemma join_lines_cons (l l' : string) (ls : list string) :
  join_lines (l :: l' :: ls) = l ++ String newline (join_lines (l' :: ls)).
Proof. reflexivity. Qed.

Lemma join_split_lines (code : string) : join_lines (split_lines code) = code.
Proof.
  induction code as [|c rest IH]; [done|]. cbn [split_lines].
  destruct (split_lines_cons rest) as (l & ls & Hs). rewrite Hs in *.
  destruct (Ascii.eqb_spec c newline) as [->|Hc].
  - rewrite join_lines_cons, IH. reflexivity.
  - destruct ls as [|l' ls].
    + cbn in *. by rewrite <- IH.
    + rewrite join_lines_cons. rewrite join_lines_cons in IH.
      by rewrite <- IH.
Qed.

Lemma split_lines_one (l : string) :
  newline_free l = true → split_lines l = [l].
Proof.
  induction l as [|c l IH]; [done|]. simpl. intros [Hc Hl]%andb_prop.
  destruct (Ascii.eqb c newline); [done|]. by rewrite IH.
Qed.

Lemma split_lines_app (l rest : string) :
  newline_free l = true →
  split_lines (l ++ String newline rest) = l :: split_lines rest.
Proof.
  induction l as [|c l IH].
  - intros _. reflexivity.
  - intros [Hc Hl]%andb_prop.
    change (split_lines (String c (l ++ String newline rest))
            = String c l :: split_lines rest).
    simpl. destruct (Ascii.eqb c newline); [done|]. by rewrite IH.
Qed.

Lemma split_join_lines (l : string) (ls : list string) :
  Forall (λ x, newline_free x = true) (l :: ls) →
  split_lines (join_lines (l :: ls)) = l :: ls.
Proof.
  revert l. induction ls as [|l' ls IH]; intros l Hall.
  - apply split_lines_one. by inversion Hall.
  - inversion Hall as [|? ? Hl Hrest]; subst.
    rewrite join_lines_cons, split_lines_app by done. by rewrite IH.
Qed.

Lemma Forall_newline_free_insert (lines : list string) (i : nat) (t : string) :
  Forall (λ x, newline_free x = true) lines → newline_free t = true →
  Forall (λ x, newline_free x = true) (<[i:=t]> lines).
Proof. intros. by apply Forall_insert. Qed.

Lemma newline_free_split_lines (code : string) :
  Forall (λ x, newline_free x = true) (split_lines code).
Proof.
  induction code as [|c rest IH]; simpl; [by repeat constructor|].
  destruct (Ascii.eqb c newline) eqn:Hc; [by constructor|].
  destruct (split_lines rest) as [|l ls]; [by repeat constructor; simpl; rewrite Hc|].
  inversion IH; subst. constructor; [|done]. simpl. by rewrite Hc.
Qed.

Local Open Scope list_scope.

(** ** Rectification *)

Section RectifyFacts.
Import Rectify.

Lemma in_range_spec (line_idx : Z) (lines : list string) :
  in_range line_idx lines = true ↔ 0 ≤ line_idx < Z.of_nat (length lines).
Proof. unfold in_range. rewrite andb_true_iff, Z.leb_le, Z.ltb_lt. tauto. Qed.

Lemma insert_desc_on_line (k : Z) (b : bug) (l : list bug) :
  on_line k (insert_desc b l) = on_line k (b :: l).
Proof.
  unfold on_line. induction l as [|x l IH]; [done|]. simpl.
  destruct (Z.ltb_spec (b_line b) (b_line x)) as [Hlt|Hge]; [|done].
  rewrite (filter_cons _ x), IH, !filter_cons.
  repeat case_decide; try done; lia.
Qed.

(** The sort is stable: the bugs of one line keep their input order. *)
Lemma sorted_desc_on_line (k : Z) (bugs : list bug) :
  on_line k (sorted_desc bugs) = on_line k bugs.
Proof.
  induction bugs as [|b bugs IH]; [done|]. simpl.
  rewrite insert_desc_on_line. unfold on_line in *.
  by rewrite !filter_cons, IH.
Qed.

Lemma insert_desc_perm (b : bug) (l : list bug) : insert_desc b l ≡ₚ b :: l.
Proof.
  induction l as [|x l IH]; [done|]. simpl.
  destruct (b_line b <? b_line x); [|done].
  by rewrite IH, Permutation_swap.
Qed.

Lemma sorted_desc_perm (bugs : list bug) : sorted_desc bugs ≡ₚ bugs.
Proof.
  induction bugs as [|b bugs IH]; [done|]. simpl.
  by rewrite insert_desc_perm, IH.
Qed.

Lemma insert_desc_sorted (b : bug) (l : list bug) :
  Sorted line_ge l → Sorted line_ge (insert_desc b l).
Proof.
  induction 1 as [|x l Hs IH Hhd]; simpl; [by repeat constructor|].
  destruct (Z.ltb_spec (b_line b) (b_line x)) as [Hlt|Hge].
  - constructor; [done|]. destruct Hhd as [|y l Hxy]; simpl.
    + constructor. unfold line_ge. lia.
    + destruct (Z.ltb_spec (b_line b) (b_line y));
        constructor; unfold line_ge in *; lia.
  - repeat constructor; try done; unfold line_ge; lia.
Qed.

Lemma sorted_desc_sorted (bugs : list bug) : Sorted line_ge (sorted_desc bugs).
Proof.
  induction bugs as [|b bugs IH]; simpl; [constructor|].
  by apply insert_desc_sorted.
Qed.

Lemma apply_fix_length (lines : list string) (b : bug) :
  length (apply_fix lines b) = length lines.
Proof. unfold apply_fix. case_match; [apply length_insert|done]. Qed.

Lemma foldl_apply_fix_length (bs : list bug) (lines : list string) :
  length (foldl apply_fix lines bs) = length lines.
Proof.
  revert lines. induction bs as [|b bs IH]; intros lines; [done|]. simpl.
  by rewrite IH, apply_fix_length.
Qed.

Lemma apply_fix_lookup (lines : list string) (b : bug) (i : nat) :
  (i < length lines)%nat →
  apply_fix lines b !! i =
    if decide (b_line b = Z.of_nat i + 1) then Some (b_fix b) else lines !! i.
Proof.
  intros Hi. unfold apply_fix.
  destruct (in_range (b_line b - 1) lines) eqn:Hr.
  - apply in_range_spec in Hr. case_decide as Hb.
    + replace (Z.to_nat (b_line b - 1)) with i by lia.
      by apply list_lookup_insert_eq.
    + apply list_lookup_insert_ne. lia.
  - case_decide as Hb; [|done]. apply not_true_iff_false in Hr.
    exfalso. apply Hr, in_range_spec. lia.
Qed.

(** Applying a list of fixes in turn: a line ends as the fix of the last
    bug of the list that names it, and stays as it is without one. *)
Lemma foldl_apply_fix_lookup (bs : list bug) (lines : list string) (i : nat) :
  (i < length lines)%nat →
  foldl apply_fix lines bs !! i =
    match last (on_line (Z.of_nat i + 1) bs) with
    | Some b => Some (b_fix b)
    | None => lines !! i
    end.
Proof.
  intros Hi. induction bs as [|b bs IH] using rev_ind; [done|].
  rewrite foldl_app. simpl.
  rewrite apply_fix_lookup by (by rewrite foldl_apply_fix_length).
  unfold on_line in *. rewrite filter_app, filter_cons, filter_nil.
  case_decide.
  - by rewrite last_snoc.
  - by rewrite app_nil_r.
Qed.

Lemma fixed_lines_length (code : string) (bugs : list bug) :
  length (fixed_lines code bugs) = length (split_lines code).
Proof. apply foldl_apply_fix_length. Qed.

Lemma fixed_lines_lookup (code : string) (bugs : list bug) (i : nat) :
  (i < length (split_lines code))%nat →
  fixed_lines code bugs !! i =
    match last (on_line (Z.of_nat i + 1) bugs) with
    | Some b => Some (b_fix b)
    | None => split_lines code !! i
    end.
Proof.
  intros Hi. unfold fixed_lines.
  rewrite foldl_apply_fix_lookup by done. by rewrite sorted_desc_on_line.
Qed.

Lemma apply_fix_newline_free (lines : list string) (b : bug) :
  Forall (λ x, newline_free x = true) lines → newline_free (b_fix b) = true →
  Forall (λ x, newline_free x = true) (apply_fix lines b).
Proof.
  intros Hl Hb. unfold apply_fix. case_match; [|done]. by apply Forall_insert.
Qed.

Lemma foldl_apply_fix_newline_free (bs : list bug) (lines : list string) :
  Forall (λ x, newline_free x = true) lines →
  Forall (λ b, newline_free (b_fix b) = true) bs →
  Forall (λ x, newline_free x = true) (foldl apply_fix lines bs).
Proof.
  revert lines. induction bs as [|b bs IH]; intros lines Hl Hbs; [done|].
  inversion Hbs; subst. simpl. apply IH; [|done].
  by apply apply_fix_newline_free.
Qed.

(** With fixes of one line each, the lines of the text [apply_fixes]
    returns are the lines the loop has left. *)
Lemma split_lines_apply_fixes (code : string) (bugs : list bug) :
  Forall (λ b, newline_free (b_fix b) = true) bugs →
  split_lines (apply_fixes code bugs) = fixed_lines code bugs.
Proof.
  intros Hbs. unfold apply_fixes.
  assert (Hall : Forall (λ x, newline_free x = true) (fixed_lines code bugs)).
  { apply foldl_apply_fix_newline_free; [apply newline_free_split_lines|].
    by rewrite sorted_desc_perm. }
  destruct (fixed_lines code bugs) as [|l ls] eqn:Hf.
  - pose proof (fixed_lines_length code bugs) as Hlen.
    pose proof (split_lines_length code). rewrite Hf in Hlen. simpl in *. lia.
  - by apply split_join_lines.
Qed.

End RectifyFacts.

(** ** The patterns of the table

    Each pattern of the table is what [Re.compile] reads from the text of
    the pattern in the source. *)

Section PatternTexts.

Lemma compile_py_for :
  Re.compile "for\s+(\w+)\s+in\s+(\w+)(?!\s*:)"
  = Some Catalog.py_for.
Proof. by vm_compute. Qed.

Lemma compile_py_if :
  Re.compile "if\s+(.+?)(?!\s*:)$"
  = Some Catalog.py_if.
Proof. by vm_compute. Qed.

Lemma compile_py_else :
  Re.compile "else(?!\s*:)"
  = Some Catalog.py_else.
Proof. by vm_compute. Qed.

Lemma compile_py_div_len :
  Re.compile "(\w+)\s*=\s*(\w+)\s*/\s*len\((\w+)\)"
  = Some Catalog.py_div_len.
Proof. by vm_compute. Qed.

Lemma compile_py_div :
  Re.compile "(\w+)\s*=\s*(\d+)\s*/\s*(\w+)"
  = Some Catalog.py_div.
Proof. by vm_compute. Qed.

Lemma compile_py_str_eq :
  Re.compile ("(\w+)\s*==\s*" +:+ String Catalog.dq ("([^" +:+ String Catalog.dq ("]*)" +:+ String Catalog.dq "")))
  = Some Catalog.py_str_eq.
Proof. by vm_compute. Qed.

Lemma compile_py_print :
  Re.compile "print\s*\(\s*([^,)]*)\s*\)"
  = Some Catalog.py_print.
Proof. by vm_compute. Qed.

Lemma compile_py_while :
  Re.compile "while\s+(.+?)(?!\s*:)$"
  = Some Catalog.py_while.
Proof. by vm_compute. Qed.

Lemma compile_py_def :
  Re.compile "def\s+(\w+)\s*\(([^)]*)\)(?!\s*:)"
  = Some Catalog.py_def.
Proof. by vm_compute. Qed.

Lemma compile_py_except :
  Re.compile "except(?!\s+\w+:|:)"
  = Some Catalog.py_except.
Proof. by vm_compute. Qed.

Lemma compile_py_aug_return :
  Re.compile "(\w+)\s*\+=\s*(\w+)\s*\n\s*return\s+\1"
  = Some Catalog.py_aug_return.
Proof. by vm_compute. Qed.

Lemma compile_brace_if :
  Re.compile "if\s*\(.+\)\s*([^{])"
  = Some Catalog.brace_if.
Proof. by vm_compute. Qed.

Lemma compile_brace_for :
  Re.compile "for\s*\(.+\)\s*([^{])"
  = Some Catalog.brace_for.
Proof. by vm_compute. Qed.

Lemma compile_js_var :
  Re.compile "var\s+(\w+)"
  = Some Catalog.js_var.
Proof. by vm_compute. Qed.

(** The rule for a loop without colon on three lines: a loop over a call
    with its colon matches up to the parenthesis; the fix the rule renders
    for it still matches, one character short, because the name can give
    back its last character before the lookahead; a loop over a name of
    one character with its colon does not match. *)
Lemma py_for_on_loops :
  Re.search Catalog.py_for "for i in range(10):" = Some [Some "i"; Some "range"]
  ∧ Re.search Catalog.py_for "for i in range:" = Some [Some "i"; Some "rang"]
  ∧ Re.search Catalog.py_for "for i in x:" = None.
Proof. repeat split; by vm_compute. Qed.

End PatternTexts.

(** ** The line scanner *)

Section ScanFacts.

Lemma bind_Ok {A B : Type} (x : result A) (f : A → result B) (b : B) :
  bind x f = Ok b ↔ ∃ a, x = Ok a ∧ f a = Ok b.
Proof.
  destruct x as [a|e]; simpl; split.
  - by eauto.
  - by intros (a' & [= ->] & ?).
  - done.
  - by intros (a' & [=] & ?).
Qed.

Lemma bind_assoc {A B C : Type} (x : result A) (f : A → result B) (g : B → result C) :
  bind (bind x f) g = bind x (λ a, bind (f a) g).
Proof. by destruct x. Qed.

Lemma collect_app {A : Type} (xs ys : list (result A)) :
  collect (xs ++ ys) = (as_ ← collect xs;;; bs ← collect ys;;; Ok (as_ ++ bs)).
Proof.
  induction xs as [|x xs IH]; simpl.
  - by destruct (collect ys).
  - destruct x as [a|e]; simpl; [|done]. rewrite IH.
    destruct (collect xs); simpl; [|done]. by destruct (collect ys).
Qed.

Lemma collect_Ok_length {A : Type} (xs : list (result A)) (as_ : list A) :
  collect xs = Ok as_ → length as_ = length xs.
Proof.
  revert as_. induction xs as [|x xs IH]; intros as_; simpl.
  - by intros [= <-].
  - destruct x; simpl; [|done]. destruct (collect xs) as [bs|]; simpl; [|done].
    intros [= <-]. simpl. by rewrite (IH bs).
Qed.

Lemma search_from_length (r : Re.regex) (s : list ascii) (gs : list (option string)) :
  Re.search_from r s = Some gs → length gs = Re.ngroups r.
Proof.
  induction s as [|a s IH]; simpl.
  - destruct (Re.m r [] [] _); [|done]. intros [= <-].
    unfold Re.groups. by rewrite length_fmap, length_seq.
  - destruct (Re.m r (a :: s) [] _); [|done]. intros [= <-].
    unfold Re.groups. by rewrite length_fmap, length_seq.
Qed.

(** [match.groups()] has one entry for each group of the pattern. *)
Lemma search_length (r : Re.regex) (line : string) (gs : list (option string)) :
  Re.search r line = Some gs → length gs = Re.ngroups r.
Proof. apply search_from_length. Qed.

Lemma scan_rule_hit (i : Z) (line : string) (results : list bug) (r : rule) :
  scan_rule i line results r =
    (bs ← collect (bug_of_hit <$> hits_on [r] (i, line));;; Ok (results ++ bs)).
Proof.
  unfold scan_rule, hits_on. simpl.
  destruct (Re.search (r_pattern r) line) as [gs|]; simpl.
  - unfold bug_of_hit. simpl. by destruct (render _ _).
  - by rewrite app_nil_r.
Qed.

Lemma hits_on_cons (r : rule) (rules : list rule) (il : Z * string) :
  hits_on (r :: rules) il = hits_on [r] il ++ hits_on rules il.
Proof. unfold hits_on. simpl. by destruct (Re.search _ _). Qed.

Lemma for_each_scan_rule (i : Z) (line : string) (rules : list rule)
    (results : list bug) :
  for_each (scan_rule i line) rules results =
    (bs ← collect (bug_of_hit <$> hits_on rules (i, line));;; Ok (results ++ bs)).
Proof.
  revert results. induction rules as [|r rules IH]; intros results.
  - simpl. by rewrite app_nil_r.
  - cbn [for_each]. rewrite hits_on_cons, fmap_app, collect_app, scan_rule_hit.
    destruct (collect (bug_of_hit <$> hits_on [r] (i, line))) as [bs1|e];
      simpl; [|done].
    rewrite IH. destruct (collect _) as [bs2|e]; simpl; [|done].
    by rewrite app_assoc.
Qed.

Lemma for_each_lines (rules : list rule) (start : Z) (lines : list string)
    (results : list bug) :
  for_each (λ results '(i, line), for_each (scan_rule i line) rules results)
    (enumerate start lines) results =
  (bs ← collect (bug_of_hit <$> flat_map (hits_on rules) (enumerate start lines));;;
   Ok (results ++ bs)).
Proof.
  revert start results.
  induction lines as [|line lines IH]; intros start results.
  - simpl. by rewrite app_nil_r.
  - cbn [for_each enumerate flat_map].
    rewrite fmap_app, collect_app, for_each_scan_rule.
    destruct (collect (bug_of_hit <$> hits_on rules (start, line))) as [bs1|e];
      simpl; [|done].
    rewrite IH. destruct (collect _) as [bs2|e]; simpl; [|done].
    by rewrite app_assoc.
Qed.

(** The loops of the scanner make the bugs of the hits, in the order of
    the hits, and stop at the first template that fails. *)
Lemma scan_hits (lines : list string) (rules : list rule) :
  scan lines rules = collect (bug_of_hit <$> hits lines rules).
Proof.
  unfold scan, hits. rewrite for_each_lines.
  by destruct (collect _).
Qed.

Lemma scan_no_rules (lines : list string) : scan lines [] = Ok [].
Proof.
  rewrite scan_hits. unfold hits.
  replace (flat_map (hits_on []) (enumerate 1 lines)) with (@nil hit); [done|].
  generalize 1. induction lines as [|l lines IH]; intros start; simpl; [done|].
  by rewrite <- IH.
Qed.

End ScanFacts.

(** ** Which calls return *)

Section Totality.

Lemma succeeds_Ok {A : Type} (x : result A) :
  match x with Ok _ => True | Raise _ => False end → succeeds x.
Proof. destruct x; [by eexists|done]. Qed.

Lemma collect_succeeds {A : Type} (xs : list (result A)) :
  Forall succeeds xs → succeeds (collect xs).
Proof.
  induction 1 as [|x xs [a ->] _ [as_ IH]]; simpl; [by eexists|].
  rewrite IH. simpl. by eexists.
Qed.

Lemma hits_on_spec (rules : list rule) (il : Z * string) (h : hit) :
  h ∈ hits_on rules il →
  h_rule h ∈ rules ∧ h_line_no h = il.1 ∧ h_text h = il.2
  ∧ Re.search (r_pattern (h_rule h)) (h_text h) = Some (h_groups h).
Proof.
  unfold hits_on. rewrite list_elem_of_omap. intros (r & Hr & Hh).
  destruct (Re.search (r_pattern r) il.2) as [gs|] eqn:Hs; [|done].
  simpl in Hh. injection Hh as <-. by simpl.
Qed.

Lemma hits_spec (lines : list string) (rules : list rule) (h : hit) :
  h ∈ hits lines rules →
  h_rule h ∈ rules
  ∧ Re.search (r_pattern (h_rule h)) (h_text h) = Some (h_groups h).
Proof.
  unfold hits. rewrite list_elem_of_In, in_flat_map.
  intros (il & _ & Hin). apply list_elem_of_In, hits_on_spec in Hin. tauto.
Qed.

Lemma elem_of_enumerate {A : Type} (start : Z) (xs : list A) (k : Z) (x : A) :
  (k, x) ∈ enumerate start xs →
  start ≤ k ∧ xs !! Z.to_nat (k - start) = Some x.
Proof.
  revert start. induction xs as [|y xs IH]; intros start Hin; simpl in Hin.
  - by apply elem_of_nil in Hin.
  - apply elem_of_cons in Hin as [[= -> ->]|Hin].
    + split; [lia|]. by rewrite Z.sub_diag.
    + apply IH in Hin as [Hle Hx]. split; [lia|].
      replace (Z.to_nat (k - start)) with (S (Z.to_nat (k - (start + 1))))
        by lia.
      done.
Qed.

(** A hit is on a line of the text, under its number. *)
Lemma hits_lookup (lines : list string) (rules : list rule) (h : hit) :
  h ∈ hits lines rules →
  1 ≤ h_line_no h ∧ lines !! Z.to_nat (h_line_no h - 1) = Some (h_text h).
Proof.
  unfold hits. rewrite list_elem_of_In, in_flat_map.
  intros ([k l] & Hil & Hin).
  apply list_elem_of_In, hits_on_spec in Hin as (_ & -> & -> & _).
  apply list_elem_of_In, elem_of_enumerate in Hil. done.
Qed.

Lemma scan_succeeds (lines : list string) (rules : list rule) :
  well_formed rules → succeeds (scan lines rules).
Proof.
  intros Hwf. rewrite scan_hits. apply collect_succeeds.
  apply Forall_fmap, Forall_forall. intros h [Hr Hs]%hits_spec. simpl.
  unfold bug_of_hit.
  destruct (Hwf (h_rule h) (h_groups h) Hr) as [t ->].
  - by apply search_length in Hs.
  - simpl. by eexists.
Qed.

Lemma python_rules_well_formed : well_formed Catalog.python_rules.
Proof.
  intros r gs Hr Hlen. unfold Catalog.python_rules in Hr.
  repeat (apply elem_of_cons in Hr as [->|Hr]);
    [..|by apply elem_of_nil in Hr];
    simpl in Hlen;
    repeat (destruct gs as [|? gs]; try discriminate Hlen);
    by apply succeeds_Ok.
Qed.

Lemma bug_patterns_python :
  Catalog.bug_patterns !! "Python" = Some Catalog.python_rules.
Proof. reflexivity. Qed.

Lemma bug_patterns_java :
  Catalog.bug_patterns !! "Java" = Some Catalog.java_rules.
Proof. reflexivity. Qed.

Lemma bug_patterns_other (language : string) :
  language ≠ "Python" → language ≠ "Java" → language ≠ "C++" →
  language ≠ "JavaScript" → Catalog.bug_patterns !! language = None.
Proof.
  intros. unfold Catalog.bug_patterns.
  by rewrite !lookup_insert_ne, lookup_empty.
Qed.

Lemma checker_bugs_python (ast_parse : string → Ast.parse_outcome) (code : string) :
  checker_bugs ast_parse "Python" code = python_ast_check ast_parse code.
Proof. unfold checker_bugs, ast_checkers. by rewrite lookup_singleton_eq. Qed.

Lemma checker_bugs_other (ast_parse : string → Ast.parse_outcome)
    (language code : string) :
  language ≠ "Python" → checker_bugs ast_parse language code = Ok [].
Proof.
  intros. unfold checker_bugs, ast_checkers. by rewrite lookup_singleton_ne.
Qed.

(** [detect_bugs]: the bugs of the scanner, then the bugs of the
    structural checker, and their number. *)
Lemma detect_bugs_unfold (ast_parse : string → Ast.parse_outcome)
    (code language : string) :
  detect_bugs ast_parse code language =
    (scanned ← scan (split_lines code)
                 (default [] (Catalog.bug_patterns !! language));;;
     ast_bugs ← checker_bugs ast_parse language code;;;
     let results := scanned ++ ast_bugs in
     Ok {| bug_count := Z.of_nat (length results); bugs := results |}).
Proof.
  unfold detect_bugs, checker_bugs.
  destruct (scan _ _) as [scanned|e]; simpl; [|done].
  destruct (ast_checkers ast_parse !! language) as [checker|]; simpl.
  - by destruct (checker code).
  - by rewrite app_nil_r.
Qed.

(** On a Python text the scanner always returns: [detect_bugs] returns
    when the structural checker does, and raises what the checker
    raises. *)
Lemma detect_bugs_python (ast_parse : string → Ast.parse_outcome) (code : string) :
  ∃ scanned,
    scan (split_lines code) Catalog.python_rules = Ok scanned
    ∧ detect_bugs ast_parse code "Python" =
        (ast_bugs ← python_ast_check ast_parse code;;;
         Ok {| bug_count := Z.of_nat (length (scanned ++ ast_bugs));
               bugs := scanned ++ ast_bugs |}).
Proof.
  destruct (scan_succeeds (split_lines code) _ python_rules_well_formed)
    as [scanned Hs].
  exists scanned. split; [done|].
  rewrite detect_bugs_unfold, bug_patterns_python. simpl. rewrite Hs. simpl.
  by rewrite checker_bugs_python.
Qed.

(** An exception of the parser that is not a [SyntaxError] leaves the
    checker and [detect_bugs]. *)
Lemma other_exceptions_propagate (ast_parse : string → Ast.parse_outcome)
    (code : string) (e : exn) :
  ast_parse code = Ast.Raises e →
  python_ast_check ast_parse code = Raise e
  ∧ detect_bugs ast_parse code "Python" = Raise e.
Proof.
  intros Hp.
  assert (He : python_ast_check ast_parse code = Raise e)
    by (unfold python_ast_check; by rewrite Hp).
  split; [done|].
  destruct (detect_bugs_python ast_parse code) as (scanned & _ & ->).
  by rewrite He.
Qed.

(** Where [detect_bugs] returns, its bugs are the bugs of the hits, in
    the order of the hits, followed by the bugs of the structural
    checker. *)
Lemma detect_bugs_order (ast_parse : string → Ast.parse_outcome)
    (code language : string) (res : analysis) :
  detect_bugs ast_parse code language = Ok res →
  ∃ scanned ast_bugs,
    collect (bug_of_hit <$> hits (split_lines code)
                              (default [] (Catalog.bug_patterns !! language)))
      = Ok scanned
    ∧ checker_bugs ast_parse language code = Ok ast_bugs
    ∧ bugs res = scanned ++ ast_bugs.
Proof.
  rewrite detect_bugs_unfold, scan_hits.
  intros (scanned & Hs & (ast_bugs & Ha & Hres)%bind_Ok)%bind_Ok.
  exists scanned, ast_bugs. injection Hres as <-. done.
Qed.

(** Each bug of the scanner has the line number and the text of its hit,
    the type and the description of the rule, and the fix that [render]
    makes of the template and the groups. *)
Lemma collect_bug_of_hit (hs : list hit) (bs : list bug) :
  collect (bug_of_hit <$> hs) = Ok bs →
  Forall2 (λ h b,
             b_type b = r_bug_type (h_rule h)
             ∧ b_line b = h_line_no h
             ∧ b_description b = r_description (h_rule h)
             ∧ b_original b = Some (h_text h)
             ∧ render (r_fix_template (h_rule h)) (h_groups h) = Ok (b_fix b))
    hs bs.
Proof.
  revert bs. induction hs as [|h hs IH]; intros bs; simpl.
  - intros [= <-]. constructor.
  - intros (b & Hb & (bs' & Hbs & [= <-])%bind_Ok)%bind_Ok.
    constructor; [|by apply IH].
    unfold bug_of_hit in Hb. apply bind_Ok in Hb as (t & Ht & [= <-]).
    by simpl.
Qed.

Lemma constant_sorted (a : Z) (ns : list Z) :
  Forall (λ n, n = a) ns → StronglySorted Z.le ns.
Proof.
  induction 1 as [|n ns -> Hall IH]; constructor; [done|].
  eapply Forall_impl; [exact Hall|]. intros k ->. simpl. lia.
Qed.

(** The hits come line after line. *)
Lemma hits_ascending (lines : list string) (rules : list rule) :
  StronglySorted Z.le (h_line_no <$> hits lines rules).
Proof.
  unfold hits. generalize 1.
  induction lines as [|l lines IH]; intros start; simpl; [constructor|].
  rewrite fmap_app. apply StronglySorted_app_2; [| |apply IH].
  - intros n1 n2 Hn1 Hn2.
    apply list_elem_of_fmap in Hn1 as (h1 & -> & Hh1).
    apply list_elem_of_fmap in Hn2 as (h2 & -> & Hh2).
    apply hits_on_spec in Hh1. simpl in Hh1.
    apply list_elem_of_In, in_flat_map in Hh2 as ([k t] & Hk & Hh2).
    apply list_elem_of_In, hits_on_spec in Hh2. simpl in Hh2.
    apply list_elem_of_In, elem_of_enumerate in Hk. lia.
  - assert (Hsame : Forall (λ n, n = start)
                      (h_line_no <$> hits_on rules (start, l))).
    { apply Forall_fmap, Forall_forall. intros h Hh.
      apply hits_on_spec in Hh. simpl in Hh. tauto. }
    by apply (constant_sorted start).
Qed.

End Totality.

(** ** The structural checker *)

Section CheckerFacts.
Import Ast.

Lemma string_length_app (x s : string) :
  String.length (x +:+ s) = (String.length x + String.length s)%nat.
Proof.
  induction x as [|c x IH]; [done|].
  change (S (String.length (x +:+ s)) = S (String.length x + String.length s)).
  by rewrite IH.
Qed.



Lemma subtrees_unfold (n : node) :
  subtrees n = n :: flat_map subtrees (iter_child_nodes n).
Proof.
  destruct n as [ln ts v|id ctx|ln [t|] body|cls cs]; simpl; f_equal;
    rewrite ?flat_map_app; simpl; by rewrite ?app_nil_r.
Qed.

Lemma flat_map_subtrees_cons (n : node) (todo : list node) :
  flat_map subtrees (n :: todo) =
    n :: flat_map subtrees (iter_child_nodes n) ++ flat_map subtrees todo.
Proof. cbn [flat_map]. by rewrite (subtrees_unfold n). Qed.

Lemma walk_queue_perm (turns : nat) (todo : list node) :
  (length (flat_map subtrees todo) ≤ turns)%nat →
  walk_queue turns todo ≡ₚ flat_map subtrees todo.
Proof.
  revert todo. induction turns as [|turns IH]; intros [|n todo] Hlen;
    try done; rewrite flat_map_subtrees_cons in *; simpl in Hlen; [lia|].
  rewrite length_app in Hlen. cbn [walk_queue].
  rewrite IH.
  - rewrite flat_map_app. f_equiv. apply Permutation_app_comm.
  - rewrite flat_map_app, length_app. lia.
Qed.

(** The walk visits every node of the tree once. *)
Lemma walk_perm (tree : node) : walk tree ≡ₚ subtrees tree.
Proof.
  unfold walk. rewrite walk_queue_perm; simpl; rewrite app_nil_r; done.
Qed.

(** The order of the walk on the tree of [x = 10 / y]. *)
Lemma walk_division_tree :
  class_name <$> walk Scenario.division_tree =
    ["Module"; "Assign"; "Name"; "BinOp"; "Store"; "Constant"; "Div";
     "Name"; "Load"]%string.
Proof. reflexivity. Qed.

Lemma foldl_snoc_flat_map {A B : Type} (f : list B → A → list B) (g : A → list B)
    (xs : list A) (acc : list B) :
  (∀ acc x, f acc x = acc ++ g x) →
  foldl f acc xs = acc ++ flat_map g xs.
Proof.
  intros Hf. revert acc. induction xs as [|x xs IH]; intros acc; simpl.
  - by rewrite app_nil_r.
  - by rewrite IH, Hf, app_assoc.
Qed.

(** The unused-variable reports for [var] at one node. *)
Lemma report_unused_spec (var : string) (bugs : list bug) (n : node) :
  report_unused var bugs n =
    bugs ++ ((λ ln, unused_variable_bug ln var) <$> assigned_at var n).
Proof.
  destruct n as [ln ts v|id ctx|ln ty body|cls cs]; simpl;
    try by rewrite app_nil_r.
  revert bugs. induction ts as [|t ts IH]; intros bugs; simpl.
  - by rewrite app_nil_r.
  - rewrite IH, fmap_app. destruct t as [| id ctx | |]; simpl; try done.
    case_decide; simpl; [|done]. by rewrite <- app_assoc.
Qed.

Lemma report_bare_except_spec (bugs : list bug) (n : node) :
  report_bare_except bugs n =
    bugs ++ match n with
            | ExceptHandler lineno None _ => [bare_except_bug lineno]
            | _ => []
            end.
Proof.
  destruct n as [ln ts v|id ctx|ln [t|] body|cls cs]; simpl;
    by rewrite ?app_nil_r.
Qed.




Lemma filter_all {A : Type} (P : A → Prop) `{!∀ x, Decision (P x)} (l : list A) :
  Forall P l → filter P l = l.
Proof.
  induction 1 as [|x l Hx _ IH]; [done|].
  rewrite filter_cons, IH. by case_decide.
Qed.

Lemma filter_none {A : Type} (P : A → Prop) `{!∀ x, Decision (P x)} (l : list A) :
  Forall (λ x, ¬ P x) l → filter P l = [].
Proof.
  induction 1 as [|x l Hx _ IH]; [done|].
  rewrite filter_cons, IH. by case_decide.
Qed.


Lemma unused_block_Forall (nodes : list node) (var : string) :
  Forall (λ b, ∃ ln, b = unused_variable_bug ln var) (unused_block nodes var).
Proof.
  apply Forall_forall. intros b. unfold unused_block.
  rewrite list_elem_of_In, in_flat_map. intros (n & _ & Hb).
  apply list_elem_of_In in Hb. apply list_elem_of_fmap in Hb as (ln & -> & _).
  by exists ln.
Qed.




Lemma python_ast_check_parsed (ast_parse : string → parse_outcome)
    (code : string) (tree : node) :
  ast_parse code = Parsed tree →
  python_ast_check ast_parse code =
    Ok (flat_map (unused_block (walk tree)) (elements (unused_vars tree))
        ++ bare_excepts (walk tree)).
Proof.
  intros Hp. unfold python_ast_check, unused_vars. rewrite Hp.
  destruct (foldl collect_vars (∅, ∅) (walk tree)) as [D U]. simpl. f_equal.
  rewrite (foldl_snoc_flat_map _ _ _ _ report_bare_except_spec).
  f_equal.
  rewrite (foldl_snoc_flat_map _ (unused_block (walk tree))); [done|].
  intros acc var. unfold unused_block.
  apply foldl_snoc_flat_map. intros. apply report_unused_spec.
Qed.

Lemma python_ast_check_syntax_error (ast_parse : string → parse_outcome)
    (code : string) (lineno : option Z) (str_e : string) :
  ast_parse code = RaisesSyntaxError lineno str_e →
  python_ast_check ast_parse code = Ok [syntax_error_bug lineno str_e].
Proof. intros Hp. unfold python_ast_check. by rewrite Hp. Qed.


End CheckerFacts.

(** * The claims *)

Section Claims.
Import Rectify.

(** C1.  [apply_fixes] goes through the bugs in descending order of their
    lines, the bugs of one line in their input order (the sort is stable
    and only permutes the list), and replaces lines in place, so the
    number of lines never changes.  A line that bugs name ends as the fix
    of the last of them in the input; a line no bug names stays as it is.
    When every fix is one line, this is also how the returned text
    splits. *)
Theorem apply_fixes_last_wins (code : string) (bugs : list bug) (k : Z) (b : bug) :
  1 ≤ k ≤ Z.of_nat (length (split_lines code)) →
  last (on_line k bugs) = Some b →
  (Sorted line_ge (sorted_desc bugs)
   ∧ sorted_desc bugs ≡ₚ bugs
   ∧ ∀ j, on_line j (sorted_desc bugs) = on_line j bugs)
  ∧ length (fixed_lines code bugs) = length (split_lines code)
  ∧ fixed_lines code bugs !! Z.to_nat (k - 1) = Some (b_fix b)
  ∧ (∀ j : nat, on_line (Z.of_nat j + 1) bugs = [] →
       fixed_lines code bugs !! j = split_lines code !! j)
  ∧ (Forall (λ x, newline_free (b_fix x) = true) bugs →
       split_lines (apply_fixes code bugs) !! Z.to_nat (k - 1) = Some (b_fix b)).
Proof.
  intros Hk Hlast.
  assert (Hline : fixed_lines code bugs !! Z.to_nat (k - 1) = Some (b_fix b)).
  { rewrite fixed_lines_lookup by lia.
    replace (Z.of_nat (Z.to_nat (k - 1)) + 1) with k by lia.
    by rewrite Hlast. }
  repeat split.
  - apply sorted_desc_sorted.
  - apply sorted_desc_perm.
  - intros j. apply sorted_desc_on_line.
  - apply fixed_lines_length.
  - done.
  - intros j Hnone.
    destruct (decide (j < length (split_lines code))%nat) as [Hj|Hj].
    + rewrite fixed_lines_lookup by done. by rewrite Hnone.
    + rewrite !lookup_ge_None_2; [done|lia|rewrite fixed_lines_length; lia].
  - intros Hfree. by rewrite split_lines_apply_fixes.
Qed.

Lemma apply_fixes_last_wins_witness :
  fixed_lines Scenario.five_lines Scenario.three_fixes !! 1%nat = Some "B2"
  ∧ split_lines (apply_fixes Scenario.five_lines Scenario.three_fixes) !! 1%nat
    = Some "B2".
Proof.
  pose proof (apply_fixes_last_wins Scenario.five_lines Scenario.three_fixes 2
                (mk_bug StyleWarning 2 "third" None "B2")) as H.
  destruct H as (_ & _ & Hline & _ & Htext).
  - vm_compute. split; discriminate.
  - reflexivity.
  - split; [exact Hline|]. apply Htext. repeat constructor.
Defined.

(** C2.  [rectify_bug] with a line inside the text returns the text with
    that line replaced by the fix, every other line as it was, and the
    line it replaced; with a line outside the text it returns the text as
    it is and [None].  It is a total function: no call raises. *)
Theorem rectify_bug_spec (code : string) (bug : bug) :
  let lines := split_lines code in
  let i := Z.to_nat (b_line bug - 1) in
  (1 ≤ b_line bug ≤ Z.of_nat (length lines) →
     ∃ original_line lines',
       rectify_bug code bug = (join_lines lines', Some original_line)
       ∧ lines !! i = Some original_line
       ∧ length lines' = length lines
       ∧ lines' !! i = Some (b_fix bug)
       ∧ (∀ j, j ≠ i → lines' !! j = lines !! j)
       ∧ (newline_free (b_fix bug) = true →
            split_lines (rectify_bug code bug).1 = lines'))
  ∧ (b_line bug < 1 ∨ Z.of_nat (length lines) < b_line bug →
       rectify_bug code bug = (code, None)).
Proof.
  intros lines i. split.
  - intros Hr. unfold rectify_bug. fold lines. fold i.
    assert (Hin : in_range (b_line bug - 1) lines = true)
      by (apply in_range_spec; lia).
    rewrite Hin.
    assert (Hi : (i < length lines)%nat) by (unfold i; lia).
    destruct (lookup_lt_is_Some_2 lines i Hi) as [original_line Ho].
    exists original_line, (<[i := b_fix bug]> lines).
    rewrite Ho. simpl. repeat split.
    + apply length_insert.
    + by apply list_lookup_insert_eq.
    + intros j Hj. by apply list_lookup_insert_ne.
    + intros Hfree.
      assert (Hall : Forall (λ x, newline_free x = true) (<[i := b_fix bug]> lines)).
      { apply Forall_insert; [apply newline_free_split_lines|done]. }
      destruct (<[i := b_fix bug]> lines) as [|l ls] eqn:Hl.
      * apply (f_equal length) in Hl. rewrite length_insert in Hl.
        simpl in Hl. lia.
      * by apply split_join_lines.
  - intros Hout. unfold rectify_bug. fold lines.
    destruct (in_range (b_line bug - 1) lines) eqn:Hin; [|done].
    apply in_range_spec in Hin. lia.
Qed.

Lemma rectify_bug_spec_witness :
  (∃ original_line lines',
     rectify_bug Scenario.five_lines (mk_bug StyleWarning 2 "" None "B1")
       = (join_lines lines', Some original_line)
     ∧ split_lines Scenario.five_lines !! 1%nat = Some original_line
     ∧ lines' !! 1%nat = Some "B1")
  ∧ rectify_bug Scenario.five_lines (mk_bug StyleWarning 6 "" None "F")
    = (Scenario.five_lines, None).
Proof.
  split.
  - destruct (rectify_bug_spec Scenario.five_lines
                (mk_bug StyleWarning 2 "" None "B1")) as [Hin _].
    destruct Hin as (o & ls & Heq & Ho & _ & Hfix & _);
      [vm_compute; split; discriminate|].
    exists o, ls. repeat split; [exact Heq|exact Ho|exact Hfix].
  - apply (rectify_bug_spec Scenario.five_lines
             (mk_bug StyleWarning 6 "" None "F")).
    right. vm_compute. reflexivity.
Defined.

(** C9.  Whenever [detect_bugs] returns, [bug_count] is the number of
    bugs of the result. *)
Theorem bug_count_is_length (ast_parse : string → Ast.parse_outcome)
    (code language : string) (res : analysis) :
  detect_bugs ast_parse code language = Ok res →
  bug_count res = Z.of_nat (length (bugs res)).
Proof.
  rewrite detect_bugs_unfold.
  intros (scanned & _ & (ast_bugs & _ & Hres)%bind_Ok)%bind_Ok.
  by injection Hres as <-.
Qed.

Lemma bug_count_is_length_witness :
  bug_count {| bug_count := 2;
               bugs := [Scenario.division_bug; unused_variable_bug 1 "x"] |}
  = Z.of_nat (length [Scenario.division_bug; unused_variable_bug 1 "x"]).
Proof.
  apply (bug_count_is_length (λ _, Ast.Parsed Scenario.division_tree)
           Scenario.division "Python").
  vm_compute. reflexivity.
Defined.

(** C10.  For a language that is not in the table, [detect_bugs] returns
    no bug and the count 0, whatever the text: the rule list is empty and
    no structural checker runs. *)
Theorem unknown_language_no_bugs (ast_parse : string → Ast.parse_outcome)
    (code language : string) :
  language ≠ "Python" → language ≠ "Java" → language ≠ "C++" →
  language ≠ "JavaScript" →
  Catalog.bug_patterns !! language = None
  ∧ ast_checkers ast_parse !! language = None
  ∧ detect_bugs ast_parse code language = Ok {| bug_count := 0; bugs := [] |}.
Proof.
  intros Hpy Hjava Hcpp Hjs.
  assert (Hrules : Catalog.bug_patterns !! language = None)
    by by apply bug_patterns_other.
  repeat split; [done|by apply lookup_singleton_ne|].
  rewrite detect_bugs_unfold, Hrules. simpl. rewrite scan_no_rules. simpl.
  by rewrite checker_bugs_other.
Qed.

Lemma unknown_language_no_bugs_witness :
  detect_bugs (λ _, Ast.Raises RecursionError) Scenario.division "Rust"
  = Ok {| bug_count := 0; bugs := [] |}.
Proof.
  apply (unknown_language_no_bugs (λ _, Ast.Raises RecursionError)
           Scenario.division "Rust"); discriminate.
Defined.

(** C8 as the specification has it fails: it speaks of every failure of
    the parse, and the checker catches the class [SyntaxError] only.  On
    the text that is nested too deep [ast.parse] raises [RecursionError],
    and the checker returns no bug: the exception leaves it. *)
Lemma other_parse_failure_counterexample :
  ¬ (∀ ast_parse : string → Ast.parse_outcome,
       ast_parse Scenario.minus_chain = Ast.Raises RecursionError →
       ∃ b,
         python_ast_check ast_parse Scenario.minus_chain = Ok [b]
         ∧ b_type b = SyntaxError
         ∧ succeeds (detect_bugs ast_parse Scenario.minus_chain "Python")).
Proof.
  intros H.
  destruct (H (λ _, Ast.Raises RecursionError) eq_refl) as (b & Hb & _).
  destruct (other_exceptions_propagate (λ _, Ast.Raises RecursionError)
              Scenario.minus_chain RecursionError eq_refl) as [Hraise _].
  rewrite Hraise in Hb. discriminate Hb.
Qed.

(** C8, amended.  When [ast.parse] raises a [SyntaxError], the class the
    checker catches, the structural checker returns one bug and nothing
    else: its type is [SyntaxError], its line is [e.lineno or 0], its
    description is [str(e)].  Neither the scan for unused variables nor
    the scan for bare [except] clauses runs, and no exception leaves the
    checker or [detect_bugs], which returns the bugs of the scanner
    followed by that bug. *)
Theorem parse_failure_is_one_bug (ast_parse : string → Ast.parse_outcome)
    (code : string) (lineno : option Z) (str_e : string) :
  ast_parse code = Ast.RaisesSyntaxError lineno str_e →
  let b := {| b_type := SyntaxError;
              b_line := match lineno with
                        | Some n => n
                        | None => 0
                        end;
              b_description := str_e;
              b_original := None;
              b_fix := ("# Fix the syntax error: " +:+ str_e)%string |} in
  python_ast_check ast_parse code = Ok [b]
  ∧ ∃ scanned,
      scan (split_lines code) Catalog.python_rules = Ok scanned
      ∧ detect_bugs ast_parse code "Python" =
          Ok {| bug_count := Z.of_nat (length scanned) + 1;
                bugs := scanned ++ [b] |}.
Proof.
  intros Hp b.
  destruct (detect_bugs_python ast_parse code) as (scanned & Hs & Hd).
  assert (Hb : python_ast_check ast_parse code = Ok [b]).
  { rewrite (python_ast_check_syntax_error _ _ _ _ Hp).
    unfold syntax_error_bug, b. do 3 f_equal.
    destruct lineno as [n|]; simpl; [|done].
    by destruct (Z.eqb_spec n 0) as [->|]. }
  split; [done|]. exists scanned. split; [done|].
  rewrite Hd, Hb. simpl. rewrite length_app. simpl. do 2 f_equal. lia.
Qed.

Lemma parse_failure_is_one_bug_witness :
  python_ast_check (λ _, Ast.RaisesSyntaxError (Some 1) "invalid syntax")
    Scenario.for_loop
  = Ok [mk_bug SyntaxError 1 "invalid syntax" None
          "# Fix the syntax error: invalid syntax"].
Proof.
  apply (parse_failure_is_one_bug
           (λ _, Ast.RaisesSyntaxError (Some 1) "invalid syntax")
           Scenario.for_loop (Some 1) "invalid syntax").
  reflexivity.
Defined.

(** C6 fails on the brace rules.  The pattern of the Java rule for [if]
    matches the line and has a group, so the template goes through
    [format], and its lone brace makes [format] raise: [detect_bugs]
    raises [ValueError] where the claim has a bug for every rule that
    matches. *)
Theorem brace_template_raises (ast_parse : string → Ast.parse_outcome) :
  hits (split_lines Scenario.java_if) Catalog.java_rules
    = [mk_hit 1 Scenario.java_if Scenario.java_if_rule [Some "y"]]
  ∧ render "if (...) {" [Some "y"] = Raise ValueError
  ∧ detect_bugs ast_parse Scenario.java_if "Java" = Raise ValueError.
Proof.
  split; [by vm_compute|]. split; [by vm_compute|].
  rewrite detect_bugs_unfold, bug_patterns_java. reflexivity.
Qed.




(** C4 as the specification has it fails: whatever [ast.parse] does with
    the text, the analysis does not return a single bug. *)
Lemma for_loop_counterexample :
  ¬ ∃ ast_parse res f,
      detect_bugs ast_parse Scenario.for_loop "Python" = Ok res
      ∧ bugs res = [f]
      ∧ b_type f = SyntaxError ∧ b_line f = 1
      ∧ b_fix f = "for i in range(5):".
Proof.
  intros (ast_parse & res & f & Hd & Hbugs & _).
  destruct (detect_bugs_python ast_parse Scenario.for_loop)
    as (scanned & Hs & Hd').
  assert (Hscan : scan (split_lines Scenario.for_loop) Catalog.python_rules
                  = Ok [Scenario.for_loop_bug "for i in range:";
                        Scenario.print_bug]) by by vm_compute.
  rewrite Hscan in Hs. injection Hs as <-.
  rewrite Hd' in Hd. apply bind_Ok in Hd as (ast_bugs & _ & Hd).
  injection Hd as <-. simpl in Hbugs. discriminate Hbugs.
Qed.

(** C4, amended.  The text does not parse, and the analysis returns three
    bugs: the bug of the rule for a loop without colon, a [SyntaxError] at
    line 1 with the line as its original; the bug of the rule for
    [print], at line 2; and the bug of the structural checker for the
    failure of the parse. *)
Theorem for_loop_three_bugs (ast_parse : string → Ast.parse_outcome)
    (lineno : option Z) (str_e : string) :
  ast_parse Scenario.for_loop = Ast.RaisesSyntaxError lineno str_e →
  ∃ fix_,
    detect_bugs ast_parse Scenario.for_loop "Python" =
      Ok {| bug_count := 3;
            bugs := [Scenario.for_loop_bug fix_; Scenario.print_bug;
                     syntax_error_bug lineno str_e] |}.
Proof.
  intros Hp. exists "for i in range:"%string.
  destruct (detect_bugs_python ast_parse Scenario.for_loop)
    as (scanned & Hs & ->).
  assert (Hscan : scan (split_lines Scenario.for_loop) Catalog.python_rules
                  = Ok [Scenario.for_loop_bug "for i in range:";
                        Scenario.print_bug]) by by vm_compute.
  rewrite Hscan in Hs. injection Hs as <-.
  by rewrite (python_ast_check_syntax_error _ _ _ _ Hp).
Qed.

Lemma for_loop_three_bugs_witness :
  ∃ fix_,
    detect_bugs (λ _, Ast.RaisesSyntaxError (Some 1) "invalid syntax")
      Scenario.for_loop "Python" =
      Ok {| bug_count := 3;
            bugs := [Scenario.for_loop_bug fix_; Scenario.print_bug;
                     syntax_error_bug (Some 1) "invalid syntax"] |}.
Proof.
  apply (for_loop_three_bugs
           (λ _, Ast.RaisesSyntaxError (Some 1) "invalid syntax")
           (Some 1) "invalid syntax").
  reflexivity.
Defined.

(** C5 as the specification has it fails: with the tree of the text, the
    analysis does not return a single bug. *)
Lemma division_counterexample :
  ¬ (∀ ast_parse : string → Ast.parse_outcome,
       ast_parse Scenario.division = Ast.Parsed Scenario.division_tree →
       ∃ res f,
         detect_bugs ast_parse Scenario.division "Python" = Ok res
         ∧ bugs res = [f]
         ∧ b_type f = LogicError ∧ b_line f = 1
         ∧ b_fix f = "x = 10 / y if y != 0 else 0").
Proof.
  intros H.
  destruct (H (λ _, Ast.Parsed Scenario.division_tree) eq_refl)
    as (res & f & Hd & Hbugs & _).
  vm_compute in Hd. injection Hd as <-. discriminate Hbugs.
Qed.

(** C5, amended.  The scanner finds one bug in the text, the division of
    type [LogicError] at line 1 with the guarded division as its fix; the
    structural checker adds the report that [x] is never read, so the
    analysis returns two bugs. *)
Theorem division_two_bugs (ast_parse : string → Ast.parse_outcome) :
  ast_parse Scenario.division = Ast.Parsed Scenario.division_tree →
  scan (split_lines Scenario.division) Catalog.python_rules
    = Ok [Scenario.division_bug]
  ∧ detect_bugs ast_parse Scenario.division "Python" =
      Ok {| bug_count := 2;
            bugs := [Scenario.division_bug; unused_variable_bug 1 "x"] |}.
Proof.
  intros Hp.
  assert (Hscan : scan (split_lines Scenario.division) Catalog.python_rules
                  = Ok [Scenario.division_bug]) by by vm_compute.
  split; [done|].
  destruct (detect_bugs_python ast_parse Scenario.division)
    as (scanned & Hs & ->).
  rewrite Hscan in Hs. injection Hs as <-.
  unfold python_ast_check. rewrite Hp. by vm_compute.
Qed.

Lemma division_two_bugs_witness :
  detect_bugs (λ _, Ast.Parsed Scenario.division_tree) Scenario.division "Python"
  = Ok {| bug_count := 2;
          bugs := [Scenario.division_bug; unused_variable_bug 1 "x"] |}.
Proof.
  apply (division_two_bugs (λ _, Ast.Parsed Scenario.division_tree)).
  reflexivity.
Defined.

(** C3 as the specification has it fails.  The rule for [else] fixes
    line 1 of the text with the conditional expression, and its fix no
    longer matches the rule; the text that [apply_fixes] returns does not
    parse, and the structural checker reports a [SyntaxError] at line 1
    again. *)
Lemma no_rereport_counterexample :
  ¬ no_rereport Scenario.conditional_parse Scenario.conditional "Python".
Proof.
  intros H.
  assert (Hd : detect_bugs Scenario.conditional_parse Scenario.conditional "Python"
               = Ok {| bug_count := 3; bugs := Scenario.conditional_bugs |})
    by by vm_compute.
  assert (Hfixed : apply_fixes Scenario.conditional Scenario.conditional_bugs
                   = Scenario.conditional_fixed) by by vm_compute.
  destruct (detect_bugs_python Scenario.conditional_parse
              Scenario.conditional_fixed) as (scanned & _ & Hd').
  rewrite (python_ast_check_syntax_error _ _ (Some 1)
             "invalid syntax (<unknown>, line 1)") in Hd' by by vm_compute.
  eapply (H _ _ Scenario.else_rule 1 Hd).
  - simpl. rewrite Hfixed. exact Hd'.
  - rewrite bug_patterns_python. simpl. unfold Catalog.python_rules.
    do 2 apply list_elem_of_further. apply list_elem_of_here.
  - exists "x = 1 if c else 2"%string, [], "else:"%string.
    repeat split; solve [lia | by vm_compute].
  - exists (syntax_error_bug (Some 1) "invalid syntax (<unknown>, line 1)").
    simpl. split; [|done]. apply elem_of_app. right. apply list_elem_of_here.
Qed.

(** C3, amended.  After all the fixes, a line that bugs name holds the
    fix of the last of them (the fixes being of one line each), and the
    scanner reports a rule on a line of the new text exactly when the
    pattern of the rule matches that line.  So a rule whose pattern does
    not match the fix that a line now holds has no hit on that line; other
    rules, and the structural checker, may report the line again. *)
Theorem fixed_line_not_rescanned (ast_parse : string → Ast.parse_outcome)
    (code language : string) (res : analysis) (r : rule) (i : Z) (b : bug) :
  detect_bugs ast_parse code language = Ok res →
  Forall (λ x, newline_free (b_fix x) = true) (bugs res) →
  1 ≤ i ≤ Z.of_nat (length (split_lines code)) →
  last (on_line i (bugs res)) = Some b →
  Re.search (r_pattern r) (b_fix b) = None →
  let code' := apply_fixes code (bugs res) in
  let rules := default [] (Catalog.bug_patterns !! language) in
  split_lines code' !! Z.to_nat (i - 1) = Some (b_fix b)
  ∧ scan (split_lines code') rules
    = collect (bug_of_hit <$> hits (split_lines code') rules)
  ∧ ∀ h, h ∈ hits (split_lines code') rules → h_line_no h = i → h_rule h ≠ r.
Proof.
  intros _ Hfree Hi Hlast Hnone code' rules.
  assert (Hline : split_lines code' !! Z.to_nat (i - 1) = Some (b_fix b)).
  { unfold code'. rewrite split_lines_apply_fixes by done.
    rewrite fixed_lines_lookup by lia.
    replace (Z.of_nat (Z.to_nat (i - 1)) + 1) with i by lia.
    by rewrite Hlast. }
  split; [done|]. split; [apply scan_hits|].
  intros h Hh Hno Hr.
  destruct (hits_lookup _ _ _ Hh) as [_ Htext].
  destruct (hits_spec _ _ _ Hh) as [_ Hsearch].
  rewrite Hno, Hline in Htext. injection Htext as Htext.
  rewrite <- Htext, Hr, Hnone in Hsearch. discriminate Hsearch.
Qed.

Lemma fixed_line_not_rescanned_witness :
  let code' := apply_fixes Scenario.conditional Scenario.conditional_bugs in
  split_lines code' !! 0%nat = Some "else:"
  ∧ ∀ h, h ∈ hits (split_lines code') Catalog.python_rules →
         h_line_no h = 1 → h_rule h ≠ Scenario.else_rule.
Proof.
  intros code'.
  destruct (fixed_line_not_rescanned Scenario.conditional_parse
              Scenario.conditional "Python"
              {| bug_count := 3; bugs := Scenario.conditional_bugs |}
              Scenario.else_rule 1 Scenario.else_bug)
    as (Hline & _ & Hhits).
  - by vm_compute.
  - repeat constructor.
  - vm_compute. split; discriminate.
  - reflexivity.
  - by vm_compute.
  - split; [exact Hline|exact Hhits].
Defined.

End Claims.

(** * Further properties of the analyzer *)

Section RectifyMore.
Import Rectify.

Lemma fixed_lines_foldl (code : string) (bugs : list bug) :
  fixed_lines code bugs = foldl apply_fix (split_lines code) bugs.
Proof.
  apply list_eq. intros i.
  destruct (decide (i < length (split_lines code))%nat) as [Hi|Hi].
  - rewrite fixed_lines_lookup, foldl_apply_fix_lookup by done. done.
  - rewrite !lookup_ge_None_2; [done| |].
    + rewrite foldl_apply_fix_length. lia.
    + rewrite fixed_lines_length. lia.
Qed.

(** X1.  The sort of [apply_fixes] does not show in its result: the loop over
    the bugs in the order of the input leaves the same lines. *)
Theorem apply_fixes_unsorted (code : string) (bugs : list bug) :
  fixed_lines code bugs = foldl apply_fix (split_lines code) bugs
  ∧ apply_fixes code bugs = join_lines (foldl apply_fix (split_lines code) bugs).
Proof.
  split; [apply fixed_lines_foldl|].
  unfold apply_fixes. by rewrite fixed_lines_foldl.
Qed.

(** X2.  [apply_fixes] looks at the last bug of each line of the text only:
    two lists of bugs whose last fix is the same for every line of the
    text give the same text, whatever else they hold (bugs for lines out
    of the text, earlier bugs of a line, another order of the lines). *)
Theorem apply_fixes_last_of_each_line (code : string) (bugs bugs' : list bug) :
  (∀ k, 1 ≤ k ≤ Z.of_nat (length (split_lines code)) →
        b_fix <$> last (on_line k bugs) = b_fix <$> last (on_line k bugs')) →
  apply_fixes code bugs = apply_fixes code bugs'.
Proof.
  intros Hlast. unfold apply_fixes. f_equal. apply list_eq. intros i.
  destruct (decide (i < length (split_lines code))%nat) as [Hi|Hi].
  - rewrite !fixed_lines_lookup by done.
    specialize (Hlast (Z.of_nat i + 1)).
    destruct (last (on_line (Z.of_nat i + 1) bugs)) as [b|],
             (last (on_line (Z.of_nat i + 1) bugs')) as [b'|];
      simpl in Hlast; try done;
      (assert (Hr : 1 ≤ Z.of_nat i + 1 ≤ Z.of_nat (length (split_lines code)))
         by lia; specialize (Hlast Hr); by inversion Hlast).
  - rewrite !lookup_ge_None_2; [done|rewrite fixed_lines_length; lia..].
Qed.

Lemma apply_fixes_last_of_each_line_witness :
  apply_fixes Scenario.five_lines Scenario.three_fixes
  = apply_fixes Scenario.five_lines
      [mk_bug SyntaxError 5 "" None "E1"; mk_bug LogicError 9 "" None "out";
       mk_bug StyleWarning 2 "" None "B2"].
Proof.
  apply apply_fixes_last_of_each_line. intros k Hk.
  assert (Hcases : k = 1 ∨ k = 2 ∨ k = 3 ∨ k = 4 ∨ k = 5).
  { change (Z.of_nat (length (split_lines Scenario.five_lines))) with 5 in Hk.
    lia. }
  destruct Hcases as [->|[->|[->|[->| ->]]]]; reflexivity.
Defined.

(** X3.  With one bug, [apply_fixes] is [rectify_bug]; with none, it gives the
    text back. *)
Theorem apply_fixes_one (code : string) (b : bug) :
  apply_fixes code [] = code
  ∧ apply_fixes code [b] = (rectify_bug code b).1.
Proof.
  split.
  - unfold apply_fixes, fixed_lines. simpl. apply join_split_lines.
  - unfold apply_fixes, fixed_lines, rectify_bug. simpl. unfold apply_fix.
    destruct (in_range (b_line b - 1) (split_lines code)); simpl; [done|].
    apply join_split_lines.
Qed.

Lemma split_lines_ne_nil (code : string) : split_lines code ≠ [].
Proof. destruct (split_lines_cons code) as (l & ls & ->). done. Qed.

Lemma split_join_lines' (lines : list string) :
  lines ≠ [] → Forall (λ x, newline_free x = true) lines →
  split_lines (join_lines lines) = lines.
Proof. destruct lines as [|l ls]; [done|]. intros _. apply split_join_lines. Qed.

Lemma apply_fix_ne_nil (lines : list string) (b : bug) :
  lines ≠ [] → apply_fix lines b ≠ [].
Proof.
  intros Hne Hnil. apply (f_equal length) in Hnil.
  rewrite apply_fix_length in Hnil. by destruct lines.
Qed.

(** On a text that is given by its lines, [rectify_bug] is one turn of
    the loop of [apply_fixes]. *)
Lemma rectify_bug_join (lines : list string) (b : bug) :
  lines ≠ [] → Forall (λ x, newline_free x = true) lines →
  (rectify_bug (join_lines lines) b).1 = join_lines (apply_fix lines b).
Proof.
  intros Hne Hfree. unfold rectify_bug, apply_fix.
  rewrite split_join_lines' by done.
  by destruct (in_range (b_line b - 1) lines).
Qed.

Lemma foldl_rectify_bug (code : string) (bugs : list bug) :
  Forall (λ b, newline_free (b_fix b) = true) bugs →
  foldl (λ text b, (rectify_bug text b).1) code bugs = apply_fixes code bugs.
Proof.
  intros Hfree. unfold apply_fixes. rewrite fixed_lines_foldl.
  rewrite <- (join_split_lines code) at 1.
  pose proof (split_lines_ne_nil code) as Hne.
  pose proof (newline_free_split_lines code) as Hl.
  revert Hne Hl. generalize (split_lines code). clear code.
  induction Hfree as [|b bugs Hb _ IH]; intros lines Hne Hl; [done|].
  simpl. rewrite rectify_bug_join by done.
  apply IH; [by apply apply_fix_ne_nil|by apply apply_fix_newline_free].
Qed.

(** X4.  Fixing the bugs one after the other with [rectify_bug], in the order
    of the list, gives the text of [apply_fixes], when every fix is one
    line. *)
Theorem rectify_in_turn (code : string) (bugs : list bug) :
  Forall (λ b, newline_free (b_fix b) = true) bugs →
  foldl (λ text b, (rectify_bug text b).1) code bugs = apply_fixes code bugs.
Proof. apply foldl_rectify_bug. Qed.

Lemma rectify_in_turn_witness :
  foldl (λ text b, (rectify_bug text b).1) Scenario.five_lines
    Scenario.three_fixes
  = apply_fixes Scenario.five_lines Scenario.three_fixes.
Proof. apply rectify_in_turn. repeat constructor. Defined.

(** X5.  Fixing a bug twice is fixing it once: the second call finds the fix
    on the line and leaves the text as it is. *)
Theorem rectify_bug_twice (code : string) (b : bug) :
  newline_free (b_fix b) = true →
  rectify_bug (rectify_bug code b).1 b
  = ((rectify_bug code b).1, (λ _, b_fix b) <$> (rectify_bug code b).2).
Proof.
  intros Hfree. unfold rectify_bug at 2 3 4.
  destruct (in_range (b_line b - 1) (split_lines code)) eqn:Hin; simpl.
  - set (i := Z.to_nat (b_line b - 1)).
    set (lines' := <[i := b_fix b]> (split_lines code)).
    assert (Hne : lines' ≠ []).
    { intros Hnil. apply (f_equal length) in Hnil. unfold lines' in Hnil.
      rewrite length_insert in Hnil. pose proof (split_lines_length code).
      simpl in Hnil. lia. }
    assert (Hl : Forall (λ x, newline_free x = true) lines').
    { apply Forall_insert; [apply newline_free_split_lines|done]. }
    unfold rectify_bug. rewrite split_join_lines' by done.
    assert (Hin' : in_range (b_line b - 1) lines' = true).
    { apply in_range_spec. apply in_range_spec in Hin.
      unfold lines'. rewrite length_insert. done. }
    rewrite Hin'. fold i. apply in_range_spec in Hin.
    assert (Hi : lines' !! i = Some (b_fix b)).
    { unfold lines'. apply list_lookup_insert_eq. unfold i. lia. }
    rewrite Hi. simpl. by rewrite (list_insert_id _ _ _ Hi).
  - unfold rectify_bug. by rewrite Hin.
Qed.

Lemma rectify_bug_twice_witness :
  rectify_bug
    (rectify_bug Scenario.five_lines (mk_bug StyleWarning 2 "" None "B1")).1
    (mk_bug StyleWarning 2 "" None "B1")
  = (join_lines ["a"; "B1"; "c"; "d"; "e"], Some "B1").
Proof.
  apply (rectify_bug_twice Scenario.five_lines
           (mk_bug StyleWarning 2 "" None "B1")).
  reflexivity.
Defined.

(** X6.  The line that [rectify_bug] returns undoes the fix: putting it back
    on the same line gives the first text, and returns the fix. *)
Theorem rectify_bug_undo (code text : string) (b : bug) (original_line : string) :
  newline_free (b_fix b) = true →
  rectify_bug code b = (text, Some original_line) →
  rectify_bug text
    {| b_type := b_type b; b_line := b_line b;
       b_description := b_description b; b_original := b_original b;
       b_fix := original_line |}
  = (code, Some (b_fix b)).
Proof.
  intros Hfree. unfold rectify_bug at 1.
  destruct (in_range (b_line b - 1) (split_lines code)) eqn:Hin; [|done].
  set (i := Z.to_nat (b_line b - 1)).
  intros [= <- Ho].
  set (lines' := <[i := b_fix b]> (split_lines code)).
  assert (Hi : (i < length (split_lines code))%nat).
  { apply in_range_spec in Hin. unfold i. lia. }
  destruct (lookup_lt_is_Some_2 _ _ Hi) as [o Hlook].
  rewrite Hlook in Ho. simpl in Ho. subst o.
  assert (Hne : lines' ≠ []).
  { intros Hnil. apply (f_equal length) in Hnil. unfold lines' in Hnil.
    rewrite length_insert in Hnil. simpl in Hnil. lia. }
  assert (Hl : Forall (λ x, newline_free x = true) lines').
  { apply Forall_insert; [apply newline_free_split_lines|done]. }
  unfold rectify_bug. simpl. rewrite split_join_lines' by done.
  assert (Hin' : in_range (b_line b - 1) lines' = true).
  { apply in_range_spec. apply in_range_spec in Hin.
    unfold lines'. rewrite length_insert. done. }
  rewrite Hin'. fold i. unfold lines'.
  rewrite list_lookup_insert_eq by done. simpl.
  rewrite list_insert_insert_eq, (list_insert_id _ _ _ Hlook).
  by rewrite join_split_lines.
Qed.

Lemma rectify_bug_undo_witness :
  rectify_bug (join_lines ["a"; "B1"; "c"; "d"; "e"])
    (mk_bug StyleWarning 2 "" None "b")
  = (Scenario.five_lines, Some "B1").
Proof.
  apply (rectify_bug_undo Scenario.five_lines _
           (mk_bug StyleWarning 2 "" None "B1") "b"); reflexivity.
Defined.

End RectifyMore.

Section MatcherMore.
Import Re.

(** What holds of the result of every continuation, on the rest of a line
    and with groups taken from the line, holds of the result of the
    matcher, if it holds of a failure and of the first success of two
    tries. *)
Lemma m_inv (Φ : option captures → Prop) :
  Φ None →
  (∀ a b, Φ a → Φ b → Φ (match a with Some x => Some x | None => b end)) →
  ∀ r s c k,
    no_newline s → captures_free c →
    (∀ s' c', no_newline s' → captures_free c' → Φ (k s' c')) →
    Φ (m r s c k).
Proof.
  intros Hnone Hor. induction r as [|a|cs|r1 IH1 r2 IH2|r1 IH1 r2 IH2
                                    |greedy r1 IH1|i r1 IH1|r1 IH1| |i];
    intros s c k Hs Hc Hk; simpl.
  - by apply Hk.
  - destruct s as [|x s']; [done|]. destruct (Ascii.eqb x a); [|done].
    apply Hk; [by inversion Hs|done].
  - destruct s as [|x s']; [done|]. destruct (in_charset cs x); [|done].
    apply Hk; [by inversion Hs|done].
  - apply IH1; [done..|]. intros s1 c1 Hs1 Hc1. by apply IH2.
  - apply Hor; [by apply IH1|by apply IH2].
  - generalize (length s) at 1. intros n. revert s c Hs Hc.
    induction n as [|n IHn]; intros s c Hs Hc.
    + destruct greedy; simpl.
      * by apply Hk.
      * apply Hor; [by apply Hk|done].
    + assert (Hagain : Φ (m r1 s c (λ s1 c1,
                  if (length s1 <? length s)%nat
                  then (fix turns (n0 : nat) (s0 : list ascii) (c0 : captures)
                          {struct n0} : option captures :=
                          let again (_ : unit) :=
                            match n0 with
                            | O => None
                            | S n' =>
                                m r1 s0 c0 (λ s2 c2,
                                  if (length s2 <? length s0)%nat
                                  then turns n' s2 c2 else None)
                            end in
                          if greedy then
                            match again () with
                            | Some c' => Some c'
                            | None => k s0 c0
                            end
                          else
                            match k s0 c0 with
                            | Some c' => Some c'
                            | None => again ()
                            end) n s1 c1
                  else None))).
      { apply IH1; [done..|]. intros s1 c1 Hs1 Hc1.
        destruct (length s1 <? length s)%nat; [by apply IHn|done]. }
      destruct greedy; simpl; (apply Hor; [|]); try done; by apply Hk.
  - apply IH1; [done..|]. intros s1 c1 Hs1 Hc1. apply Hk; [done|].
    constructor; [|done]. simpl. by apply Forall_take.
  - destruct (m r1 s c _); [done|]. by apply Hk.
  - destruct s as [|x [|y s']]; [by apply Hk| |done].
    destruct (Ascii.eqb x newline); [by apply Hk|done].
  - destruct (capture i c) as [t|]; [|done].
    destruct (starts_with t s) as [s'|] eqn:Hst; [|done].
    apply Hk; [|done]. clear -Hst Hs. revert s Hst Hs.
    induction t as [|a t IH]; intros s Hst Hs; simpl in Hst.
    + by injection Hst as <-.
    + destruct s as [|b s0]; [done|]. destruct (Ascii.eqb a b); [|done].
      apply (IH s0); [done|by inversion Hs].
Qed.

(** If every continuation fails, the matcher fails. *)
Lemma m_fails (r : regex) (s : list ascii) (c : captures)
    (k : list ascii → captures → option captures) :
  no_newline s → captures_free c →
  (∀ s' c', no_newline s' → captures_free c' → k s' c' = None) →
  m r s c k = None.
Proof.
  apply (m_inv (λ res, res = None)); [done|]. by intros a b -> ->.
Qed.

(** The groups of a match on a line hold no line break. *)
Lemma m_captures_free (r : regex) (s : list ascii) (c res : captures)
    (k : list ascii → captures → option captures) :
  no_newline s → captures_free c →
  (∀ s' c' res', no_newline s' → captures_free c' →
                 k s' c' = Some res' → captures_free res') →
  m r s c k = Some res → captures_free res.
Proof.
  intros Hs Hc Hk Hm.
  apply (m_inv (λ out, ∀ res', out = Some res' → captures_free res'))
    with (r := r) (s := s) (c := c) (k := k); try done.
  - intros [x|] b Ha Hb res'; [apply Ha|apply Hb].
  - intros s' c' Hs' Hc' res'. by apply Hk.
Qed.

(** A pattern that has to read a line break matches nowhere on a line. *)
Lemma m_needs_newline (r : regex) (s : list ascii) (c : captures)
    (k : list ascii → captures → option captures) :
  needs_newline r = true → no_newline s → captures_free c → m r s c k = None.
Proof.
  revert s c k. induction r as [|a|cs|r1 IH1 r2 IH2|r1 IH1 r2 IH2
                                |greedy r1 IH1|i r1 IH1|r1 IH1| |i];
    intros s c k Hneeds Hs Hc; simpl in Hneeds; try done; simpl.
  - destruct s as [|x s']; [done|].
    destruct (Ascii.eqb_spec x a) as [->|]; [|done].
    apply Ascii.eqb_eq in Hneeds. subst a. by inversion Hs.
  - apply orb_prop in Hneeds as [H1|H2]; [by apply IH1|].
    apply m_fails; [done..|]. intros s' c' Hs' Hc'. by apply IH2.
  - apply andb_prop in Hneeds as [H1 H2]. by rewrite IH1, IH2.
  - by apply IH1.
Qed.

Lemma no_newline_of_string (t : string) :
  newline_free t = true ↔ no_newline (list_ascii_of_string t).
Proof.
  unfold no_newline. induction t as [|a t IH]; simpl.
  - split; [constructor|done].
  - rewrite andb_true_iff, negb_true_iff, Forall_cons, IH.
    destruct (Ascii.eqb_spec a newline); split; intros [? ?]; split;
      congruence.
Qed.

Lemma search_from_needs_newline (r : regex) (s : list ascii) :
  needs_newline r = true → no_newline s → search_from r s = None.
Proof.
  intros Hr. induction s as [|a s IH]; intros Hs; simpl.
  - by rewrite m_needs_newline by (done || constructor).
  - rewrite m_needs_newline by (done || constructor).
    apply IH. by inversion Hs.
Qed.

Lemma search_from_free (r : regex) (s : list ascii) (gs : list (option string)) :
  no_newline s → search_from r s = Some gs →
  Forall (λ g, ∀ t, g = Some t → newline_free t = true) gs.
Proof.
  induction s as [|a s IH]; intros Hs; simpl.
  - destruct (m r [] [] _) as [c|] eqn:Hm; [|done]. intros [= <-].
    apply m_captures_free in Hm; [|done|constructor|by intros ? ? ? ? ? [= <-]].
    revert Hm. generalize c. clear. intros c Hc.
    unfold groups. apply Forall_fmap, Forall_forall. intros i _ t. simpl.
    destruct (capture i c) as [u|] eqn:Hu; [|done]. intros [= <-].
    apply no_newline_of_string. rewrite list_ascii_of_string_of_list_ascii.
    clear -Hu Hc. induction c as [|[j v] c IH]; [done|]. simpl in Hu.
    inversion Hc; subst. destruct (Nat.eqb i j); [by injection Hu as <-|].
    by apply IH.
  - destruct (m r (a :: s) [] _) as [c|] eqn:Hm.
    + intros [= <-].
      apply m_captures_free in Hm; [|done|constructor|by intros ? ? ? ? ? [= <-]].
      revert Hm. generalize c. clear. intros c Hc.
      unfold groups. apply Forall_fmap, Forall_forall. intros i _ t. simpl.
      destruct (capture i c) as [u|] eqn:Hu; [|done]. intros [= <-].
      apply no_newline_of_string. rewrite list_ascii_of_string_of_list_ascii.
      clear -Hu Hc. induction c as [|[j v] c IH]; [done|]. simpl in Hu.
      inversion Hc; subst. destruct (Nat.eqb i j); [by injection Hu as <-|].
      by apply IH.
    + apply IH. by inversion Hs.
Qed.

End MatcherMore.

Section AnalyzerMore.
Import Rectify.

Lemma newline_free_app (x y : string) :
  newline_free (x +:+ y) = newline_free x && newline_free y.
Proof.
  induction x as [|a x IH]; [done|].
  change (newline_free (String a (x +:+ y))
          = newline_free (String a x) && newline_free y).
  simpl. by rewrite IH, andb_assoc.
Qed.

Lemma get_field_free (name : list ascii) (args : list (option string)) (t : string) :
  Forall (λ g, ∀ u, g = Some u → newline_free u = true) args →
  Format.get_field name args = Ok t → newline_free t = true.
Proof.
  intros Hargs. unfold Format.get_field. destruct name as [|a name]; [done|].
  destruct (Format.field_index 0 (a :: name)) as [i|]; [|done].
  destruct (args !! i) as [arg|] eqn:Hi; [|done]. intros [= <-].
  rewrite Forall_lookup in Hargs. specialize (Hargs i arg Hi).
  destruct arg as [u|]; [by apply Hargs|done].
Qed.

Lemma format_from_free_aux (args : list (option string)) (n : nat) :
  Forall (λ g, ∀ u, g = Some u → newline_free u = true) args →
  ∀ template field out,
    (length template ≤ n)%nat → no_newline template →
    Format.format_from template field args = Ok out → newline_free out = true.
Proof.
  intros Hargs. induction n as [|n IH]; intros template field out Hlen Ht.
  - destruct template; [|simpl in Hlen; lia]. simpl.
    destruct field; [done|]. by intros [= <-].
  - destruct template as [|c rest]; simpl.
    { destruct field; [done|]. by intros [= <-]. }
    simpl in Hlen. inversion Ht as [|? ? Hc Hrest]; subst.
    assert (Hnl : Ascii.eqb c newline = false) by by apply Ascii.eqb_neq.
    destruct field as [name|].
    + destruct (Ascii.eqb c Format.rbrace); [|apply IH; [lia|done]].
      intros (arg & Harg & (o & Ho & [= <-])%bind_Ok)%bind_Ok.
      rewrite newline_free_app, (get_field_free _ _ _ Hargs Harg). simpl.
      apply (IH rest None); [lia|done..].
    + destruct (Ascii.eqb c Format.lbrace) eqn:Hl.
      { destruct rest as [|c' rest']; [done|].
        inversion Hrest as [|? ? Hc' Hrest']; subst. simpl in Hlen.
        destruct (Ascii.eqb c' Format.lbrace).
        - intros (o & Ho & [= <-])%bind_Ok. simpl.
          apply (IH rest' None); [lia|done..].
        - apply IH; [simpl; lia|done]. }
      destruct (Ascii.eqb c Format.rbrace) eqn:Hr.
      { destruct rest as [|c' rest']; [done|].
        inversion Hrest as [|? ? Hc' Hrest']; subst. simpl in Hlen.
        destruct (Ascii.eqb c' Format.rbrace); [|done].
        intros (o & Ho & [= <-])%bind_Ok. simpl.
        apply (IH rest' None); [lia|done..]. }
      intros (o & Ho & [= <-])%bind_Ok. simpl. rewrite Hnl. simpl.
      apply (IH rest None); [lia|done..].
Qed.

(** [render] puts no line break in the fix, when the template and the
    groups have none. *)
Lemma render_free (template : string) (gs : list (option string)) (t : string) :
  newline_free template = true →
  Forall (λ g, ∀ u, g = Some u → newline_free u = true) gs →
  render template gs = Ok t → newline_free t = true.
Proof.
  intros Ht Hgs. unfold render. destruct gs as [|g gs]; [by intros [= <-]|].
  unfold Format.format.
  apply (format_from_free_aux _ _ Hgs _ None t (Nat.le_refl _)).
  by apply no_newline_of_string.
Qed.

Lemma bug_patterns_cpp :
  Catalog.bug_patterns !! "C++" = Some Catalog.cpp_rules.
Proof. reflexivity. Qed.

Lemma bug_patterns_javascript :
  Catalog.bug_patterns !! "JavaScript" = Some Catalog.javascript_rules.
Proof. reflexivity. Qed.

(** The rules of a language, by cases on the language. *)
Lemma rules_cases (language : string) :
  let rules := default [] (Catalog.bug_patterns !! language) in
  rules = Catalog.python_rules ∨ rules = Catalog.java_rules
  ∨ rules = Catalog.cpp_rules ∨ rules = Catalog.javascript_rules
  ∨ rules = [].
Proof.
  destruct (decide (language = "Python")) as [->|Hpy]; [by left|].
  destruct (decide (language = "Java")) as [->|Hjava]; [by right; left|].
  destruct (decide (language = "C++")) as [->|Hcpp]; [by right; right; left|].
  destruct (decide (language = "JavaScript")) as [->|Hjs];
    [by right; right; right; left|].
  right; right; right; right. simpl. by rewrite bug_patterns_other.
Qed.

Lemma table_templates_free (language : string) (r : rule) :
  r ∈ default [] (Catalog.bug_patterns !! language) →
  newline_free (r_fix_template r) = true.
Proof.
  destruct (rules_cases language) as [->|[->|[->|[->| ->]]]]; intros Hr;
    repeat (apply elem_of_cons in Hr as [->|Hr]; [reflexivity|]);
    by apply elem_of_nil in Hr.
Qed.

(** A bug of the scanner comes from a hit. *)
Lemma collected_bug_hit (hs : list hit) (bs : list bug) (b : bug) :
  collect (bug_of_hit <$> hs) = Ok bs → b ∈ bs →
  ∃ h, h ∈ hs
       ∧ b_type b = r_bug_type (h_rule h)
       ∧ b_line b = h_line_no h
       ∧ b_description b = r_description (h_rule h)
       ∧ b_original b = Some (h_text h)
       ∧ render (r_fix_template (h_rule h)) (h_groups h) = Ok (b_fix b).
Proof.
  intros Hc%collect_bug_of_hit Hb.
  induction Hc as [|h b' hs bs Hhb _ IH]; [by apply elem_of_nil in Hb|].
  apply elem_of_cons in Hb as [->|Hb].
  - exists h. split; [by left|done].
  - destruct (IH Hb) as (h' & Hh' & Hrest). exists h'. split; [by right|done].
Qed.

(** The bugs of the structural checker carry no original line. *)
Lemma checker_bugs_original (ast_parse : string → Ast.parse_outcome)
    (language code : string) (ast_bugs : list bug) (b : bug) :
  checker_bugs ast_parse language code = Ok ast_bugs → b ∈ ast_bugs →
  b_original b = None.
Proof.
  destruct (decide (language = "Python")) as [->|Hl].
  - rewrite checker_bugs_python.
    destruct (ast_parse code) as [tree|lineno str_e|e] eqn:Hp.
    + rewrite (python_ast_check_parsed _ _ _ Hp). intros [= <-] Hb.
      apply elem_of_app in Hb as [Hb|Hb].
      * apply list_elem_of_In, in_flat_map in Hb as (v & _ & Hb).
        pose proof (unused_block_Forall (Ast.walk tree) v) as Hall.
        rewrite Forall_forall in Hall.
        by destruct (Hall b (proj2 (list_elem_of_In _ _) Hb)) as [ln ->].
      * unfold bare_excepts in Hb.
        apply list_elem_of_In, in_flat_map in Hb as (n & _ & Hb).
        destruct n as [| |ln [t|] body|]; simpl in Hb; try done.
        by destruct Hb as [<-|[]].
    + rewrite (python_ast_check_syntax_error _ _ _ _ Hp). intros [= <-] Hb.
      by apply list_elem_of_singleton in Hb as ->.
    + unfold python_ast_check. by rewrite Hp.
  - rewrite checker_bugs_other by done. intros [= <-] Hb.
    by apply elem_of_nil in Hb.
Qed.

(** With a fix of one line, the lines of the text that [rectify_bug]
    returns are the lines after one turn of the loop. *)
Lemma rectify_bug_lines (code : string) (b : bug) :
  newline_free (b_fix b) = true →
  split_lines (rectify_bug code b).1 = apply_fix (split_lines code) b.
Proof.
  intros Hfree. rewrite <- (join_split_lines code) at 1.
  rewrite rectify_bug_join
    by (apply split_lines_ne_nil || apply newline_free_split_lines).
  apply split_join_lines'.
  - apply apply_fix_ne_nil, split_lines_ne_nil.
  - apply apply_fix_newline_free; [apply newline_free_split_lines|done].
Qed.

End AnalyzerMore.

Section AnalyzerTheorems.
Import Rectify.

(** A bug of the result is a bug of the scanner, with its hit, or a bug
    of the structural checker. *)
Lemma detect_bugs_bug (ast_parse : string → Ast.parse_outcome)
    (code language : string) (res : analysis) (b : bug) :
  detect_bugs ast_parse code language = Ok res → b ∈ bugs res →
  (∃ h, h ∈ hits (split_lines code)
              (default [] (Catalog.bug_patterns !! language))
        ∧ b_type b = r_bug_type (h_rule h)
        ∧ b_line b = h_line_no h
        ∧ b_description b = r_description (h_rule h)
        ∧ b_original b = Some (h_text h)
        ∧ render (r_fix_template (h_rule h)) (h_groups h) = Ok (b_fix b))
  ∨ (∃ ast_bugs, checker_bugs ast_parse language code = Ok ast_bugs
                 ∧ b ∈ ast_bugs).
Proof.
  intros (scanned & ast_bugs & Hs & Ha & ->)%detect_bugs_order Hb.
  apply elem_of_app in Hb as [Hb|Hb].
  - left. by apply (collected_bug_hit _ scanned).
  - right. by exists ast_bugs.
Qed.

(** X7.  A bug of the result that carries an original line names a line of the
    text, and the original is the text of that line: [rectify_bug] with
    the bug replaces that line and returns the original. *)
Theorem original_is_the_line (ast_parse : string → Ast.parse_outcome)
    (code language : string) (res : analysis) (b : bug) (t : string) :
  detect_bugs ast_parse code language = Ok res →
  b ∈ bugs res → b_original b = Some t →
  1 ≤ b_line b ≤ Z.of_nat (length (split_lines code))
  ∧ split_lines code !! Z.to_nat (b_line b - 1) = Some t
  ∧ (rectify_bug code b).2 = Some t.
Proof.
  intros Hd Hb Ho.
  destruct (detect_bugs_bug _ _ _ _ _ Hd Hb)
    as [(h & Hh & _ & Hline & _ & Horig & _)|(ast_bugs & Ha & Hin)].
  - destruct (hits_lookup _ _ _ Hh) as [Hge Hlook].
    rewrite Horig in Ho. injection Ho as <-. rewrite <- Hline in Hge, Hlook.
    pose proof (lookup_lt_Some _ _ _ Hlook) as Hlt.
    assert (Hr : 1 ≤ b_line b ≤ Z.of_nat (length (split_lines code))) by lia.
    repeat split; try lia; [done|].
    unfold rectify_bug.
    assert (Hin : in_range (b_line b - 1) (split_lines code) = true)
      by (apply in_range_spec; lia).
    rewrite Hin. simpl. by rewrite Hlook.
  - by rewrite (checker_bugs_original _ _ _ _ _ Ha Hin) in Ho.
Qed.

Lemma original_is_the_line_witness :
  split_lines Scenario.division !! 0%nat = Some "x = 10 / y"%string
  ∧ (rectify_bug Scenario.division Scenario.division_bug).2
    = Some "x = 10 / y"%string.
Proof.
  destruct (original_is_the_line (λ _, Ast.Parsed Scenario.division_tree)
              Scenario.division "Python"
              {| bug_count := 2;
                 bugs := [Scenario.division_bug; unused_variable_bug 1 "x"] |}
              Scenario.division_bug "x = 10 / y")
    as (_ & Hline & Hrect).
  - by vm_compute.
  - apply list_elem_of_here.
  - reflexivity.
  - split; [exact Hline|exact Hrect].
Defined.

(** X8.  The fix of a bug of the scanner is one line, in every language of the
    table: [rectify_bug] with it keeps the number of lines of the text, so
    the line numbers of the other bugs still name the same lines. *)
Theorem scanner_fix_is_one_line (ast_parse : string → Ast.parse_outcome)
    (code language : string) (res : analysis) (b : bug) (t : string) :
  detect_bugs ast_parse code language = Ok res →
  b ∈ bugs res → b_original b = Some t →
  newline_free (b_fix b) = true
  ∧ length (split_lines (rectify_bug code b).1) = length (split_lines code)
  ∧ ∀ j, j ≠ Z.to_nat (b_line b - 1) →
         split_lines (rectify_bug code b).1 !! j = split_lines code !! j.
Proof.
  intros Hd Hb Ho.
  assert (Hfree : newline_free (b_fix b) = true).
  { destruct (detect_bugs_bug _ _ _ _ _ Hd Hb)
      as [(h & Hh & _ & _ & _ & _ & Hrender)|(ast_bugs & Ha & Hin)].
    - destruct (hits_spec _ _ _ Hh) as [Hrule Hsearch].
      destruct (hits_lookup _ _ _ Hh) as [_ Hlook].
      apply (render_free _ _ _ (table_templates_free _ _ Hrule)) in Hrender;
        [done|].
      apply (search_from_free (r_pattern (h_rule h))
               (list_ascii_of_string (h_text h))); [|done].
      apply no_newline_of_string.
      pose proof (newline_free_split_lines code) as Hall.
      rewrite Forall_lookup in Hall. by apply (Hall _ _ Hlook).
    - by rewrite (checker_bugs_original _ _ _ _ _ Ha Hin) in Ho. }
  split; [done|]. rewrite rectify_bug_lines by done.
  split; [apply apply_fix_length|].
  intros j Hj. unfold apply_fix.
  destruct (in_range (b_line b - 1) (split_lines code)); [|done].
  by apply list_lookup_insert_ne.
Qed.

Lemma scanner_fix_is_one_line_witness :
  newline_free (b_fix Scenario.division_bug) = true
  ∧ length (split_lines
              (rectify_bug Scenario.division Scenario.division_bug).1)
    = length (split_lines Scenario.division).
Proof.
  destruct (scanner_fix_is_one_line (λ _, Ast.Parsed Scenario.division_tree)
              Scenario.division "Python"
              {| bug_count := 2;
                 bugs := [Scenario.division_bug; unused_variable_bug 1 "x"] |}
              Scenario.division_bug "x = 10 / y")
    as (Hfree & Hlen & _).
  - by vm_compute.
  - apply list_elem_of_here.
  - reflexivity.
  - split; [exact Hfree|exact Hlen].
Defined.

(** X11.  The rules of Java and of C++ never give a bug: their templates end in
    a brace, and their patterns have a group, so the first line that
    matches makes [detect_bugs] raise [ValueError]; the result for a text
    without such a line is empty. *)
Theorem brace_languages_report_nothing (ast_parse : string → Ast.parse_outcome)
    (code language : string) :
  language = "Java" ∨ language = "C++" →
  detect_bugs ast_parse code language =
    match hits (split_lines code)
            (default [] (Catalog.bug_patterns !! language)) with
    | [] => Ok {| bug_count := 0; bugs := [] |}
    | _ :: _ => Raise ValueError
    end.
Proof.
  intros Hl. rewrite detect_bugs_unfold, scan_hits.
  rewrite checker_bugs_other by (destruct Hl as [->| ->]; done).
  set (rules := default [] (Catalog.bug_patterns !! language)).
  assert (Hrules : ∀ r gs, r ∈ rules → length gs = 1%nat →
                     render (r_fix_template r) gs = Raise ValueError).
  { intros r gs Hr Hgs. destruct gs as [|g [|g' gs]]; try done.
    unfold rules in Hr.
    destruct Hl as [-> | ->]; simpl in Hr;
      repeat (apply elem_of_cons in Hr as [->|Hr]; [reflexivity|]);
      by apply elem_of_nil in Hr. }
  assert (Hgroups : ∀ r, r ∈ rules → Re.ngroups (r_pattern r) = 1%nat).
  { intros r Hr. unfold rules in Hr.
    destruct Hl as [-> | ->]; simpl in Hr;
      repeat (apply elem_of_cons in Hr as [->|Hr]; [reflexivity|]);
      by apply elem_of_nil in Hr. }
  destruct (hits (split_lines code) rules) as [|h hs] eqn:Hhits; [done|].
  assert (Hh : h ∈ hits (split_lines code) rules)
    by (rewrite Hhits; apply list_elem_of_here).
  destruct (hits_spec _ _ _ Hh) as [Hr Hsearch].
  apply search_length in Hsearch. rewrite (Hgroups _ Hr) in Hsearch.
  simpl. unfold bug_of_hit at 1. by rewrite (Hrules _ _ Hr Hsearch).
Qed.

Lemma brace_languages_report_nothing_witness :
  detect_bugs (λ _, Ast.Raises RecursionError) "for (;;) x++;" "C++"
  = Raise ValueError
  ∧ detect_bugs (λ _, Ast.Raises RecursionError) "int x;" "Java"
    = Ok {| bug_count := 0; bugs := [] |}.
Proof.
  split.
  - rewrite (brace_languages_report_nothing _ _ "C++") by by right.
    reflexivity.
  - rewrite (brace_languages_report_nothing _ _ "Java") by by left.
    reflexivity.
Defined.

Lemma flat_map_ext_elem {A B : Type} (f g : A → list B) (l : list A) :
  (∀ a, a ∈ l → f a = g a) → flat_map f l = flat_map g l.
Proof.
  induction l as [|a l IH]; intros Hfg; [done|]. cbn [flat_map].
  rewrite Hfg by apply list_elem_of_here. f_equal.
  apply IH. intros b Hb. by apply Hfg, list_elem_of_further.
Qed.

(** X13.  A rule whose pattern has to read a line break never fires: the
    scanner gives a pattern one line at a time.  The table can drop such
    a rule and the scanner gives the same result; the last rule of the
    Python table, the only one of type [LogicWarning], is such a rule. *)
Theorem multi_line_rule_never_fires (code : string) (before after : list rule)
    (r : rule) :
  needs_newline (r_pattern r) = true →
  scan (split_lines code) (before ++ r :: after)
  = scan (split_lines code) (before ++ after).
Proof.
  intros Hr. rewrite !scan_hits. do 2 f_equal. unfold hits.
  apply flat_map_ext_elem. intros [k l] Hin.
  apply elem_of_enumerate in Hin as [_ Hlook].
  unfold hits_on. rewrite !omap_app. f_equal. cbn [omap]. simpl.
  unfold Re.search. rewrite search_from_needs_newline; [done|done|].
  apply no_newline_of_string.
  pose proof (newline_free_split_lines code) as Hall.
  rewrite Forall_lookup in Hall. by apply (Hall _ _ Hlook).
Qed.

Lemma multi_line_rule_never_fires_witness :
  scan (split_lines "x += y") Catalog.python_rules
  = scan (split_lines "x += y") (removelast Catalog.python_rules).
Proof.
  apply (multi_line_rule_never_fires "x += y"
           (removelast Catalog.python_rules) []
           (mk_rule Catalog.py_aug_return LogicWarning
              "Assignment before return without effect" "return {0} + {1}")).
  reflexivity.
Defined.

Lemma hit_not_aug_return (code : string) (h : hit) :
  h ∈ hits (split_lines code) Catalog.python_rules →
  r_pattern (h_rule h) ≠ Catalog.py_aug_return.
Proof.
  intros Hh Hpat.
  destruct (hits_spec _ _ _ Hh) as [_ Hsearch].
  destruct (hits_lookup _ _ _ Hh) as [_ Hlook].
  rewrite Hpat in Hsearch. unfold Re.search in Hsearch.
  rewrite search_from_needs_newline in Hsearch; [done|reflexivity|].
  apply no_newline_of_string.
  pose proof (newline_free_split_lines code) as Hall.
  rewrite Forall_lookup in Hall. by apply (Hall _ _ Hlook).
Qed.

Lemma bare_excepts_lines (nodes : list Ast.node) :
  bare_excepts nodes
  = bare_except_bug <$> flat_map (λ n, match n with
                                       | Ast.ExceptHandler lineno None _ => [lineno]
                                       | _ => []
                                       end) nodes.
Proof.
  induction nodes as [|n nodes IH]; [done|].
  unfold bare_excepts in *. cbn [flat_map]. rewrite fmap_app, <- IH. f_equal.
  by destruct n as [| |ln [t|] body|].
Qed.

(** X14.  The [LogicWarning]s of a Python analysis are the [except] clauses
    without a type, one for each such clause of the tree and no other:
    the scanner gives none, and the checker gives one at the line of each
    clause. *)
Theorem logic_warnings_are_bare_excepts
    (ast_parse : string → Ast.parse_outcome)
    (code : string) (tree : Ast.node) (res : analysis) :
  ast_parse code = Ast.Parsed tree →
  detect_bugs ast_parse code "Python" = Ok res →
  filter is_logic_warning (bugs res)
  ≡ₚ bare_except_bug <$> bare_handler_lines tree.
Proof.
  intros Hp (scanned & ast_bugs & Hs & Ha & ->)%detect_bugs_order.
  rewrite filter_app.
  assert (Hscan : filter is_logic_warning scanned = []).
  { apply filter_none, Forall_forall. intros b Hb Hty.
    destruct (collected_bug_hit _ _ _ Hs Hb) as (h & Hh & Hty' & _).
    rewrite bug_patterns_python in Hh. simpl in Hh.
    apply (hit_not_aug_return _ _ Hh).
    destruct (hits_spec _ _ _ Hh) as [Hr _].
    unfold is_logic_warning in Hty. rewrite Hty in Hty'.
    unfold Catalog.python_rules in Hr.
    repeat (apply elem_of_cons in Hr as [Hr|Hr];
            [rewrite Hr in Hty'; try discriminate Hty'; by rewrite Hr|]).
    by apply elem_of_nil in Hr. }
  rewrite Hscan, app_nil_l.
  rewrite checker_bugs_python, (python_ast_check_parsed _ _ _ Hp) in Ha.
  injection Ha as <-. rewrite filter_app.
  assert (Hunused : filter is_logic_warning
                      (flat_map (unused_block (Ast.walk tree))
                         (elements (unused_vars tree))) = []).
  { apply filter_none, Forall_forall. intros b Hb Hty.
    apply list_elem_of_In, in_flat_map in Hb as (v & _ & Hin).
    pose proof (unused_block_Forall (Ast.walk tree) v) as Hall.
    rewrite Forall_forall in Hall.
    destruct (Hall b (proj2 (list_elem_of_In _ _) Hin)) as [ln ->].
    discriminate Hty. }
  rewrite Hunused, app_nil_l.
  rewrite filter_all.
  - rewrite bare_excepts_lines. unfold bare_handler_lines.
    apply fmap_Permutation, Permutation_flat_map, walk_perm.
  - apply Forall_forall. intros b Hb. rewrite bare_excepts_lines in Hb.
    by apply list_elem_of_fmap in Hb as (ln & -> & _).
Qed.

Lemma logic_warnings_are_bare_excepts_witness :
  filter is_logic_warning [bare_except_bug 3]
  ≡ₚ bare_except_bug <$> bare_handler_lines bare_except_tree.
Proof.
  apply (logic_warnings_are_bare_excepts (λ _, Ast.Parsed bare_except_tree)
           bare_except_text bare_except_tree
           {| bug_count := 1; bugs := [bare_except_bug 3] |}).
  - reflexivity.
  - by vm_compute.
Defined.

Lemma elem_of_enumerate_lookup {A : Type} (start : Z) (xs : list A)
    (k : nat) (x : A) :
  xs !! k = Some x → (start + Z.of_nat k, x) ∈ enumerate start xs.
Proof.
  revert start k. induction xs as [|y xs IH]; intros start k Hk; [done|].
  destruct k as [|k]; simpl in *.
  - injection Hk as ->. replace (start + Z.of_nat 0) with start by lia.
    apply list_elem_of_here.
  - apply list_elem_of_further.
    replace (start + Z.of_nat (S k)) with (start + 1 + Z.of_nat k) by lia.
    by apply IH.
Qed.

(** Every rule that matches a line gives a hit. *)
Lemma hits_complete (lines : list string) (rules : list rule) (k : nat)
    (line : string) (r : rule) (gs : list (option string)) :
  lines !! k = Some line → r ∈ rules →
  Re.search (r_pattern r) line = Some gs →
  mk_hit (Z.of_nat k + 1) line r gs ∈ hits lines rules.
Proof.
  intros Hk Hr Hs. unfold hits.
  apply list_elem_of_In, in_flat_map. exists (1 + Z.of_nat k, line). split.
  - by apply list_elem_of_In, elem_of_enumerate_lookup.
  - apply list_elem_of_In. unfold hits_on. apply list_elem_of_omap.
    exists r. split; [done|]. simpl. rewrite Hs. simpl.
    by replace (1 + Z.of_nat k) with (Z.of_nat k + 1) by lia.
Qed.

(** X9.  Where [detect_bugs] returns, no match is lost: for every line of the
    text and every rule of the language that matches it, the result has
    a bug with the number and the text of the line, the type and the
    description of the rule and the template filled with the groups of
    the match; a first match on a line does not hide a second one. *)
Theorem every_match_is_reported (ast_parse : string → Ast.parse_outcome)
    (code language : string) (res : analysis) (k : nat) (line : string)
    (r : rule) (gs : list (option string)) :
  detect_bugs ast_parse code language = Ok res →
  split_lines code !! k = Some line →
  r ∈ default [] (Catalog.bug_patterns !! language) →
  Re.search (r_pattern r) line = Some gs →
  ∃ b, b ∈ bugs res
       ∧ b_type b = r_bug_type r ∧ b_line b = Z.of_nat k + 1
       ∧ b_description b = r_description r ∧ b_original b = Some line
       ∧ render (r_fix_template r) gs = Ok (b_fix b).
Proof.
  intros (scanned & ast_bugs & Hs & _ & ->)%detect_bugs_order Hk Hr Hsearch.
  pose proof (hits_complete _ _ _ _ _ _ Hk Hr Hsearch) as Hh.
  apply collect_bug_of_hit in Hs.
  apply list_elem_of_lookup in Hh as [i Hi].
  destruct (Forall2_lookup_l _ _ _ _ _ Hs Hi) as (b & Hb & Hrel).
  exists b. split; [|done].
  apply elem_of_app. left. by apply list_elem_of_lookup_2 in Hb.
Qed.

Lemma every_match_is_reported_witness :
  ∃ b, b ∈ [Scenario.division_bug; unused_variable_bug 1 "x"]
       ∧ b_line b = 1 ∧ b_fix b = "x = 10 / y if y != 0 else 0"%string.
Proof.
  destruct (every_match_is_reported (λ _, Ast.Parsed Scenario.division_tree)
              Scenario.division "Python"
              {| bug_count := 2;
                 bugs := [Scenario.division_bug; unused_variable_bug 1 "x"] |}
              0 "x = 10 / y"
              (mk_rule Catalog.py_div LogicError
                 "Potential division by zero"
                 "{0} = {1} / {2} if {2} != 0 else 0")
              [Some "x"; Some "10"; Some "y"]%string)
    as (b & Hb & _ & Hline & _ & _ & Hfix).
  - by vm_compute.
  - reflexivity.
  - rewrite bug_patterns_python. simpl.
    do 4 apply list_elem_of_further. apply list_elem_of_here.
  - by vm_compute.
  - exists b. split; [done|]. split; [done|].
    assert (Hr : render "{0} = {1} / {2} if {2} != 0 else 0"
                   [Some "x"; Some "10"; Some "y"]%string
                 = Ok "x = 10 / y if y != 0 else 0"%string) by by vm_compute.
    cbn [r_fix_template] in Hfix. rewrite Hr in Hfix.
    by injection Hfix as <-.
Defined.

Lemma Forall2_lines (hs : list hit) (bs : list bug) :
  Forall2 (λ h b,
             b_type b = r_bug_type (h_rule h)
             ∧ b_line b = h_line_no h
             ∧ b_description b = r_description (h_rule h)
             ∧ b_original b = Some (h_text h)
             ∧ render (r_fix_template (h_rule h)) (h_groups h) = Ok (b_fix b))
    hs bs →
  b_line <$> bs = h_line_no <$> hs
  ∧ Forall (λ b, is_Some (b_original b)) bs.
Proof.
  induction 1 as [|h b hs bs (_ & Hl & _ & Ho & _) _ [IH1 IH2]]; [done|].
  rewrite !fmap_cons, Hl, IH1. split; [done|]. constructor; [|done].
  rewrite Ho. by eexists.
Qed.

(** X10.  Where [detect_bugs] returns, the bugs of the scanner come first, in
    ascending order of their lines, and the bugs of the structural
    checker follow; the first have an original line and the others have
    none. *)
Theorem scanner_bugs_come_first (ast_parse : string → Ast.parse_outcome)
    (code language : string) (res : analysis) :
  detect_bugs ast_parse code language = Ok res →
  ∃ scanned ast_bugs,
    bugs res = scanned ++ ast_bugs
    ∧ StronglySorted Z.le (b_line <$> scanned)
    ∧ Forall (λ b, is_Some (b_original b)) scanned
    ∧ Forall (λ b, b_original b = None) ast_bugs.
Proof.
  intros (scanned & ast_bugs & Hs & Ha & ->)%detect_bugs_order.
  exists scanned, ast_bugs. split; [done|].
  apply collect_bug_of_hit, Forall2_lines in Hs as [Hlines Horig].
  split; [|split; [done|]].
  - rewrite Hlines. apply hits_ascending.
  - apply Forall_forall. intros b Hb.
    by apply (checker_bugs_original _ _ _ _ _ Ha).
Qed.

Lemma scanner_bugs_come_first_witness :
  ∃ scanned ast_bugs,
    [Scenario.division_bug; unused_variable_bug 1 "x"] = scanned ++ ast_bugs
    ∧ Forall (λ b, is_Some (b_original b)) scanned
    ∧ Forall (λ b, b_original b = None) ast_bugs.
Proof.
  destruct (scanner_bugs_come_first (λ _, Ast.Parsed Scenario.division_tree)
              Scenario.division "Python"
              {| bug_count := 2;
                 bugs := [Scenario.division_bug; unused_variable_bug 1 "x"] |})
    as (scanned & ast_bugs & Hbugs & _ & Hs & Ha).
  - by vm_compute.
  - by exists scanned, ast_bugs.
Defined.

(** X12.  An analysis of JavaScript that returns has found no [if] without a
    brace, and reports nothing but [var]: no line of the text matches the
    pattern of the first rule, whose template cannot be filled, and every
    bug is the [StyleWarning] of the second rule, with a fix that starts
    with [const]. *)
Theorem javascript_reports_var_only (ast_parse : string → Ast.parse_outcome)
    (code : string) (res : analysis) :
  detect_bugs ast_parse code "JavaScript" = Ok res →
  (∀ line, line ∈ split_lines code → Re.search Catalog.brace_if line = None)
  ∧ ∀ b, b ∈ bugs res →
         b_type b = StyleWarning
         ∧ b_description b = "Using var instead of let/const"%string
         ∧ ∃ name, b_fix b = ("const " +:+ name)%string.
Proof.
  intros Hd.
  pose proof Hd as (scanned & ast_bugs & Hs & Ha & Hres)%detect_bugs_order.
  rewrite bug_patterns_javascript in Hs. simpl in Hs.
  rewrite checker_bugs_other in Ha by done. injection Ha as <-.
  rewrite app_nil_r in Hres.
  assert (Hbrace : ∀ h, h ∈ hits (split_lines code) Catalog.javascript_rules →
                        r_pattern (h_rule h) ≠ Catalog.brace_if).
  { intros h Hh Hpat.
    apply list_elem_of_lookup in Hh as [i Hi].
    destruct (Forall2_lookup_l _ _ _ _ _ (collect_bug_of_hit _ _ Hs) Hi)
      as (b & _ & _ & _ & _ & _ & Hrender).
    apply list_elem_of_lookup_2, hits_spec in Hi as [Hr Hsearch].
    apply search_length in Hsearch.
    unfold Catalog.javascript_rules in Hr.
    apply elem_of_cons in Hr as [Hr|Hr].
    - rewrite Hr in Hrender, Hsearch. simpl in Hsearch.
      destruct (h_groups h) as [|g [|g' gs]]; try done.
    - apply list_elem_of_singleton in Hr. by rewrite Hr in Hpat. }
  split.
  - intros line Hline.
    destruct (Re.search Catalog.brace_if line) as [gs|] eqn:Hsearch; [|done].
    apply list_elem_of_lookup in Hline as [k Hk].
    exfalso.
    apply (Hbrace (mk_hit (Z.of_nat k + 1) line
                     (mk_rule Catalog.brace_if SyntaxError
                        "Missing braces in if statement" "if (...) {") gs));
      [|done].
    apply hits_complete; [done|apply list_elem_of_here|done].
  - intros b Hb. rewrite Hres in Hb.
    destruct (collected_bug_hit _ _ _ Hs Hb)
      as (h & Hh & Hty & _ & Hdesc & _ & Hrender).
    pose proof (Hbrace h Hh) as Hne.
    destruct (hits_spec _ _ _ Hh) as [Hr Hsearch].
    apply search_length in Hsearch.
    unfold Catalog.javascript_rules in Hr.
    apply elem_of_cons in Hr as [Hr|Hr]; [by rewrite Hr in Hne|].
    apply list_elem_of_singleton in Hr.
    rewrite Hr in Hty, Hdesc, Hrender, Hsearch. simpl in *.
    split; [done|]. split; [done|].
    destruct (h_groups h) as [|g [|g' gs]]; try done.
    exists (Format.str_of g +:+ "")%string.
    assert (Hg : render "const {0}" [g]
                 = Ok ("const " +:+ (Format.str_of g +:+ ""))%string)
      by reflexivity.
    rewrite Hg in Hrender. by injection Hrender as <-.
Qed.

Lemma javascript_reports_var_only_witness :
  Re.search Catalog.brace_if "var x = 1;" = None.
Proof.
  destruct (javascript_reports_var_only (λ _, Ast.Raises RecursionError)
              "var x = 1;"
              {| bug_count := 1;
                 bugs := [mk_bug StyleWarning 1 "Using var instead of let/const"
                            (Some "var x = 1;") "const x"] |})
    as [Hlines _].
  - by vm_compute.
  - apply Hlines. apply list_elem_of_here.
Defined.

End AnalyzerTheorems.

(** * The window *)

Section WindowFacts.
Import App.

Variable basename : string → string.
Variable str : error → string.

Lemma bind_returns {A B : Type} (m : method A) (k : A → method B)
    (w w' : window) (a : A) :
  m w = (w', Returns a) → bind m k w = k a w'.
Proof. intros Hm. unfold bind. by rewrite Hm. Qed.

Lemma bind_throws {A B : Type} (m : method A) (k : A → method B)
    (w w' : window) (e : error) :
  m w = (w', Throws e) → bind m k w = (w', Throws e).
Proof. intros Hm. unfold bind. by rewrite Hm. Qed.

Lemma position_in_range {A : Type} (l : list A) (i : Z) :
  0 ≤ i < Z.of_nat (length l) → position l i = Some (Z.to_nat i).
Proof.
  intros Hi. unfold position.
  replace (0 <=? i) with true by (symmetry; apply Z.leb_le; lia).
  replace (i <? Z.of_nat (length l)) with true by (symmetry; apply Z.ltb_lt; lia).
  done.
Qed.

Lemma item_in_range {A : Type} (l : list A) (i : Z) (x : A) (w : window) :
  0 ≤ i → l !! Z.to_nat i = Some x → item l i w = (w, Returns x).
Proof.
  intros Hi Hx. unfold item.
  pose proof (lookup_lt_Some _ _ _ Hx) as Hlt.
  rewrite position_in_range by lia. simpl. by rewrite Hx.
Qed.

Lemma pop_in_range {A : Type} (l : list A) (i : Z) (w : window) :
  0 ≤ i < Z.of_nat (length l) →
  pop l i w = (w, Returns (delete (Z.to_nat i) l)).
Proof. intros Hi. unfold pop. by rewrite position_in_range. Qed.

(** [update_bug_navigation] with a current bug fills the frame. *)
Lemma update_bug_navigation_view (w : window) (bugs : list bug) (i : Z) (b : bug) :
  detected_bugs w = Some bugs → current_bug_index w = Some i →
  0 ≤ i → bugs !! Z.to_nat i = Some b →
  update_bug_navigation w = (set_quick_fix (view bugs i b) w, Returns tt).
Proof.
  intros Hb Hi Hge Hlook. unfold update_bug_navigation. rewrite Hb, Hi.
  destruct bugs as [|b0 bs]; [done|].
  unfold bind. rewrite (item_in_range _ _ b) by done.
  by destruct w.
Qed.

Lemma consistent_view (w : window) (bugs : list bug) (i : Z) (b : bug) :
  detected_bugs w = Some bugs → current_bug_index w = Some i →
  0 ≤ i → bugs !! Z.to_nat i = Some b →
  consistent (set_quick_fix (view bugs i b) w).
Proof.
  intros Hb Hi Hge Hlook. unfold consistent, expected. simpl.
  rewrite Hi, Hb. simpl. rewrite Hlook. simpl.
  by replace (0 <=? i) with true by (symmetry; apply Z.leb_le; lia).
Qed.

Lemma consistent_current (w : window) (i : Z) :
  consistent w → current_bug_index w = Some i →
  ∃ bugs b, detected_bugs w = Some bugs ∧ 0 ≤ i
            ∧ bugs !! Z.to_nat i = Some b ∧ quick_fix w = view bugs i b.
Proof.
  unfold consistent, expected. intros Hc Hi. rewrite Hi in Hc.
  destruct (0 <=? i) eqn:Hge; [|done]. apply Z.leb_le in Hge.
  destruct (detected_bugs w) as [bugs|]; [|done]. simpl in Hc.
  destruct (bugs !! Z.to_nat i) as [b|] eqn:Hlook; [|done]. simpl in Hc.
  injection Hc as Hc. by exists bugs, b.
Qed.

Lemma consistent_reset (w : window) : consistent (reset_bug_navigation w).
Proof. done. Qed.

Lemma consistent_start_detection (w : window) :
  consistent w → consistent (start_detection w).
Proof.
  intros Hc. unfold start_detection. by destruct (truthy_str (filename w)).
Qed.

(** [display_results] with bugs in the window shows the first of them. *)
Lemma display_results_first (results : analysis) (w : window)
    (b : bug) (bs : list bug) :
  bug_count results ≠ 0 → detected_bugs w = Some (b :: bs) →
  display_results results w
  = (set_quick_fix (view (b :: bs) 0 b)
       (set_current_bug_index (Some 0) (set_fix_all_button true w)),
     Returns tt).
Proof.
  intros Hn Hb. unfold display_results.
  replace (bug_count results =? 0) with false by (symmetry; by apply Z.eqb_neq).
  simpl. rewrite Hb. simpl.
  by rewrite (update_bug_navigation_view _ (b :: bs) 0 b).
Qed.

Lemma make_backup_on_disk (name : string) (w : window) :
  filename w = Some name → on_disk name (files w) →
  make_backup (name +:+ ".bak") w
  = (set_files (backed_up name (files w)) w, Returns tt).
Proof.
  intros Hn Hd. unfold make_backup, backed_up. rewrite Hn. simpl.
  destruct (files w !! (name +:+ ".bak")) as [t|] eqn:Hb.
  - by destruct w.
  - destruct (files w !! name) as [t|] eqn:Hf; [done|].
    destruct Hd as [[? ?]|[? ?]]; congruence.
Qed.

(** What [rectify_current_bug] does for the current bug of a file that
    is on the disk. *)
Lemma rectify_current_bug_effect (w : window) (bugs : list bug) (i : Z)
    (b : bug) (name code : string) :
  current_bug_index w = Some i → detected_bugs w = Some bugs →
  0 ≤ i → bugs !! Z.to_nat i = Some b →
  filename w = Some name → code_content w = Some code →
  on_disk name (files w) →
  let fixed_code := (Rectify.rectify_bug code b).1 in
  let w1 :=
    mk_window (Some name) (Some fixed_code) (Some (delete (Z.to_nat i) bugs))
      None (is_processing w) (detect_button w) (fix_all_button w)
      ("Fixed bug on line " +:+ pretty (b_line b)) (quick_fix w)
      (<[name := fixed_code]> (backed_up name (files w)))
      (boxes w) (threads w) in
  rectify_current_bug str w
  = (match delete (Z.to_nat i) bugs with
     | [] => start_detection
               (set_fix_all_button false
                  (show showinfo "Success" "All bugs have been fixed!"
                     (reset_bug_navigation w1)))
     | b' :: rest =>
         set_quick_fix (view (b' :: rest) 0 b')
           (set_current_bug_index (Some 0) (set_fix_all_button true w1))
     end, Returns tt).
Proof.
  intros Hi Hb Hge Hlook Hn Hc Hd. simpl.
  pose proof (lookup_lt_Some _ _ _ Hlook) as Hlt.
  unfold rectify_current_bug. rewrite Hi, Hb.
  destruct bugs as [|b0 bs]; [done|].
  replace (Z.of_nat (length (b0 :: bs)) <=? i) with false
    by (symmetry; apply Z.leb_gt; lia).
  unfold try_except.
  erewrite bind_returns; [|by apply item_in_range].
  erewrite bind_returns; [|unfold backup_name; by rewrite Hn].
  erewrite bind_returns; [|by apply make_backup_on_disk].
  erewrite bind_returns; [|unfold the_code; simpl; by rewrite Hc].
  erewrite bind_returns; [|unfold write_file; simpl; by rewrite Hn].
  erewrite bind_returns; [|reflexivity].
  erewrite bind_returns; [|reflexivity].
  erewrite bind_returns; [|apply pop_in_range; lia].
  erewrite bind_returns; [|reflexivity].
  destruct (delete (Z.to_nat i) (b0 :: bs)) as [|b' rest] eqn:Hrest.
  - do 3 (erewrite bind_returns; [|reflexivity]). unfold update.
    destruct w; simpl in *. by subst.
  - erewrite bind_returns; [|reflexivity].
    assert (Hlen : (0 < length (b' :: rest))%nat) by (simpl; lia).
    destruct (Z.of_nat (length (b' :: rest)) <=? i) eqn:Hle.
    + destruct (lookup_lt_is_Some_2 (b' :: rest)
                  (Z.to_nat (Z.of_nat (length (b' :: rest)) - 1)))
        as [bj Hbj]; [lia|].
      erewrite bind_returns;
        [|by apply (update_bug_navigation_view _ (b' :: rest)
                      (Z.of_nat (length (b' :: rest)) - 1) bj);
          [..|lia|]].
      rewrite (display_results_first _ _ b' rest) by done.
      destruct w; simpl in *. by subst.
    + apply Z.leb_gt in Hle.
      destruct (lookup_lt_is_Some_2 (b' :: rest) (Z.to_nat i))
        as [bj Hbj]; [lia|].
      erewrite bind_returns;
        [|by apply (update_bug_navigation_view _ (b' :: rest) i bj)].
      rewrite (display_results_first _ _ b' rest) by done.
      destruct w; simpl in *. by subst.
Qed.

Lemma consistent_same (w w' : window) :
  current_bug_index w' = current_bug_index w →
  detected_bugs w' = detected_bugs w →
  quick_fix w' = quick_fix w →
  consistent w → consistent w'.
Proof.
  unfold consistent, expected. by intros -> -> ->.
Qed.

Lemma make_backup_cases (backup_file : string) (w : window) :
  ∃ fs o, make_backup backup_file w = (set_files fs w, o).
Proof.
  unfold make_backup. destruct (files w !! backup_file).
  - exists (files w), (Returns tt). by destruct w.
  - destruct (filename w ≫= _).
    + by eexists _, _.
    + exists (files w), (Throws FileNotFoundError). by destruct w.
Qed.

(** The ways of [rectify_current_bug] when the frame shows the current
    bug: nothing to do; an exception, with the backup made or not, and a
    box; or the fix. *)
Lemma rectify_current_bug_cases (w : window) :
  consistent w →
  rectify_current_bug str w = (w, Returns tt)
  ∨ (∃ e fs,
       (fs = files w
        ∨ ∃ name, filename w = Some name ∧ fs = backed_up name (files w))
       ∧ rectify_current_bug str w
         = (show showerror "Error" ("Failed to rectify bug: " +:+ str e)
              (set_files fs w), Returns tt))
  ∨ (∃ bugs i b name code,
       current_bug_index w = Some i ∧ detected_bugs w = Some bugs
       ∧ 0 ≤ i ∧ bugs !! Z.to_nat i = Some b
       ∧ filename w = Some name ∧ code_content w = Some code
       ∧ on_disk name (files w)).
Proof.
  intros Hc.
  destruct (current_bug_index w) as [i|] eqn:Hi;
    [|left; unfold rectify_current_bug; by rewrite Hi].
  destruct (consistent_current _ _ Hc Hi) as (bugs & b & Hb & Hge & Hlook & Hq).
  destruct bugs as [|b0 bs]; [done|].
  destruct (Z.of_nat (length (b0 :: bs)) <=? i) eqn:Hle;
    [left; unfold rectify_current_bug; by rewrite Hi, Hb, Hle|].
  right.
  destruct (filename w) as [name|] eqn:Hn; cycle 1.
  { left. exists TypeError, (files w). split; [by left|].
    unfold rectify_current_bug. rewrite Hi, Hb, Hle.
    unfold try_except. erewrite bind_returns; [|by apply item_in_range].
    erewrite bind_throws; [|unfold backup_name; by rewrite Hn].
    unfold update. by destruct w. }
  destruct (decide (on_disk name (files w))) as [Hd|Hd]; cycle 1.
  { left. exists FileNotFoundError, (files w). split; [by left|].
    unfold rectify_current_bug. rewrite Hi, Hb, Hle.
    unfold try_except. erewrite bind_returns; [|by apply item_in_range].
    erewrite bind_returns; [|unfold backup_name; by rewrite Hn].
    erewrite bind_throws; cycle 1.
    { unfold make_backup. rewrite Hn. simpl.
      destruct (files w !! (name +:+ ".bak")) eqn:Hbak;
        [exfalso; apply Hd; right; rewrite Hbak; eauto|].
      destruct (files w !! name) eqn:Hfile;
        [exfalso; apply Hd; left; rewrite Hfile; eauto|]. done. }
    unfold update. by destruct w. }
  destruct (code_content w) as [code|] eqn:Hcode; cycle 1.
  { left. exists AttributeError, (backed_up name (files w)).
    split; [right; by exists name|].
    unfold rectify_current_bug. rewrite Hi, Hb, Hle.
    unfold try_except. erewrite bind_returns; [|by apply item_in_range].
    erewrite bind_returns; [|unfold backup_name; by rewrite Hn].
    erewrite bind_returns; [|by apply make_backup_on_disk].
    erewrite bind_throws; [|unfold the_code; simpl; by rewrite Hcode].
    done. }
  right. by exists (b0 :: bs), i, b, name, code.
Qed.

Lemma rectify_current_bug_consistent (w : window) :
  consistent w →
  consistent (rectify_current_bug str w).1
  ∧ (rectify_current_bug str w).2 = Returns tt.
Proof.
  intros Hc.
  destruct (rectify_current_bug_cases w Hc)
    as [-> |[(e & fs & _ & ->)|(bugs & i & b & name & code & H)]]; [done| |].
  - split; [|done]. by apply (consistent_same w).
  - destruct H as (Hi & Hb & Hge & Hlook & Hn & Hcode & Hd).
    rewrite (rectify_current_bug_effect w bugs i b name code) by done.
    split; [|done]; simpl.
    destruct (delete (Z.to_nat i) bugs) as [|b' rest];
      [by apply consistent_start_detection|by apply consistent_view].
Qed.

(** What [apply_all_fixes] does for a file that is on the disk. *)
Lemma apply_all_fixes_effect (w : window) (b0 : bug) (bs : list bug)
    (name code : string) :
  detected_bugs w = Some (b0 :: bs) →
  filename w = Some name → name ≠ EmptyString →
  code_content w = Some code → code ≠ EmptyString →
  on_disk name (files w) →
  let fixed_code := Rectify.apply_fixes code (b0 :: bs) in
  apply_all_fixes basename str w
  = (start_detection
       (mk_window (Some name) (Some fixed_code) (Some (b0 :: bs)) None
          (is_processing w) (detect_button w) false
          "All fixes applied successfully" blank
          (<[name := fixed_code]> (backed_up name (files w)))
          (boxes w ++
             [mk_box showinfo "Success"
                ("All fixes applied successfully!" +:+ String newline
                   ("Original file backed up as "
                    +:+ basename (name +:+ ".bak")))])
          (threads w)),
     Returns tt).
Proof.
  intros Hb Hn Hne Hc Hce Hd. simpl.
  unfold apply_all_fixes. rewrite Hb, Hn, Hc.
  destruct name as [|a name]; [done|]. destruct code as [|c code]; [done|].
  cbn [truthy_str andb]. unfold try_except.
  erewrite bind_returns; [|unfold backup_name; by rewrite Hn].
  erewrite bind_returns; [|by apply make_backup_on_disk].
  erewrite bind_returns; [|unfold the_code; simpl; by rewrite Hc].
  erewrite bind_returns; [|unfold write_file; simpl; by rewrite Hn].
  do 5 (erewrite bind_returns; [|reflexivity]). unfold update.
  destruct w; simpl in *. by subst.
Qed.

Lemma update_bug_navigation_cases (w : window) :
  ∃ nav o, update_bug_navigation w = (set_quick_fix nav w, o).
Proof.
  unfold update_bug_navigation.
  destruct (detected_bugs w) as [[|b0 bs]|];
    try (exists (quick_fix w), (Returns tt); by destruct w).
  destruct (current_bug_index w) as [i|];
    [|exists (quick_fix w), (Returns tt); by destruct w].
  unfold bind, item.
  destruct (position (b0 :: bs) i ≫= _) as [b|]; simpl.
  - eexists _, _. unfold update. by destruct w.
  - by eexists _, _.
Qed.

Lemma previous_bug_consistent (w : window) :
  consistent w →
  consistent (previous_bug w).1 ∧ (previous_bug w).2 = Returns tt.
Proof.
  intros Hc. unfold previous_bug.
  destruct (current_bug_index w) as [i|] eqn:Hi; [|done].
  destruct (consistent_current _ _ Hc Hi) as (bugs & b & Hb & Hge & Hlook & Hq).
  destruct (0 <? i) eqn:Hlt; [|done]. apply Z.ltb_lt in Hlt.
  pose proof (lookup_lt_Some _ _ _ Hlook) as Hlen.
  destruct (lookup_lt_is_Some_2 bugs (Z.to_nat (i - 1))) as [b' Hb']; [lia|].
  rewrite (update_bug_navigation_view _ bugs (i - 1) b') by (done || lia).
  split; [|done]. apply consistent_view; (done || lia).
Qed.

Lemma next_bug_consistent (w : window) :
  consistent w →
  consistent (next_bug w).1 ∧ (next_bug w).2 = Returns tt.
Proof.
  intros Hc. unfold next_bug.
  destruct (current_bug_index w) as [i|] eqn:Hi; [|done].
  destruct (consistent_current _ _ Hc Hi) as (bugs & b & Hb & Hge & Hlook & Hq).
  rewrite Hb. destruct bugs as [|b0 bs]; [done|].
  destruct (i <? Z.of_nat (length (b0 :: bs)) - 1) eqn:Hlt; [|done].
  apply Z.ltb_lt in Hlt.
  destruct (lookup_lt_is_Some_2 (b0 :: bs) (Z.to_nat (i + 1))) as [b' Hb'];
    [lia|].
  rewrite (update_bug_navigation_view _ (b0 :: bs) (i + 1) b') by (done || lia).
  split; [|done]. apply consistent_view; (done || lia).
Qed.

Lemma select_file_consistent (chosen : string) (w : window) :
  consistent w → consistent (select_file basename chosen w).
Proof. intros Hc. by destruct chosen. Qed.

(** The ways of [apply_all_fixes]: nothing to do; a file that is not
    there, and a box; or the fixes. *)
Lemma apply_all_fixes_cases (w : window) :
  apply_all_fixes basename str w = (w, Returns tt)
  ∨ ((∃ name, filename w = Some name ∧ ¬ on_disk name (files w))
     ∧ apply_all_fixes basename str w
       = (show showerror "Error"
            ("Failed to apply fixes: " +:+ str FileNotFoundError) w,
          Returns tt))
  ∨ (∃ b0 bs name code,
       detected_bugs w = Some (b0 :: bs)
       ∧ filename w = Some name ∧ name ≠ EmptyString
       ∧ code_content w = Some code ∧ code ≠ EmptyString
       ∧ on_disk name (files w)).
Proof.
  destruct (detected_bugs w) as [[|b0 bs]|] eqn:Hb;
    try (left; unfold apply_all_fixes; by rewrite Hb).
  destruct (filename w) as [[|a name]|] eqn:Hn;
    try (left; unfold apply_all_fixes; by rewrite Hb, Hn).
  destruct (code_content w) as [[|c code]|] eqn:Hcode;
    try (left; unfold apply_all_fixes; by rewrite Hb, Hn, Hcode).
  right. set (n := String a name) in *.
  destruct (decide (on_disk n (files w))) as [Hd|Hd]; cycle 1.
  { left. split; [by exists n|].
    unfold apply_all_fixes. rewrite Hb, Hn, Hcode.
    cbn [truthy_str andb]. unfold try_except.
    erewrite bind_returns; [|unfold backup_name; by rewrite Hn].
    erewrite bind_throws; cycle 1.
    { unfold make_backup. rewrite Hn. simpl.
      destruct (files w !! (n +:+ ".bak")) eqn:Hbak;
        [exfalso; apply Hd; right; rewrite Hbak; eauto|].
      destruct (files w !! n) eqn:Hfile;
        [exfalso; apply Hd; left; rewrite Hfile; eauto|]. done. }
    done. }
  right. by exists b0, bs, n, (String c code).
Qed.

Lemma apply_all_fixes_consistent (w : window) :
  consistent w →
  consistent (apply_all_fixes basename str w).1
  ∧ (apply_all_fixes basename str w).2 = Returns tt.
Proof.
  intros Hc.
  destruct (apply_all_fixes_cases w)
    as [-> |[[_ ->]|(b0 & bs & name & code & H)]]; [done| |].
  - split; [|done]. by apply (consistent_same w).
  - destruct H as (Hb & Hn & Hne & Hcode & Hce & Hd).
    rewrite (apply_all_fixes_effect w b0 bs name code) by done.
    split; [|done]. by apply consistent_start_detection.
Qed.

Lemma click_consistent (b : button) (w : window) :
  consistent w →
  consistent (click basename str b w).1
  ∧ (click basename str b w).2 = Returns tt.
Proof.
  intros Hc. unfold click. destruct (enabled b w); [|done].
  destruct b; simpl.
  - split; [|done]. by apply select_file_consistent.
  - split; [|done]. by apply consistent_start_detection.
  - by apply apply_all_fixes_consistent.
  - by apply previous_bug_consistent.
  - by apply next_bug_consistent.
  - by apply rectify_current_bug_consistent.
Qed.

Lemma clicks_snoc (bs : list button) (b : button) (w : window) :
  clicks basename str (bs ++ [b]) w
  = (click basename str b (clicks basename str bs w)).1.
Proof. unfold clicks. by rewrite foldl_app. Qed.

(** X15.  Whatever is clicked, the quick-fix frame shows the current bug of the
    window: its place in the list, its line, its type and its two texts,
    with the two arrows enabled where there is a bug to go to; without a
    current bug the frame is empty and its buttons are disabled.  No
    command raises an exception. *)
Theorem clicks_keep_the_frame (bs : list button) (w : window) :
  consistent w →
  consistent (clicks basename str bs w)
  ∧ ∀ b, (click basename str b (clicks basename str bs w)).2 = Returns tt.
Proof.
  intros Hc.
  assert (H : consistent (clicks basename str bs w)).
  { induction bs as [|b bs IH] using rev_ind; [done|].
    rewrite clicks_snoc. by apply click_consistent. }
  split; [done|]. intros b. by apply click_consistent.
Qed.

(** ** Files *)

Lemma bak_ne (name : string) : name +:+ ".bak" ≠ name.
Proof.
  intros H. apply (f_equal String.length) in H.
  rewrite string_length_app in H. simpl in H. lia.
Qed.

Lemma backed_up_lookup_bak (name : string) (fs : gmap string string) :
  backed_up name fs !! (name +:+ ".bak")
  = match fs !! (name +:+ ".bak") with
    | Some text => Some text
    | None => fs !! name
    end.
Proof.
  unfold backed_up.
  destruct (fs !! (name +:+ ".bak")) as [t|] eqn:Hbak; [done|].
  destruct (fs !! name) as [t|] eqn:Hfile; [|done].
  by rewrite lookup_insert_eq.
Qed.

Lemma backed_up_lookup_name (name : string) (fs : gmap string string) :
  backed_up name fs !! name = fs !! name.
Proof.
  unfold backed_up.
  destruct (fs !! (name +:+ ".bak")) as [t|] eqn:Hbak; [done|].
  destruct (fs !! name) as [t|] eqn:Hfile; [|done].
  rewrite lookup_insert_ne by apply bak_ne. done.
Qed.

Lemma backed_up_again (name : string) (fs : gmap string string) :
  is_Some (fs !! (name +:+ ".bak")) → backed_up name fs = fs.
Proof. intros [t Ht]. unfold backed_up. by rewrite Ht. Qed.

Lemma files_start_detection (w : window) :
  files (start_detection w) = files w
  ∧ filename (start_detection w) = filename w
  ∧ code_content (start_detection w) = code_content w
  ∧ detected_bugs (start_detection w) = detected_bugs w.
Proof. unfold start_detection. by destruct (truthy_str (filename w)). Qed.

(** What a click does to the files of the selected file. *)
Lemma click_files (b : button) (w : window) (name : string) :
  consistent w → filename w = Some name → keeps_file b →
  filename (click basename str b w).1 = Some name
  ∧ (files (click basename str b w).1 = files w
     ∨ files (click basename str b w).1 = backed_up name (files w)
     ∨ ∃ text, on_disk name (files w)
               ∧ files (click basename str b w).1
                 = <[name := text]> (backed_up name (files w))).
Proof.
  intros Hc Hn Hb. unfold click. destruct (enabled b w); [|by auto].
  destruct b; simpl; try done.
  - destruct (files_start_detection w) as (-> & -> & _). by auto.
  - destruct (apply_all_fixes_cases w)
      as [-> |[[_ ->]|(b0 & bs & name' & code & H)]]; [by auto..|].
    destruct H as (Hb' & Hn' & Hne & Hcode & Hce & Hd).
    rewrite (apply_all_fixes_effect w b0 bs name' code) by done.
    assert (name' = name) as -> by congruence. simpl.
    destruct (files_start_detection
                {| filename := Some name;
                   code_content := Some (Rectify.apply_fixes code (b0 :: bs));
                   detected_bugs := Some (b0 :: bs);
                   current_bug_index := None;
                   is_processing := is_processing w;
                   detect_button := detect_button w;
                   fix_all_button := false;
                   status_bar := "All fixes applied successfully";
                   quick_fix := blank;
                   files := <[name:=Rectify.apply_fixes code (b0 :: bs)]>
                              (backed_up name (files w));
                   boxes := boxes w ++
                     [mk_box showinfo "Success"
                        ("All fixes applied successfully!" +:+ String newline
                           ("Original file backed up as "
                            +:+ basename (name +:+ ".bak")))];
                   threads := threads w |}) as (-> & -> & _).
    simpl. split; [done|]. right. right. by eexists.
  - unfold previous_bug. destruct (current_bug_index w) as [i|]; [|by auto].
    destruct (0 <? i); [|by auto].
    destruct (update_bug_navigation_cases
                (set_current_bug_index (Some (i - 1)) w)) as (nav & o & ->).
    simpl. by auto.
  - unfold next_bug. destruct (current_bug_index w) as [i|]; [|by auto].
    destruct (detected_bugs w) as [[|b0 bs]|]; [by auto| |by auto].
    destruct (i <? Z.of_nat (length (b0 :: bs)) - 1); [|by auto].
    destruct (update_bug_navigation_cases
                (set_current_bug_index (Some (i + 1)) w)) as (nav & o & ->).
    simpl. by auto.
  - destruct (rectify_current_bug_cases w Hc)
      as [-> |[(e & fs & Hfs & ->)|(bugs & i & b & name' & code & H)]];
      [by auto| |].
    + simpl. split; [done|].
      destruct Hfs as [-> |(name' & Hn' & ->)]; [by auto|].
      assert (name' = name) as -> by congruence. by auto.
    + destruct H as (Hi & Hb' & Hge & Hlook & Hn' & Hcode & Hd).
      rewrite (rectify_current_bug_effect w bugs i b name' code) by done.
      assert (name' = name) as -> by congruence. simpl.
      destruct (delete (Z.to_nat i) bugs) as [|b' rest].
      * match goal with
        | |- context [start_detection ?w0] =>
            destruct (files_start_detection w0) as (-> & -> & _)
        end.
        simpl. split; [done|]. right. right. by eexists.
      * simpl. split; [done|]. right. right. by eexists.
Qed.

(** A property of the files that the backup and the writing keep, the
    clicks keep. *)
Lemma clicks_files_ind (P : gmap string string → Prop) (name : string) :
  (∀ fs, P fs → P (backed_up name fs)) →
  (∀ fs text, P fs → on_disk name fs →
              P (<[name := text]> (backed_up name fs))) →
  ∀ (bs : list button) (w : window),
    consistent w → filename w = Some name → Forall keeps_file bs →
    P (files w) →
    P (files (clicks basename str bs w))
    ∧ consistent (clicks basename str bs w)
    ∧ filename (clicks basename str bs w) = Some name.
Proof.
  intros Hbackup Hwrite bs.
  induction bs as [|b bs IH] using rev_ind; intros w Hc Hn Hbs HP; [done|].
  apply Forall_app in Hbs as [Hbs Hb]. rewrite Forall_singleton in Hb.
  destruct (IH w Hc Hn Hbs HP) as (HP' & Hc' & Hn').
  rewrite clicks_snoc.
  destruct (click_files b _ name Hc' Hn' Hb) as (Hn'' & Hfiles).
  split; [|split; [by apply click_consistent|done]].
  destruct Hfiles as [-> |[-> |(text & Hd & ->)]]; auto.
Qed.

(** ** The theorems of the window *)

(** X16.  The two arrows undo each other: from a window whose frame shows the
    current bug, "Next Bug" and then "Previous Bug" give the window back,
    with every label and text of the frame, and so do "Previous Bug" and
    then "Next Bug", when the first of the two buttons is enabled. *)
Theorem next_previous_round_trip (w : window) :
  consistent w →
  (enabled Next_Bug w = true →
   click basename str Previous_Bug (click basename str Next_Bug w).1
   = (w, Returns tt))
  ∧ (enabled Previous_Bug w = true →
     click basename str Next_Bug (click basename str Previous_Bug w).1
     = (w, Returns tt)).
Proof.
  intros Hc.
  destruct (current_bug_index w) as [i|] eqn:Hi; cycle 1.
  { assert (Hq : quick_fix w = blank).
    { unfold consistent, expected in Hc. rewrite Hi in Hc. by injection Hc. }
    unfold enabled. rewrite Hq. by split. }
  destruct (consistent_current _ _ Hc Hi) as (bugs & b & Hb & Hge & Hlook & Hq).
  pose proof (lookup_lt_Some _ _ _ Hlook) as Hlen.
  split; intros He; simpl in He; rewrite Hq in He; simpl in He.
  - apply Z.ltb_lt in He.
    destruct (lookup_lt_is_Some_2 bugs (Z.to_nat (i + 1))) as [b' Hb'];
      [lia|].
    assert (Hnext : click basename str Next_Bug w
                    = (set_quick_fix (view bugs (i + 1) b')
                         (set_current_bug_index (Some (i + 1)) w), Returns tt)).
    { unfold click, enabled. rewrite Hq. simpl.
      replace (i <? Z.of_nat (length bugs) - 1) with true
        by (symmetry; apply Z.ltb_lt; lia).
      unfold next_bug. rewrite Hi, Hb. destruct bugs as [|b0 bs]; [done|].
      replace (i <? Z.of_nat (length (b0 :: bs)) - 1) with true
        by (symmetry; apply Z.ltb_lt; lia).
      by apply update_bug_navigation_view; (done || lia). }
    rewrite Hnext. unfold click, enabled. simpl.
    replace (0 <? i + 1) with true by (symmetry; apply Z.ltb_lt; lia).
    unfold previous_bug. simpl.
    replace (0 <? i + 1) with true by (symmetry; apply Z.ltb_lt; lia).
    replace (i + 1 - 1) with i by lia.
    rewrite (update_bug_navigation_view _ bugs i b) by done.
    destruct w; simpl in *. by subst.
  - apply Z.ltb_lt in He.
    destruct (lookup_lt_is_Some_2 bugs (Z.to_nat (i - 1))) as [b' Hb'];
      [lia|].
    assert (Hprev : click basename str Previous_Bug w
                    = (set_quick_fix (view bugs (i - 1) b')
                         (set_current_bug_index (Some (i - 1)) w), Returns tt)).
    { unfold click, enabled. rewrite Hq. simpl.
      replace (0 <? i) with true by (symmetry; apply Z.ltb_lt; lia).
      unfold previous_bug. rewrite Hi.
      replace (0 <? i) with true by (symmetry; apply Z.ltb_lt; lia).
      by apply update_bug_navigation_view; (done || lia). }
    rewrite Hprev. unfold click, enabled. simpl.
    replace (i - 1 <? Z.of_nat (length bugs) - 1) with true
      by (symmetry; apply Z.ltb_lt; lia).
    unfold next_bug.
    cbn [current_bug_index detected_bugs set_quick_fix set_current_bug_index].
    rewrite Hb. destruct bugs as [|b0 bs]; [done|].
    replace (i - 1 <? Z.of_nat (length (b0 :: bs)) - 1) with true
      by (symmetry; apply Z.ltb_lt; lia).
    replace (i - 1 + 1) with i by lia.
    rewrite (update_bug_navigation_view _ (b0 :: bs) i b) by done.
    destruct w; simpl in *. by subst.
Qed.

(** X17.  "Rectify Now" on one of several bugs: the fix of [rectify_bug] is
    written to the file and kept as the text of the window, the bug
    leaves the list, and the frame goes back to the first of the bugs
    that are left, whatever position it showed before; no box is shown
    and no detection is started. *)
Theorem rectify_now_shows_the_first_bug (w : window) (bugs : list bug)
    (i : Z) (b : bug) (name code : string) :
  consistent w →
  current_bug_index w = Some i → detected_bugs w = Some bugs →
  bugs !! Z.to_nat i = Some b → (1 < length bugs)%nat →
  filename w = Some name → code_content w = Some code →
  on_disk name (files w) →
  ∃ b' rest,
    delete (Z.to_nat i) bugs = b' :: rest
    ∧ click basename str Rectify_Now w
      = (mk_window (Some name) (Some (Rectify.rectify_bug code b).1)
           (Some (b' :: rest)) (Some 0) (is_processing w) (detect_button w)
           true ("Fixed bug on line " +:+ pretty (b_line b))
           (view (b' :: rest) 0 b')
           (<[name := (Rectify.rectify_bug code b).1]>
              (backed_up name (files w)))
           (boxes w) (threads w),
         Returns tt).
Proof.
  intros Hc Hi Hb Hlook Hlen Hn Hcode Hd.
  destruct (consistent_current _ _ Hc Hi)
    as (bugs' & b'' & Hb' & Hge & Hlook' & Hq).
  assert (bugs' = bugs) as -> by congruence.
  assert (b'' = b) as -> by congruence.
  destruct (delete (Z.to_nat i) bugs) as [|b' rest] eqn:Hrest.
  { apply (f_equal length) in Hrest.
    pose proof (lookup_lt_Some _ _ _ Hlook).
    rewrite length_delete in Hrest by eauto. simpl in Hrest. lia. }
  exists b', rest. split; [done|].
  unfold click, enabled. rewrite Hq. simpl.
  rewrite (rectify_current_bug_effect w bugs i b name code) by done.
  by rewrite Hrest.
Qed.

(** X18.  "Rectify Now" on the only bug: the fix is written, the list is
    empty, the frame is cleared, a box tells that all bugs have been
    fixed, "Fix All Bugs" is disabled and a detection is started. *)
Theorem last_rectify_starts_a_detection (w : window) (b : bug)
    (name code : string) :
  consistent w →
  current_bug_index w = Some 0 → detected_bugs w = Some [b] →
  filename w = Some name → name ≠ EmptyString →
  code_content w = Some code → on_disk name (files w) →
  click basename str Rectify_Now w
  = (mk_window (Some name) (Some (Rectify.rectify_bug code b).1)
       (Some []) None true false false "Processing..." blank
       (<[name := (Rectify.rectify_bug code b).1]>
          (backed_up name (files w)))
       (boxes w ++ [mk_box showinfo "Success" "All bugs have been fixed!"])
       (S (threads w)),
     Returns tt).
Proof.
  intros Hc Hi Hb Hn Hne Hcode Hd.
  destruct (consistent_current _ _ Hc Hi)
    as (bugs' & b'' & Hb' & Hge & Hlook' & Hq).
  assert (bugs' = [b]) as -> by congruence.
  unfold click, enabled. rewrite Hq. simpl.
  rewrite (rectify_current_bug_effect w [b] 0 b name code) by done.
  simpl. unfold start_detection. simpl. by destruct name.
Qed.

(** X19.  A backup is never written again: with a backup of the selected file
    on the disk, no series of clicks changes it (as long as no other file
    is selected). *)
Theorem backup_is_never_overwritten (bs : list button) (w : window)
    (name text : string) :
  consistent w → filename w = Some name → Forall keeps_file bs →
  files w !! (name +:+ ".bak") = Some text →
  files (clicks basename str bs w) !! (name +:+ ".bak") = Some text.
Proof.
  intros Hc Hn Hbs Hbak.
  apply (clicks_files_ind (λ fs, fs !! (name +:+ ".bak") = Some text) name);
    try done.
  - intros fs Hfs. by rewrite backed_up_lookup_bak, Hfs.
  - intros fs t Hfs _. rewrite lookup_insert_ne by (symmetry; apply bak_ne).
    by rewrite backed_up_lookup_bak, Hfs.
Qed.

(** X20.  The text the file had before the first fix is not lost: with the
    file on the disk and no backup, after any series of clicks either
    the file still has its text and there is no backup, or the backup
    has this text (as long as no other file is selected). *)
Theorem original_text_is_backed_up (bs : list button) (w : window)
    (name text : string) :
  consistent w → filename w = Some name → Forall keeps_file bs →
  files w !! name = Some text → files w !! (name +:+ ".bak") = None →
  (files (clicks basename str bs w) !! name = Some text
   ∧ files (clicks basename str bs w) !! (name +:+ ".bak") = None)
  ∨ files (clicks basename str bs w) !! (name +:+ ".bak") = Some text.
Proof.
  intros Hc Hn Hbs Hfile Hbak.
  apply (clicks_files_ind
           (λ fs, (fs !! name = Some text ∧ fs !! (name +:+ ".bak") = None)
                  ∨ fs !! (name +:+ ".bak") = Some text) name); auto.
  - intros fs [[Hf Hb]|Hb]; right; rewrite backed_up_lookup_bak, Hb; done.
  - intros fs t Hfs _. right.
    rewrite lookup_insert_ne by (symmetry; apply bak_ne).
    rewrite backed_up_lookup_bak.
    destruct Hfs as [[Hf Hb]|Hb]; by rewrite Hb.
Qed.

Lemma rectify_clicks (bugs : list bug) :
  ∀ (w : window) (name code : string),
    consistent w → current_bug_index w = Some 0 →
    detected_bugs w = Some bugs → bugs ≠ [] →
    filename w = Some name → code_content w = Some code →
    on_disk name (files w) →
    let text := foldl (λ text b, (Rectify.rectify_bug text b).1) code bugs in
    let w' := clicks basename str (replicate (length bugs) Rectify_Now) w in
    files w' = <[name := text]> (backed_up name (files w))
    ∧ code_content w' = Some text.
Proof.
  induction bugs as [|b rest IH]; intros w name code Hc Hi Hb Hne Hn Hcode Hd;
    [done|].
  destruct (consistent_current _ _ Hc Hi)
    as (bugs' & b'' & Hb' & Hge & Hlook' & Hq).
  assert (bugs' = b :: rest) as -> by congruence.
  simpl in Hlook'. injection Hlook' as <-. cbv zeta.
  change (clicks basename str (replicate (length (b :: rest)) Rectify_Now) w)
    with (clicks basename str (replicate (length rest) Rectify_Now)
            (click basename str Rectify_Now w).1).
  change (foldl (λ text b0, (Rectify.rectify_bug text b0).1) code (b :: rest))
    with (foldl (λ text b0, (Rectify.rectify_bug text b0).1)
            (Rectify.rectify_bug code b).1 rest).
  assert (Hclick : click basename str Rectify_Now w
                   = rectify_current_bug str w).
  { unfold click, enabled. by rewrite Hq. }
  rewrite Hclick.
  rewrite (rectify_current_bug_effect w (b :: rest) 0 b name code) by done.
  change (delete (Z.to_nat 0) (b :: rest)) with rest. cbn [fst].
  destruct rest as [|b' rest].
  - change (clicks basename str (replicate (length []) Rectify_Now) ?w0)
      with w0.
    match goal with
    | |- context [start_detection ?w0] =>
        destruct (files_start_detection w0) as (-> & _ & -> & _)
    end.
    done.
  - match goal with
    | |- context [clicks _ _ _ ?w0] => set (w1 := w0)
    end.
    assert (Hd1 : on_disk name (files w1)).
    { left. unfold w1.
      cbn [files set_quick_fix set_current_bug_index set_fix_all_button].
      rewrite lookup_insert_eq. eauto. }
    destruct (IH w1 name (Rectify.rectify_bug code b).1) as [Hfiles Hcontent];
      try done.
    split; [|done]. rewrite Hfiles. unfold w1.
    cbn [files set_quick_fix set_current_bug_index set_fix_all_button].
    rewrite backed_up_again.
    + by rewrite insert_insert_eq.
    + rewrite lookup_insert_ne by (symmetry; apply bak_ne).
      rewrite backed_up_lookup_bak.
      destruct Hd as [[t Ht]|[t Ht]]; rewrite ?Ht; eauto.
      destruct (files w !! (name +:+ ".bak")); eauto.
Qed.

(** X21.  "Rectify Now" as many times as there are bugs, from the first bug,
    leaves the files that one click on "Fix All Bugs" leaves, and the
    same text in the window: the text of [apply_fixes], when every fix is
    one line. *)
Theorem rectify_each_is_fix_all (w : window) (bugs : list bug)
    (name code : string) :
  consistent w → current_bug_index w = Some 0 →
  detected_bugs w = Some bugs → fix_all_button w = true →
  filename w = Some name → name ≠ EmptyString →
  code_content w = Some code → code ≠ EmptyString →
  on_disk name (files w) →
  Forall (λ b, newline_free (b_fix b) = true) bugs →
  let w1 := clicks basename str (replicate (length bugs) Rectify_Now) w in
  let w2 := (click basename str Fix_All_Bugs w).1 in
  files w1 = files w2
  ∧ files w1 !! name = Some (Rectify.apply_fixes code bugs)
  ∧ code_content w1 = code_content w2.
Proof.
  intros Hc Hi Hb Hfix Hn Hne Hcode Hce Hd Hfree. simpl.
  destruct (consistent_current _ _ Hc Hi)
    as (bugs' & b0 & Hb' & _ & Hlook' & _).
  assert (bugs' = bugs) as -> by congruence.
  destruct bugs as [|b0' bs]; [done|].
  destruct (rectify_clicks (b0' :: bs) w name code) as [-> ->]; try done.
  rewrite foldl_rectify_bug by done.
  unfold click, enabled. rewrite Hfix.
  rewrite (apply_all_fixes_effect w b0' bs name code) by done.
  cbn [fst].
  match goal with
  | |- context [start_detection ?w0] =>
      destruct (files_start_detection w0) as (-> & _ & -> & _)
  end.
  simpl. by rewrite lookup_insert_eq.
Qed.

(** X22.  With neither the file nor a backup on the disk, "Rectify Now" and
    "Fix All Bugs" change nothing: the list of bugs, the text and the
    frame stay, no file is made, and one box shows the error. *)
Theorem fixing_a_file_that_is_gone (w : window) (name : string) :
  consistent w → filename w = Some name → ¬ on_disk name (files w) →
  (is_Some (current_bug_index w) →
   click basename str Rectify_Now w
   = (show showerror "Error"
        ("Failed to rectify bug: " +:+ str FileNotFoundError) w, Returns tt))
  ∧ (fix_all_button w = true → truthy_list (detected_bugs w) = true →
     truthy_str (filename w) = true → truthy_str (code_content w) = true →
     click basename str Fix_All_Bugs w
     = (show showerror "Error"
          ("Failed to apply fixes: " +:+ str FileNotFoundError) w,
        Returns tt)).
Proof.
  intros Hc Hn Hd.
  assert (Hbackup : make_backup (name +:+ ".bak") w
                    = (w, Throws FileNotFoundError)).
  { unfold make_backup. rewrite Hn. simpl.
    destruct (files w !! (name +:+ ".bak")) eqn:Hbak;
      [exfalso; apply Hd; right; rewrite Hbak; eauto|].
    destruct (files w !! name) eqn:Hfile;
      [exfalso; apply Hd; left; rewrite Hfile; eauto|]. done. }
  split.
  - intros [i Hi].
    destruct (consistent_current _ _ Hc Hi)
      as (bugs & b & Hb & Hge & Hlook & Hq).
    pose proof (lookup_lt_Some _ _ _ Hlook) as Hlen.
    unfold click, enabled. rewrite Hq. simpl.
    unfold rectify_current_bug. rewrite Hi, Hb.
    destruct bugs as [|b0 bs]; [done|].
    replace (Z.of_nat (length (b0 :: bs)) <=? i) with false
      by (symmetry; apply Z.leb_gt; lia).
    unfold try_except. erewrite bind_returns; [|by apply item_in_range].
    erewrite bind_returns; [|unfold backup_name; by rewrite Hn].
    erewrite bind_throws; [|done]. done.
  - intros Hfix Hbugs Hname Hcode.
    unfold click, enabled. rewrite Hfix.
    unfold apply_all_fixes.
    destruct (detected_bugs w) as [[|b0 bs]|]; try done.
    rewrite Hname, Hcode. cbn [andb].
    unfold try_except.
    erewrite bind_returns; [|unfold backup_name; by rewrite Hn].
    erewrite bind_throws; [|done]. done.
Qed.

Lemma click_locked (b : button) (w : window) :
  fix_all_button w = false → quick_fix w = blank →
  let w' := (click basename str b w).1 in
  (fix_all_button w' = false ∧ quick_fix w' = blank)
  ∧ files w' = files w ∧ code_content w' = code_content w
  ∧ detected_bugs w' = detected_bugs w.
Proof.
  intros Hfix Hq. simpl. unfold click.
  destruct b; simpl; rewrite ?Hfix, ?Hq; simpl; try done.
  - by destruct chosen.
  - destruct (detect_button w); [|done]. simpl.
    unfold start_detection. by destruct (truthy_str (filename w)).
Qed.

(** X23.  When a file has been selected, the bugs and the text of the file
    before stay in the window, but no click can use them: the buttons
    "Fix All Bugs" and "Rectify Now" are disabled, and whatever is
    clicked no file is written (as long as no detection brings its
    results). *)
Theorem selecting_a_file_locks_the_fixes (chosen : string)
    (bs : list button) (w : window) :
  chosen ≠ EmptyString →
  let w' := clicks basename str bs
              (click basename str (Select_Code_File chosen) w).1 in
  enabled Fix_All_Bugs w' = false ∧ enabled Rectify_Now w' = false
  ∧ files w' = files w
  ∧ code_content w' = code_content w ∧ detected_bugs w' = detected_bugs w.
Proof.
  intros Hne. cbv zeta.
  set (w0 := (click basename str (Select_Code_File chosen) w).1).
  assert (H0 : (fix_all_button w0 = false ∧ quick_fix w0 = blank)
               ∧ files w0 = files w ∧ code_content w0 = code_content w
               ∧ detected_bugs w0 = detected_bugs w).
  { unfold w0. simpl. by destruct chosen. }
  clearbody w0.
  assert (H : (fix_all_button (clicks basename str bs w0) = false
               ∧ quick_fix (clicks basename str bs w0) = blank)
              ∧ files (clicks basename str bs w0) = files w
              ∧ code_content (clicks basename str bs w0) = code_content w
              ∧ detected_bugs (clicks basename str bs w0) = detected_bugs w).
  { induction bs as [|b bs IH] using rev_ind; [done|].
    rewrite clicks_snoc.
    destruct IH as ([Hfix Hq] & <- & <- & <-).
    by apply click_locked. }
  destruct H as ([Hfix Hq] & -> & -> & ->).
  unfold enabled. by rewrite Hfix, Hq.
Qed.

(** ** The detection thread *)

Variable ast_parse : string → Ast.parse_outcome.

Lemma detect_bugs_count (code language : string) (res : analysis) :
  detect_bugs ast_parse code language = Ok res →
  bug_count res = Z.of_nat (length (bugs res)).
Proof.
  rewrite detect_bugs_unfold.
  intros (scanned & _ & (ast_bugs & _ & Hres)%bind_Ok)%bind_Ok.
  by injection Hres as <-.
Qed.

Lemma read_file_started (w : window) (a : ascii) (name text : string) :
  filename w = Some (String a name) →
  files w !! String a name = Some text →
  read_file (start_detection w)
  = (start_detection w, Returns (universal_newlines text)).
Proof.
  intros Hn Hf. unfold read_file.
  destruct (files_start_detection w) as (-> & -> & _).
  by rewrite Hn, Hf.
Qed.

(** X24.  A detection that succeeds: the window holds the text of the file as
    it was read and the bugs of the analyzer, "Fix All Bugs" is enabled
    when there is a bug and disabled when there is none, the frame shows
    the first bug, or nothing, and "Detect Bugs" is enabled again; no
    box is shown and no file is written. *)
Theorem detection_shows_the_first_bug (in_time : bool) (language : string)
    (w : window) (name text : string) (res : analysis) :
  filename w = Some name → name ≠ EmptyString →
  files w !! name = Some text →
  detect_bugs ast_parse (universal_newlines text) language = Ok res →
  let w' := detection str ast_parse in_time language w in
  code_content w' = Some (universal_newlines text)
  ∧ detected_bugs w' = Some (bugs res)
  ∧ consistent w'
  ∧ current_bug_index w' = match bugs res with [] => None | _ :: _ => Some 0 end
  ∧ fix_all_button w' = match bugs res with [] => false | _ :: _ => true end
  ∧ detect_button w' = true ∧ status_bar w' = "Ready"%string
  ∧ boxes w' = boxes w ∧ files w' = files w.
Proof.
  intros Hn Hne Hf Hres. cbv zeta.
  destruct name as [|a name]; [done|].
  pose proof (detect_bugs_count _ _ _ Hres) as Hcount.
  unfold detection, detect_bugs_thread.
  rewrite (read_file_started w a name text) by done. rewrite Hres, Hn.
  cbn [truthy_str].
  cbn [foldl run_callback ret fst].
  unfold start_detection. rewrite Hn. cbn [truthy_str].
  destruct res as [count [|b bs]]; simpl in Hcount; subst count.
  - unfold display_results. simpl. by destruct w.
  - rewrite (display_results_first _ _ b bs) by done.
    unfold update, reset_ui. cbn [fst].
    by repeat split.
Qed.

(** X25.  A detection that fails, with an exception of the analyzer: the
    window holds the text of the file as it was read, but the bugs of
    the analysis before, and "Fix All Bugs" is as it was; the frame is
    empty and "Detect Bugs" is enabled again.  The box with the error is
    shown only when the main loop calls it in time. *)
Theorem failed_detection_keeps_the_old_bugs (in_time : bool)
    (language : string) (w : window) (name text : string) (e : exn) :
  filename w = Some name → name ≠ EmptyString →
  files w !! name = Some text →
  detect_bugs ast_parse (universal_newlines text) language = Raise e →
  let w' := detection str ast_parse in_time language w in
  code_content w' = Some (universal_newlines text)
  ∧ detected_bugs w' = detected_bugs w
  ∧ fix_all_button w' = fix_all_button w
  ∧ current_bug_index w' = None ∧ quick_fix w' = blank
  ∧ detect_button w' = true ∧ files w' = files w
  ∧ boxes w'
    = if in_time
      then boxes w ++ [mk_box showerror "Error"
                         ("Error analyzing code: " +:+ str (Builtin e))]
      else boxes w.
Proof.
  intros Hn Hne Hf Hres. cbv zeta.
  destruct name as [|a name]; [done|].
  unfold detection, detect_bugs_thread.
  rewrite (read_file_started w a name text) by done. rewrite Hres, Hn.
  cbn [truthy_str].
  cbn [foldl run_callback ret fst].
  unfold start_detection. rewrite Hn. cbn [truthy_str].
  by destruct in_time.
Qed.

End WindowFacts.

Section WindowWitnesses.
Import App.

Lemma clicks_keep_the_frame_witness :
  consistent
    (clicks sample_basename sample_str [Next_Bug; Rectify_Now; Previous_Bug]
       (sample 0)).
Proof.
  apply (clicks_keep_the_frame sample_basename sample_str
           [Next_Bug; Rectify_Now; Previous_Bug] (sample 0)).
  reflexivity.
Defined.

Lemma next_previous_round_trip_witness :
  click sample_basename sample_str Previous_Bug
    (click sample_basename sample_str Next_Bug (sample 1)).1
  = (sample 1, Returns tt)
  ∧ click sample_basename sample_str Next_Bug
      (click sample_basename sample_str Previous_Bug (sample 1)).1
    = (sample 1, Returns tt).
Proof.
  destruct (next_previous_round_trip sample_basename sample_str (sample 1))
    as [Hnext Hprev]; [reflexivity|].
  split; [apply Hnext|apply Hprev]; reflexivity.
Defined.

Lemma rectify_now_shows_the_first_bug_witness :
  ∃ b' rest,
    delete (Z.to_nat 2) Scenario.three_fixes = b' :: rest
    ∧ (click sample_basename sample_str Rectify_Now (sample 2)).1
      = mk_window (Some "a.py")
          (Some (join_lines ["a"; "B2"; "c"; "d"; "e"]))
          (Some (b' :: rest)) (Some 0) false true true
          "Fixed bug on line 2" (view (b' :: rest) 0 b')
          {[ "a.py" := join_lines ["a"; "B2"; "c"; "d"; "e"];
             "a.py.bak" := Scenario.five_lines ]}
          [] 0.
Proof.
  destruct (rectify_now_shows_the_first_bug sample_basename sample_str
              (sample 2) Scenario.three_fixes 2
              (mk_bug StyleWarning 2 "third" None "B2")
              "a.py" Scenario.five_lines)
    as (b' & rest & Hrest & Hclick); try reflexivity.
  - simpl. lia.
  - left. exists Scenario.five_lines. by vm_compute.
  - exists b', rest. split; [done|]. rewrite Hclick. cbn [fst].
    f_equal; by vm_compute.
Defined.

Lemma last_rectify_starts_a_detection_witness :
  threads (click sample_basename sample_str Rectify_Now sample_one).1 = 1%nat
  ∧ detected_bugs (click sample_basename sample_str Rectify_Now sample_one).1
    = Some [].
Proof.
  rewrite (last_rectify_starts_a_detection sample_basename sample_str
             sample_one Scenario.division_bug "a.py" Scenario.division);
    try done.
  left. exists Scenario.division. by vm_compute.
Defined.

Lemma backup_is_never_overwritten_witness :
  files (clicks sample_basename sample_str
           [Rectify_Now; Next_Bug; Fix_All_Bugs] (sample_saved 1))
    !! "a.py.bak" = Some "saved".
Proof.
  apply (backup_is_never_overwritten sample_basename sample_str
           [Rectify_Now; Next_Bug; Fix_All_Bugs] (sample_saved 1) "a.py").
  - reflexivity.
  - reflexivity.
  - repeat constructor.
  - by vm_compute.
Defined.

Lemma original_text_is_backed_up_witness :
  (files (clicks sample_basename sample_str [Next_Bug; Rectify_Now] (sample 0))
     !! "a.py" = Some Scenario.five_lines
   ∧ files (clicks sample_basename sample_str [Next_Bug; Rectify_Now]
              (sample 0)) !! "a.py.bak" = None)
  ∨ files (clicks sample_basename sample_str [Next_Bug; Rectify_Now]
             (sample 0)) !! "a.py.bak" = Some Scenario.five_lines.
Proof.
  apply (original_text_is_backed_up sample_basename sample_str
           [Next_Bug; Rectify_Now] (sample 0) "a.py" Scenario.five_lines).
  - reflexivity.
  - reflexivity.
  - repeat constructor.
  - by vm_compute.
  - by vm_compute.
Defined.

Lemma rectify_each_is_fix_all_witness :
  files (clicks sample_basename sample_str
           [Rectify_Now; Rectify_Now; Rectify_Now] (sample 0))
  = files (click sample_basename sample_str Fix_All_Bugs (sample 0)).1.
Proof.
  apply (rectify_each_is_fix_all sample_basename sample_str (sample 0)
           Scenario.three_fixes "a.py" Scenario.five_lines); try done.
  - left. exists Scenario.five_lines. by vm_compute.
  - repeat constructor.
Defined.

Lemma fixing_a_file_that_is_gone_witness :
  click sample_basename sample_str Rectify_Now (sample_gone 0)
  = (show showerror "Error"
       "Failed to rectify bug: [Errno 2] No such file or directory: 'a.py'"
       (sample_gone 0), Returns tt)
  ∧ click sample_basename sample_str Fix_All_Bugs (sample_gone 0)
    = (show showerror "Error"
         "Failed to apply fixes: [Errno 2] No such file or directory: 'a.py'"
         (sample_gone 0), Returns tt).
Proof.
  destruct (fixing_a_file_that_is_gone sample_basename sample_str
              (sample_gone 0) "a.py") as [Hrectify Hfix].
  - reflexivity.
  - reflexivity.
  - intros [[t Ht]|[t Ht]]; by vm_compute in Ht.
  - split; [apply Hrectify; by eexists|by apply Hfix].
Defined.

Lemma selecting_a_file_locks_the_fixes_witness :
  files (clicks sample_basename sample_str
           [Fix_All_Bugs; Rectify_Now; Detect_Bugs; Fix_All_Bugs]
           (click sample_basename sample_str (Select_Code_File "b.py")
              (sample 0)).1)
  = files (sample 0).
Proof.
  apply (selecting_a_file_locks_the_fixes sample_basename sample_str "b.py"
           [Fix_All_Bugs; Rectify_Now; Detect_Bugs; Fix_All_Bugs] (sample 0)).
  done.
Defined.

Lemma detection_shows_the_first_bug_witness :
  current_bug_index
    (detection sample_str (λ _, Ast.Parsed Scenario.division_tree) true
       "Python" (sample_selected "a.py" Scenario.division))
  = Some 0
  ∧ fix_all_button
      (detection sample_str (λ _, Ast.Parsed Scenario.division_tree) true
         "Python" (sample_selected "a.py" Scenario.division))
    = true.
Proof.
  destruct (detection_shows_the_first_bug sample_str
              (λ _, Ast.Parsed Scenario.division_tree) true "Python"
              (sample_selected "a.py" Scenario.division) "a.py"
              Scenario.division
              {| bug_count := 2;
                 bugs := [Scenario.division_bug; unused_variable_bug 1 "x"] |})
    as (_ & _ & _ & Hindex & Hfix & _).
  - reflexivity.
  - done.
  - by vm_compute.
  - by vm_compute.
  - split; [exact Hindex|exact Hfix].
Defined.

Lemma failed_detection_keeps_the_old_bugs_witness :
  detected_bugs
    (detection sample_str (λ _, Ast.Raises RecursionError) false "Java"
       (set_filename (Some "A.java")
          (set_files {[ "A.java" := Scenario.java_if ]} (sample 0))))
  = Some Scenario.three_fixes
  ∧ fix_all_button
      (detection sample_str (λ _, Ast.Raises RecursionError) false "Java"
         (set_filename (Some "A.java")
            (set_files {[ "A.java" := Scenario.java_if ]} (sample 0))))
    = true.
Proof.
  destruct (failed_detection_keeps_the_old_bugs sample_str
              (λ _, Ast.Raises RecursionError) false "Java"
              (set_filename (Some "A.java")
                 (set_files {[ "A.java" := Scenario.java_if ]} (sample 0)))
              "A.java" Scenario.java_if ValueError)
    as (_ & Hbugs & Hfix & _).
  - reflexivity.
  - done.
  - by vm_compute.
  - by vm_compute.
  - split; [exact Hbugs|exact Hfix].
Defined.

End WindowWitnesses.
